(** * Election vote blockchain: the ledger engine

    A shallow embedding of the classes [Block] and [Blockchain] of
    [src/core/blockchain.js] (the same classes stand in
    [blockchain_server.js]): hashing, proof-of-work sealing, vote admission,
    mining of the pending pool, tallying and chain verification; then the
    load of the chain and of the election state from the database, the
    handlers of [src/api/publicRoutes.js] and [src/api/adminRoutes.js], and
    the vote form of the front end that calls them.

    Conventions.
    - JavaScript strings are [string] (their UTF-8 bytes); voter ids,
      candidate ids, addresses and timestamps are strings, as the JSDoc of the
      source types them.  A string is falsy exactly when it is empty.
    - [index], [nonce] and [amount] are non-negative integers ([N]), printed
      in decimal as JavaScript prints the integers it holds exactly.
    - [Date.now().toString()] is an input of the operation that reads the clock.
    - Arrays of transactions are mutable JavaScript objects: they live in a
      heap, and blocks and the pending pool refer to them by location.
      Transaction objects are never written after their creation and are
      values.
    - Firestore is outside the engine.  A write of a sealed block either
      succeeds or fails, which is an input of the mining step;
      [saveElectionStateToDatabase] catches its own errors and touches no
      field of the engine.
    - An operation is a function from the state to an outcome and the next
      state; a thrown error keeps the writes made before the throw.  The one
      place where an operation waits with work left to do is the write of the
      sealed block in [minePendingTransactions]; the statements after it are
      [after_save]. *)

From stdpp Require Import gmap strings list fin_maps pretty.
From Stdlib Require Import NArith String Ascii.

Local Open Scope N_scope.

(** ** SHA-256 (FIPS 180-4), as [crypto-js/sha256] computes it on the UTF-8
    bytes of its argument, rendered in lowercase hexadecimal *)

Module Sha256.

Definition mask32 : N := 0xFFFFFFFF.
Definition add32 (x y : N) : N := N.land (x + y) mask32.
Definition rotr (n x : N) : N :=
  N.lor (N.shiftr x n) (N.land (N.shiftl x (32 - n)) mask32).
Definition not32 (x : N) : N := N.lxor x mask32.

Definition Ch (x y z : N) : N := N.lxor (N.land x y) (N.land (not32 x) z).
Definition Maj (x y z : N) : N :=
  N.lxor (N.lxor (N.land x y) (N.land x z)) (N.land y z).
Definition Sigma0 (x : N) : N :=
  N.lxor (N.lxor (rotr 2 x) (rotr 13 x)) (rotr 22 x).
Definition Sigma1 (x : N) : N :=
  N.lxor (N.lxor (rotr 6 x) (rotr 11 x)) (rotr 25 x).
Definition sigma0 (x : N) : N :=
  N.lxor (N.lxor (rotr 7 x) (rotr 18 x)) (N.shiftr x 3).
Definition sigma1 (x : N) : N :=
  N.lxor (N.lxor (rotr 17 x) (rotr 19 x)) (N.shiftr x 10).

(** The round constants are the first 32 bits of the fractional parts of the
    cube roots of the first 64 primes, the initial hash value those of the
    square roots of the first 8 primes. *)
Definition is_prime (p : nat) : bool :=
  List.forallb (fun d => negb (Nat.eqb (Nat.modulo p d) 0)) (List.seq 2 (p - 2)).

Definition primes : list N :=
  List.map N.of_nat (List.filter is_prime (List.seq 2 310)).

(** The largest [r] below [2 ^ k] past the bits already set with
    [r ^ 3 <= n]. *)
Fixpoint cube_root_from (k : nat) (r n : N) : N :=
  match k with
  | O => r
  | S k' =>
      let r' := r + N.shiftl 1 (N.of_nat k') in
      cube_root_from k' (if r' * r' * r' <=? n then r' else r) n
  end.

Definition cube_root (n : N) : N := cube_root_from 40 0 n.

Definition K : list N :=
  Eval vm_compute in
    List.map (fun p => N.land (cube_root (N.shiftl p 96)) mask32) primes.

Definition H0 : list N :=
  Eval vm_compute in
    List.map (fun p => N.land (N.sqrt (N.shiftl p 64)) mask32) (List.firstn 8 primes).

(** The [n] low bytes of [x], most significant first. *)
Definition be_bytes (n : nat) (x : N) : list N :=
  List.map (fun i => N.land (N.shiftr x (8 * N.of_nat i)) 0xFF)
           (List.rev (List.seq 0 n)).

(** Padding: the byte 0x80, zeros up to 56 modulo 64, the bit length on
    eight bytes. *)
Definition pad (msg : list N) : list N :=
  let len := N.of_nat (List.length msg) in
  let k := N.to_nat ((119 - len mod 64) mod 64) in
  msg ++ 0x80 :: List.repeat 0 k ++ be_bytes 8 (8 * len).

Fixpoint words (bs : list N) : list N :=
  match bs with
  | b0 :: b1 :: b2 :: b3 :: rest =>
      N.lor (N.shiftl b0 24) (N.lor (N.shiftl b1 16) (N.lor (N.shiftl b2 8) b3))
      :: words rest
  | _ => []
  end.

(** Message schedule; [rev_w] holds w(t-1), w(t-2), ... *)
Fixpoint schedule (n : nat) (rev_w : list N) : list N :=
  match n with
  | O => List.rev rev_w
  | S n' =>
      let w := add32 (add32 (sigma1 (List.nth 1 rev_w 0)) (List.nth 6 rev_w 0))
                     (add32 (sigma0 (List.nth 14 rev_w 0)) (List.nth 15 rev_w 0)) in
      schedule n' (w :: rev_w)
  end.

Record regs := Regs { ra : N; rb : N; rc : N; rd : N; re : N; rf : N; rg : N; rh : N }.

Definition round (r : regs) (kw : N * N) : regs :=
  let '(Regs a b c d e f g h) := r in
  let t1 := add32 (add32 (add32 h (Sigma1 e)) (add32 (Ch e f g) (fst kw))) (snd kw) in
  let t2 := add32 (Sigma0 a) (Maj a b c) in
  Regs (add32 t1 t2) a b c (add32 d t1) e f g.

Definition compress (r : regs) (block : list N) : regs :=
  let w := schedule 48 (List.rev block) in
  let '(Regs a b c d e f g h) := List.fold_left round (List.combine K w) r in
  Regs (add32 (ra r) a) (add32 (rb r) b) (add32 (rc r) c) (add32 (rd r) d)
       (add32 (re r) e) (add32 (rf r) f) (add32 (rg r) g) (add32 (rh r) h).

Fixpoint blocks (fuel : nat) (ws : list N) : list (list N) :=
  match fuel, ws with
  | S fuel', _ :: _ => List.firstn 16 ws :: blocks fuel' (List.skipn 16 ws)
  | _, _ => []
  end.

Definition initial : regs :=
  match H0 with
  | [a; b; c; d; e; f; g; h] => Regs a b c d e f g h
  | _ => Regs 0 0 0 0 0 0 0 0
  end.

Definition digest (msg : list N) : regs :=
  let ws := words (pad msg) in
  List.fold_left compress (blocks (List.length ws) ws) initial.

Definition hex_digit (d : N) : ascii :=
  ascii_of_N (if d <? 10 then 48 + d else 87 + d).

Definition hex32 (x : N) : string :=
  string_of_list_ascii
    (List.map (fun i => hex_digit (N.land (N.shiftr x (4 * N.of_nat i)) 0xF))
              (List.rev (List.seq 0 8))).

Definition hex (r : regs) : string :=
  let '(Regs a b c d e f g h) := r in
  hex32 a +:+ hex32 b +:+ hex32 c +:+ hex32 d +:+
  hex32 e +:+ hex32 f +:+ hex32 g +:+ hex32 h.

End Sha256.

(** [SHA256(message).toString()] *)
Definition SHA256 (message : string) : string :=
  Sha256.hex (Sha256.digest (List.map N_of_ascii (list_ascii_of_string message))).

(** Proofs take the digest as a whole; it is evaluated by [vm_compute] only. *)
#[global] Opaque SHA256.

(** The constants and two digests of FIPS 180-4. *)
Example sha256_constants :
  List.length Sha256.K = 64%nat /\
  List.nth 0 Sha256.K 0 = 0x428a2f98 /\ List.nth 63 Sha256.K 0 = 0xc67178f2 /\
  List.nth 0 Sha256.H0 0 = 0x6a09e667 /\ List.nth 7 Sha256.H0 0 = 0x5be0cd19.
Proof. vm_compute. repeat split. Qed.

Example sha256_abc :
  SHA256 "abc" = "ba7816bf8f01cfea414140de5dae2223b00361a396177a9cb410ff61f20015ad".
Proof. vm_compute. reflexivity. Qed.

Example sha256_two_blocks :
  SHA256 "abcdbcdecdefdefgefghfghighijhijkijkljklmklmnlmnomnopnopq"
  = "248d6a61d20638b8e5c026930c3e6039a33ce45964ff2167f6ecedd419db06c1".
Proof. vm_compute. reflexivity. Qed.

(** ** [JSON.stringify] on the values the engine builds *)

Definition dquote : string := String "034" "".

Definition hex2 (c : N) : string :=
  String (Sha256.hex_digit (N.shiftr c 4)) (String (Sha256.hex_digit (N.land c 0xF)) "").

(** One character of a string literal: quote and backslash are escaped,
    control characters take their short escape or the [\u00XX] form. *)
Definition json_escape (c : ascii) : string :=
  let n := N_of_ascii c in
  if n =? 34 then "\" +:+ dquote
  else if n =? 92 then "\\"
  else if n =? 8 then "\b"
  else if n =? 12 then "\f"
  else if n =? 10 then "\n"
  else if n =? 13 then "\r"
  else if n =? 9 then "\t"
  else if n <? 32 then "\u00" +:+ hex2 n
  else String c "".

Fixpoint json_chars (s : string) : string :=
  match s with
  | EmptyString => ""
  | String c s' => json_escape c +:+ json_chars s'
  end.

Definition json_string (s : string) : string := dquote +:+ json_chars s +:+ dquote.

Definition json_field (key value : string) : string :=
  dquote +:+ key +:+ dquote +:+ ":" +:+ value.

(** ** Transactions

    [{ voterId, candidateId, timestamp, type: 'vote' }] and
    [{ fromAddress: null, toAddress, amount, timestamp, type: 'miningReward' }]. *)

Inductive Transaction :=
| Vote (voterId candidateId timestamp : string)
| MiningReward (toAddress : string) (amount : N) (timestamp : string).

#[global] Instance Transaction_eq_dec : EqDecision Transaction.
Proof. solve_decision. Defined.

Definition json_transaction (t : Transaction) : string :=
  match t with
  | Vote voterId candidateId timestamp =>
      "{" +:+ json_field "voterId" (json_string voterId) +:+ ","
          +:+ json_field "candidateId" (json_string candidateId) +:+ ","
          +:+ json_field "timestamp" (json_string timestamp) +:+ ","
          +:+ json_field "type" (json_string "vote") +:+ "}"
  | MiningReward toAddress amount timestamp =>
      "{" +:+ json_field "fromAddress" "null" +:+ ","
          +:+ json_field "toAddress" (json_string toAddress) +:+ ","
          +:+ json_field "amount" (pretty amount) +:+ ","
          +:+ json_field "timestamp" (json_string timestamp) +:+ ","
          +:+ json_field "type" (json_string "miningReward") +:+ "}"
  end.

Definition json_array (ts : list Transaction) : string :=
  "[" +:+ String.concat "," (List.map json_transaction ts) +:+ "]".

(** ** The heap of transaction arrays *)

Abbreviation loc := positive (only parsing).
Abbreviation Heap := (gmap positive (list Transaction)) (only parsing).

(** The elements of the array at [a]. *)
Definition elements_at (h : Heap) (a : loc) : list Transaction :=
  default [] (h !! a).

(** A new array holding [ts]. *)
Definition alloc (h : Heap) (ts : list Transaction) : loc * Heap :=
  let a := fresh (dom h) in (a, <[a := ts]> h).

(** [array.push(t)] *)
Definition push (h : Heap) (a : loc) (t : Transaction) : Heap :=
  <[a := elements_at h a ++ [t]]> h.

(** ** Blocks *)

(** [data] is the genesis text or an array of transactions. *)
Inductive BlockData :=
| Text (s : string)
| Transactions (a : loc).

#[global] Instance BlockData_eq_dec : EqDecision BlockData.
Proof. solve_decision. Defined.

Record Block := mkBlock {
  index : N;
  timestamp : string;
  data : BlockData;
  previousHash : string;
  nonce : N;
  hash : string
}.

#[global] Instance Block_eq_dec : EqDecision Block.
Proof. solve_decision. Defined.

Definition JSON_stringify (h : Heap) (d : BlockData) : string :=
  match d with
  | Text s => json_string s
  | Transactions a => json_array (elements_at h a)
  end.

Definition Array_isArray (d : BlockData) : bool :=
  match d with Text _ => false | Transactions _ => true end.

(** [calculateHash()]: the number [index] is added to a string, so the
    whole sum is a concatenation. *)
Definition calculateHash (h : Heap) (b : Block) : string :=
  SHA256 (pretty (index b) +:+ previousHash b +:+ timestamp b
          +:+ JSON_stringify h (data b) +:+ pretty (nonce b)).

(** [hash || this.calculateHash()]: [null] and the empty string are falsy. *)
Definition truthy (s : option string) : bool :=
  match s with
  | Some s => negb (String.eqb s "")
  | None => false
  end.

(** [new Block(index, timestamp, data, previousHash, nonce, hash)] *)
Definition new_Block (h : Heap) (index : N) (timestamp : string) (data : BlockData)
    (previousHash : string) (nonce : N) (hash : option string) : Block :=
  let b := mkBlock index timestamp data previousHash nonce "" in
  mkBlock index timestamp data previousHash nonce
    (if truthy hash then default "" hash else calculateHash h b).

(** [Array(difficulty + 1).join("0")] *)
Definition target (difficulty : nat) : string :=
  String.concat "0" (List.repeat "" (S difficulty)).

(** The loop test of [mineBlock], negated: the first [difficulty]
    characters of the hash are the target. *)
Definition sealed (difficulty : nat) (b : Block) : bool :=
  String.eqb (String.substring 0 difficulty (hash b)) (target difficulty).

(** One turn of the loop body: [this.nonce++; this.hash = this.calculateHash()].
    The nonce is a natural number; the number of the source grows by one at
    each turn as long as it is below 2^53. *)
Definition next_nonce (h : Heap) (b : Block) : Block :=
  let b' := mkBlock (index b) (timestamp b) (data b) (previousHash b) (nonce b + 1) (hash b) in
  mkBlock (index b) (timestamp b) (data b) (previousHash b) (nonce b + 1) (calculateHash h b').

(** [mineBlock(difficulty)]; [None] when [fuel] turns of the loop did not
    reach the target. *)
Fixpoint mineBlock (fuel : nat) (h : Heap) (difficulty : nat) (b : Block) : option Block :=
  if sealed difficulty b then Some b
  else match fuel with
       | O => None
       | S fuel' => mineBlock fuel' h difficulty (next_nonce h b)
       end.

(** ** The engine's state *)

Module Candidate.
Record t := mk { id : string; name : string }.
End Candidate.

(** An entry of the object [getElectionResults] returns. *)
Module Result.
Record t := mk { name : string; votes : N }.
End Result.

#[global] Instance Result_eq_dec : EqDecision Result.t.
Proof. solve_decision. Defined.

(** The fields of a [Blockchain] object, and the heap its arrays live in. *)
Record Blockchain := mkBlockchain {
  heap : gmap positive (list Transaction);
  chain : list Block;
  difficulty : nat;
  pendingTransactions : loc;
  miningReward : N;
  votedUsers : gset string;
  registeredVoters : gset string;
  candidates : list Candidate.t;
  isElectionOpen : bool;
  isLoaded : bool
}.

Definition with_heap (h : Heap) (s : Blockchain) : Blockchain :=
  mkBlockchain h (chain s) (difficulty s) (pendingTransactions s) (miningReward s)
    (votedUsers s) (registeredVoters s) (candidates s) (isElectionOpen s) (isLoaded s).

Definition with_chain (c : list Block) (s : Blockchain) : Blockchain :=
  mkBlockchain (heap s) c (difficulty s) (pendingTransactions s) (miningReward s)
    (votedUsers s) (registeredVoters s) (candidates s) (isElectionOpen s) (isLoaded s).

Definition with_pendingTransactions (p : loc) (s : Blockchain) : Blockchain :=
  mkBlockchain (heap s) (chain s) (difficulty s) p (miningReward s)
    (votedUsers s) (registeredVoters s) (candidates s) (isElectionOpen s) (isLoaded s).

Definition with_votedUsers (v : gset string) (s : Blockchain) : Blockchain :=
  mkBlockchain (heap s) (chain s) (difficulty s) (pendingTransactions s) (miningReward s)
    v (registeredVoters s) (candidates s) (isElectionOpen s) (isLoaded s).

Definition with_registeredVoters (r : gset string) (s : Blockchain) : Blockchain :=
  mkBlockchain (heap s) (chain s) (difficulty s) (pendingTransactions s) (miningReward s)
    (votedUsers s) r (candidates s) (isElectionOpen s) (isLoaded s).

Definition with_isElectionOpen (o : bool) (s : Blockchain) : Blockchain :=
  mkBlockchain (heap s) (chain s) (difficulty s) (pendingTransactions s) (miningReward s)
    (votedUsers s) (registeredVoters s) (candidates s) o (isLoaded s).

(** The elements of [this.pendingTransactions]. *)
Definition pending (s : Blockchain) : list Transaction :=
  elements_at (heap s) (pendingTransactions s).

(** The elements of [block.data] when it is an array. *)
Definition transactions_of (h : Heap) (b : Block) : list Transaction :=
  match data b with
  | Text _ => []
  | Transactions a => elements_at h a
  end.

(** ** Errors and outcomes

    The source throws [Error] objects that differ by their message; the
    constructors name the kinds of the error taxonomy and [message] gives the
    text the source builds. *)

Inductive Error :=
| ElectionClosed
| InvalidInput (text : string)
| UnknownCandidate (candidateId : string)
| VoterNotRegistered (voterId : string)
| DuplicateVote (voterId : string)
| PersistenceUnavailable (text : string)
| TypeError (text : string).

Definition message (e : Error) : string :=
  match e with
  | ElectionClosed => "Election is currently closed. Votes cannot be cast."
  | InvalidInput text => text
  | UnknownCandidate candidateId =>
      "Invalid vote: Candidate '" +:+ candidateId +:+ "' not found."
  | VoterNotRegistered voterId =>
      "Voter '" +:+ voterId +:+ "' is not registered or not eligible to vote."
  | DuplicateVote voterId => "Voter '" +:+ voterId +:+ "' has already cast a vote."
  | PersistenceUnavailable text => text
  | TypeError text => text
  end.

Inductive outcome (A : Type) :=
| Return (a : A)
| Throw (e : Error).
Arguments Return {A} a.
Arguments Throw {A} e.

(** What [minePendingTransactions] resolves to:
    [{ message: 'No pending transactions to mine.' }] or
    [{ message: 'Block successfully mined!', latestBlock }]. *)
Inductive MineResult :=
| NothingToMine
| Mined (latestBlock : Block).

Definition mine_message (r : MineResult) : string :=
  match r with
  | NothingToMine => "No pending transactions to mine."
  | Mined _ => "Block successfully mined!"
  end.

(** ** The constructor and the genesis block *)

Definition seeded_candidates : list Candidate.t :=
  [ Candidate.mk "candidateA" "Alice Smith";
    Candidate.mk "candidateB" "Bob Johnson";
    Candidate.mk "candidateC" "Charlie Brown" ].

(** [new Blockchain()] *)
Definition new_Blockchain : Blockchain :=
  let '(p, h) := alloc ∅ [] in
  mkBlockchain h [] 3 p 1 ∅ ∅ seeded_candidates false false.

(** [createGenesisBlock()] *)
Definition createGenesisBlock : Block :=
  new_Block ∅ 0 "2023-01-01" (Text "Genesis Block (Election Start)") "0" 0 None.

(** [getLatestBlock()]: [this.chain[this.chain.length - 1]], [undefined] on
    an empty chain. *)
Definition getLatestBlock (s : Blockchain) : option Block := last (chain s).

(** ** Mining the pending pool *)

(** [JSON.parse(JSON.stringify(array))]: a new array; strings, numbers and
    [null] survive the round trip, so its elements are equal to the old ones. *)
Definition deep_copy (h : Heap) (a : loc) : loc * Heap := alloc h (elements_at h a).

(** The body of the [forEach] that updates [votedUsers]. *)
Definition mark_voted (voted : gset string) (trans : Transaction) : gset string :=
  match trans with
  | Vote voterId _ _ => if truthy (Some voterId) then {[voterId]} ∪ voted else voted
  | MiningReward _ _ _ => voted
  end.

(** The statements of [minePendingTransactions] after
    [await setDoc(doc(blocksCollection, newBlock.hash), ...)] returned: the
    pool is replaced by a new array, the reward is pushed on it, and the
    voters of [newBlock.data] are added to [votedUsers].  They run on the
    state as it is when the wait ends. *)
Definition after_save (minerAddress : option string) (now_reward : string)
    (newBlock : Block) (s : Blockchain) : Blockchain :=
  let '(p, h2) := alloc (heap s) [] in
  let h3 :=
    if truthy minerAddress
    then push h2 p (MiningReward (default "" minerAddress) (miningReward s) now_reward)
    else h2 in
  let voted :=
    if Array_isArray (data newBlock)
    then foldl mark_voted (votedUsers s) (transactions_of h3 newBlock)
    else votedUsers s in
  with_votedUsers voted (with_pendingTransactions p (with_heap h3 s)).

(** [minePendingTransactions(minerAddress)].  [now_block] and [now_reward]
    are the two readings of the clock, [saved] tells whether the write of the
    sealed block succeeds.  The arguments of [new Block] are evaluated in
    order, so the pool is copied before [getLatestBlock()] is read.  [None]
    when the proof-of-work ran out of fuel. *)
Definition minePendingTransactions (fuel : nat) (minerAddress : option string)
    (now_block : string) (saved : bool) (now_reward : string) (s : Blockchain)
    : option (outcome MineResult * Blockchain) :=
  if Nat.eqb (List.length (pending s)) 0 then Some (Return NothingToMine, s)
  else
    let '(a, h1) := deep_copy (heap s) (pendingTransactions s) in
    match getLatestBlock s with
    | None => Some (Throw (TypeError "Cannot read properties of undefined (reading 'hash')"),
                    with_heap h1 s)
    | Some latest =>
        let newBlock :=
          new_Block h1 (N.of_nat (List.length (chain s))) now_block (Transactions a)
                    (hash latest) 0 None in
        match mineBlock fuel h1 (difficulty s) newBlock with
        | None => None
        | Some newBlock =>
            let s1 := with_chain (chain s ++ [newBlock]) (with_heap h1 s) in
            if negb saved then
              Some (Throw (PersistenceUnavailable "Failed to save block to database."), s1)
            else Some (Return (Mined newBlock), after_save minerAddress now_reward newBlock s1)
        end
    end.

(** ** Admission of a vote *)

(** [createVote({ voterId, candidateId })]; [now] is the reading of the clock. *)
Definition createVote (voterId candidateId now : string) (s : Blockchain)
    : outcome bool * Blockchain :=
  if negb (isElectionOpen s) then (Throw ElectionClosed, s)
  else if negb (truthy (Some voterId)) || negb (truthy (Some candidateId)) then
    (Throw (InvalidInput "Invalid vote: voterId and candidateId are required."), s)
  else if negb (existsb (fun c => String.eqb (Candidate.id c) candidateId) (candidates s)) then
    (Throw (UnknownCandidate candidateId), s)
  else if negb (bool_decide (voterId ∈ registeredVoters s)) then
    (Throw (VoterNotRegistered voterId), s)
  else if bool_decide (voterId ∈ votedUsers s) then
    (Throw (DuplicateVote voterId), s)
  else
    let transaction := Vote voterId candidateId now in
    (Return true, with_heap (push (heap s) (pendingTransactions s) transaction) s).

(** ** Admin operations *)

(** [registerVoter(voterId)] *)
Definition registerVoter (voterId : string) (s : Blockchain) : outcome bool * Blockchain :=
  if negb (truthy (Some voterId)) then (Throw (InvalidInput "Voter ID cannot be empty."), s)
  else if bool_decide (voterId ∈ registeredVoters s) then (Return false, s)
  else (Return true, with_registeredVoters ({[voterId]} ∪ registeredVoters s) s).

(** [setElectionStatus(status)]; [None] stands for a value that is not a
    boolean. *)
Definition setElectionStatus (status : option bool) (s : Blockchain) : outcome unit * Blockchain :=
  match status with
  | None => (Throw (InvalidInput "Status must be a boolean (true/false)."), s)
  | Some b => (Return tt, with_isElectionOpen b s)
  end.

Definition getCandidates (s : Blockchain) : list Candidate.t := candidates s.

(** ** Tally *)

(** The object [results] is used as a map from candidate id to entry: its
    own properties are the entries, and no id of the roster is the accessor
    name [__proto__].  A read of [results[k]] that finds no own property is
    falsy or yields an object of the prototype chain, whose [votes] is no
    entry of the tally. *)
Definition initial_results (cs : list Candidate.t) : gmap string Result.t :=
  foldl (fun results candidate =>
           <[Candidate.id candidate := Result.mk (Candidate.name candidate) 0]> results)
        ∅ cs.

(** [if (transaction.type === 'vote' && results[transaction.candidateId])
    results[transaction.candidateId].votes++] *)
Definition count_transaction (results : gmap string Result.t) (transaction : Transaction)
    : gmap string Result.t :=
  match transaction with
  | Vote _ candidateId _ =>
      match results !! candidateId with
      | Some r => <[candidateId := Result.mk (Result.name r) (Result.votes r + 1)]> results
      | None => results
      end
  | MiningReward _ _ _ => results
  end.

Definition count_block (h : Heap) (results : gmap string Result.t) (block : Block)
    : gmap string Result.t :=
  if Array_isArray (data block)
  then foldl count_transaction results (transactions_of h block)
  else results.

(** [getElectionResults()] *)
Definition getElectionResults (s : Blockchain) : gmap string Result.t :=
  foldl (count_block (heap s)) (initial_results (candidates s)) (chain s).

(** ** Verification of the chain *)

(** The loop of [isChainValid] from [currentBlock = block] on, with
    [previousBlock] the block before it. *)
Fixpoint valid_from (h : Heap) (previousBlock : Block) (rest : list Block) : bool :=
  match rest with
  | [] => true
  | currentBlock :: rest' =>
      if negb (String.eqb (hash currentBlock) (calculateHash h currentBlock)) then false
      else if negb (String.eqb (previousHash currentBlock) (hash previousBlock)) then false
      else valid_from h currentBlock rest'
  end.

(** [isChainValid()]: it reads the state and returns it as it was. *)
Definition isChainValid (s : Blockchain) : bool * Blockchain :=
  match chain s with
  | [] => (false, s)
  | genesis :: rest => (valid_from (heap s) genesis rest, s)
  end.

(** * Persistence

    The engine keeps its blocks in the collection [blocksCollection], one
    document per block under the block's hash, and the sets of voters and
    the open flag in the one document [electionStateDocRef].  What a read
    of the database yields is an input of the functions below, as the clock
    is; what they write is part of their result. *)

(** ** Documents *)

(** The value of [data] in a stored block: the genesis text, or the
    transactions of the array.  A stored transaction is read by the values
    of its fields.  The order in which the database hands back the keys of
    an object is no part of a document: [JSON.stringify] follows it, so a
    statement on the hash recomputed from a loaded array holds for a
    database that hands the keys back in the order they were written. *)
Inductive DocumentData :=
| DocumentText (s : string)
| DocumentArray (ts : list Transaction).

(** A document of the collection of blocks: the own properties of a block,
    by value. *)
Record BlockDocument := mkBlockDocument {
  doc_index : N;
  doc_timestamp : string;
  doc_data : DocumentData;
  doc_previousHash : string;
  doc_nonce : N;
  doc_hash : string
}.

(** [{ ...newBlock }] as [setDoc] stores it and as [res.json] sends it. *)
Definition block_document (h : Heap) (b : Block) : BlockDocument :=
  mkBlockDocument (index b) (timestamp b)
    (match data b with
     | Text t => DocumentText t
     | Transactions a => DocumentArray (elements_at h a)
     end)
    (previousHash b) (nonce b) (hash b).

(** The document of the election state.  [None] in [doc_votedUsers] and
    [doc_registeredVoters] stands for a field that is absent or holds no
    array, [None] in [doc_isElectionOpen] for one that holds no boolean. *)
Record StateDocument := mkStateDocument {
  doc_votedUsers : option (list string);
  doc_registeredVoters : option (list string);
  doc_candidates : list Candidate.t;
  doc_isElectionOpen : option bool;
  doc_lastUpdated : string
}.

(** [Array.from(set)] and [new Set(array)]; the order of the elements of a
    set is not kept by the state. *)
Definition Array_from (set : gset string) : list string := elements set.

Definition new_Set (array : list string) : gset string := list_to_set array.

Inductive Write :=
| SetBlock (id : string) (document : BlockDocument)
| SetElectionState (document : StateDocument).

(** ** Saving the election state *)

(** [saveElectionStateToDatabase()]: [initialized] tells whether [db] and
    [electionStateDocRef] are set, [saved] whether [setDoc] succeeds; a
    failure is logged and not thrown.  [now] is the reading of the clock.
    The result is the list of the writes made. *)
Definition saveElectionStateToDatabase (initialized saved : bool) (now : string)
    (s : Blockchain) : list Write :=
  if negb initialized then []
  else if saved then
    [SetElectionState
       (mkStateDocument (Some (Array_from (votedUsers s)))
          (Some (Array_from (registeredVoters s)))
          (candidates s) (Some (isElectionOpen s)) now)]
  else [].

(** ** Loading the chain and the election state *)

Definition with_isLoaded (l : bool) (s : Blockchain) : Blockchain :=
  mkBlockchain (heap s) (chain s) (difficulty s) (pendingTransactions s) (miningReward s)
    (votedUsers s) (registeredVoters s) (candidates s) (isElectionOpen s) l.

(** [doc.data()]: the stored fields in a new object, the transactions in a
    new array. *)
Definition document_data (h : Heap) (d : BlockDocument) : Block * Heap :=
  match doc_data d with
  | DocumentText t =>
      (mkBlock (doc_index d) (doc_timestamp d) (Text t) (doc_previousHash d)
               (doc_nonce d) (doc_hash d), h)
  | DocumentArray ts =>
      let '(a, h') := alloc h ts in
      (mkBlock (doc_index d) (doc_timestamp d) (Transactions a) (doc_previousHash d)
               (doc_nonce d) (doc_hash d), h')
  end.

(** [querySnapshot.forEach(doc => { loadedBlocksData.push(doc.data()); })] *)
Fixpoint read_documents (h : Heap) (docs : list BlockDocument) : list Block * Heap :=
  match docs with
  | [] => ([], h)
  | d :: docs' =>
      let '(b, h1) := document_data h d in
      let '(bs, h2) := read_documents h1 docs' in
      (b :: bs, h2)
  end.

(** [array.sort((a, b) => key(a) - key(b))]: the sort is stable, elements
    of equal key keep their order. *)
Fixpoint insert_by {A : Type} (key : A -> N) (x : A) (l : list A) : list A :=
  match l with
  | [] => [x]
  | y :: l' => if key x <=? key y then x :: l else y :: insert_by key x l'
  end.

Definition sort_by {A : Type} (key : A -> N) (l : list A) : list A :=
  foldr (insert_by key) [] l.

(** [new Block(data.index, data.timestamp, data.data, data.previousHash,
    data.nonce, data.hash)] *)
Definition loaded_block (h : Heap) (d : Block) : Block :=
  new_Block h (index d) (timestamp d) (data d) (previousHash d) (nonce d) (Some (hash d)).

(** The [catch] block of the load. *)
Definition load_fallback (s : Blockchain) : Blockchain :=
  with_isLoaded true
    (with_isElectionOpen false
       (with_registeredVoters ∅ (with_votedUsers ∅ (with_chain [createGenesisBlock] s)))).

(** The fields of the state document the load takes up. *)
Definition load_election_state (state : StateDocument) (s : Blockchain) : Blockchain :=
  let s1 :=
    match doc_votedUsers state with
    | Some array => with_votedUsers (new_Set array) s
    | None => s
    end in
  let s2 :=
    match doc_registeredVoters state with
    | Some array => with_registeredVoters (new_Set array) s1
    | None => s1
    end in
  match doc_isElectionOpen state with
  | Some open => with_isElectionOpen open s2
  | None => s2
  end.

(** [loadChainAndElectionStateFromDatabase()].  [initialized] tells whether
    [db], [blocksCollection] and [electionStateDocRef] are set.
    [querySnapshot] holds the documents [getDocs] yields, in the order the
    snapshot has them, and [electionStateSnapshot] what [getDoc] yields, the
    inner [None] for a snapshot that does not exist; the outer [None] is a
    rejected read.  [genesis_saved] and [state_saved] tell whether the two
    writes succeed.  The result is the state and the writes made. *)
Definition loadChainAndElectionStateFromDatabase
    (initialized : bool) (querySnapshot : option (list BlockDocument)) (genesis_saved : bool)
    (electionStateSnapshot : option (option StateDocument)) (state_saved : bool)
    (now : string) (s : Blockchain) : Blockchain * list Write :=
  if negb initialized then (s, [])
  else
    match querySnapshot with
    | None => (load_fallback s, [])
    | Some docs =>
        let blocks_loaded : Blockchain * option (list Write) :=
          match docs with
          | [] =>
              let genesisBlock := createGenesisBlock in
              let s1 := with_chain (chain s ++ [genesisBlock]) s in
              (s1, if genesis_saved
                   then Some [SetBlock (hash genesisBlock) (block_document (heap s1) genesisBlock)]
                   else None)
          | _ :: _ =>
              let '(loadedBlocksData, h) := read_documents (heap s) docs in
              (with_chain (List.map (loaded_block h) (sort_by index loadedBlocksData))
                          (with_heap h s),
               Some [])
          end in
        match blocks_loaded with
        | (s1, None) => (load_fallback s1, [])
        | (s1, Some written) =>
            match electionStateSnapshot with
            | None => (load_fallback s1, written)
            | Some (Some state) => (with_isLoaded true (load_election_state state s1), written)
            | Some None =>
                (with_isLoaded true s1,
                 written ++ saveElectionStateToDatabase initialized state_saved now s1)
            end
        end
    end.

(** * The HTTP interface

    The handlers of [publicRoutes.js] and [adminRoutes.js].  A request is
    its route and the fields of its body; a field that is absent is read as
    the empty string, the two being refused alike.  The ids of a body are
    strings, as [registerVoter] and [createVote] document their parameters
    and as the [BlockchainService] of the front end sends them; a body
    that holds a number, an array or an object in the place of an id is no
    [Request], and nothing is stated of it. *)

Inductive Request :=
| POST_admin_register_voter (voterId : string)
| POST_admin_set_election_status (isOpen : option bool)
| GET_admin_election_status
| GET_admin_registered_voters
| GET_blockchain
| GET_transactions_pending
| POST_vote (voterId candidateId : string)
| POST_mine (minerAddress : option string)
| GET_election_results
| GET_candidates
| GET_voted_users
| GET_blockchain_isvalid.

(** The JSON value of a response; blocks and arrays go out by value. *)
Inductive Body :=
| Message (text : string)
| MiningFailure (text error : string)
| MiningOutcome (text : string) (latestBlock : option BlockDocument)
| ElectionStatus (open : bool)
| VoterIds (ids : list string)
| Blocks (documents : list BlockDocument)
| PendingTransactions (transactions : list Transaction)
| ElectionResults (results : gmap string Result.t)
| Candidates (roster : list Candidate.t)
| ChainValidity (isValid : bool).

Module Response.
Record t := mk { status : N; body : Body }.
End Response.

(** What a handler reads from outside the engine: the clock at the three
    places it is read, and whether the write of a sealed block succeeds. *)
Record Environment := mkEnvironment {
  clock_vote : string;
  clock_block : string;
  clock_reward : string;
  block_saved : bool
}.

Definition loading_try_again : Response.t :=
  Response.mk 503 (Message "Blockchain is loading. Please try again shortly.").

Definition loading : Response.t := Response.mk 503 (Message "Blockchain is loading.").

(** [res.json(value)] answers with status 200. *)
Definition ok (value : Body) : Response.t := Response.mk 200 value.

(** A call of [minePendingTransactions] up to its first [await]: an [async]
    function runs in its caller's turn until it waits, so the proof-of-work
    and the push on the chain are done when the call hands back its promise.
    The result is the state at that point; a call that returns or throws
    before it waits has ended by then. *)
Definition minePendingTransactions_to_await (fuel : nat) (now_block : string)
    (s : Blockchain) : option Blockchain :=
  if Nat.eqb (List.length (pending s)) 0 then Some s
  else
    let '(a, h1) := deep_copy (heap s) (pendingTransactions s) in
    match getLatestBlock s with
    | None => Some (with_heap h1 s)
    | Some latest =>
        let newBlock :=
          new_Block h1 (N.of_nat (List.length (chain s))) now_block (Transactions a)
                    (hash latest) 0 None in
        match mineBlock fuel h1 (difficulty s) newBlock with
        | None => None
        | Some newBlock => Some (with_chain (chain s ++ [newBlock]) (with_heap h1 s))
        end
    end.

(** [POST /admin/register-voter] *)
Definition post_admin_register_voter (voterId : string) (s : Blockchain)
    : Response.t * Blockchain :=
  if negb (isLoaded s) then (loading_try_again, s)
  else
    match registerVoter voterId s with
    | (Return registered, s') =>
        if registered
        then (Response.mk 200 (Message ("Voter '" +:+ voterId +:+ "' registered successfully.")),
              s')
        else (Response.mk 409 (Message ("Voter '" +:+ voterId +:+ "' is already registered.")),
              s')
    | (Throw error, s') => (Response.mk 400 (Message (message error)), s')
    end.

(** [POST /admin/set-election-status] *)
Definition post_admin_set_election_status (isOpen : option bool) (s : Blockchain)
    : Response.t * Blockchain :=
  if negb (isLoaded s) then (loading, s)
  else
    match setElectionStatus isOpen s with
    | (Return _, s') =>
        (Response.mk 200
           (Message ("Election status set to: "
                     +:+ (if default false isOpen then "Open" else "Closed") +:+ ".")),
         s')
    | (Throw error, s') => (Response.mk 400 (Message (message error)), s')
    end.

(** [POST /vote]: the state is the one in which the response is sent.  The
    run of [minePendingTransactions('election-authority-miner')] the handler
    starts is not waited for; what it does after its wait comes later. *)
Definition post_vote (fuel : nat) (env : Environment) (voterId candidateId : string)
    (s : Blockchain) : option (Response.t * Blockchain) :=
  if negb (isLoaded s) then Some (loading_try_again, s)
  else
    match createVote voterId candidateId (clock_vote env) s with
    | (Return _, s1) =>
        let accepted :=
          Response.mk 201
            (Message "Vote accepted. Mining in progress to record it permanently.") in
        if (0 <? List.length (pending s1))%nat
        then match minePendingTransactions_to_await fuel (clock_block env) s1 with
             | None => None
             | Some s2 => Some (accepted, s2)
             end
        else Some (accepted, s1)
    | (Throw error, s1) => Some (Response.mk 400 (Message (message error)), s1)
    end.

(** [POST /mine]: the handler waits for the run; the state is the one the
    run ends in. *)
Definition post_mine (fuel : nat) (env : Environment) (minerAddress : option string)
    (s : Blockchain) : option (Response.t * Blockchain) :=
  if negb (isLoaded s) then Some (loading, s)
  else
    match minePendingTransactions fuel minerAddress (clock_block env) (block_saved env)
            (clock_reward env) s with
    | None => None
    | Some (Return result, s') =>
        Some (ok (MiningOutcome (mine_message result)
                    match result with
                    | NothingToMine => None
                    | Mined latestBlock => Some (block_document (heap s') latestBlock)
                    end),
              s')
    | Some (Throw error, s') =>
        Some (Response.mk 500 (MiningFailure "Error during mining." (message error)), s')
    end.

(** The handlers of the [GET] routes. *)
Definition get (value : Blockchain -> Body) (s : Blockchain) : Response.t * Blockchain :=
  if negb (isLoaded s) then (loading, s) else (ok (value s), s).

Definition get_blockchain (s : Blockchain) : Response.t * Blockchain :=
  if negb (isLoaded s) then (loading_try_again, s)
  else (ok (Blocks (List.map (block_document (heap s)) (chain s))), s).

Definition get_transactions_pending (s : Blockchain) : Response.t * Blockchain :=
  if negb (isLoaded s) then (loading_try_again, s)
  else (ok (PendingTransactions (pending s)), s).

Definition get_blockchain_isvalid (s : Blockchain) : Response.t * Blockchain :=
  if negb (isLoaded s) then (loading, s)
  else let '(isValid, s') := isChainValid s in (ok (ChainValidity isValid), s').

(** The router: each request goes to the handler of its route. *)
Definition handle (fuel : nat) (env : Environment) (request : Request) (s : Blockchain)
    : option (Response.t * Blockchain) :=
  match request with
  | POST_admin_register_voter voterId => Some (post_admin_register_voter voterId s)
  | POST_admin_set_election_status isOpen => Some (post_admin_set_election_status isOpen s)
  | GET_admin_election_status => Some (get (fun s => ElectionStatus (isElectionOpen s)) s)
  | GET_admin_registered_voters =>
      Some (get (fun s => VoterIds (Array_from (registeredVoters s))) s)
  | GET_blockchain => Some (get_blockchain s)
  | GET_transactions_pending => Some (get_transactions_pending s)
  | POST_vote voterId candidateId => post_vote fuel env voterId candidateId s
  | POST_mine minerAddress => post_mine fuel env minerAddress s
  | GET_election_results => Some (get (fun s => ElectionResults (getElectionResults s)) s)
  | GET_candidates => Some (get (fun s => Candidates (getCandidates s)) s)
  | GET_voted_users => Some (get (fun s => VoterIds (Array_from (votedUsers s))) s)
  | GET_blockchain_isvalid => Some (get_blockchain_isvalid s)
  end.

(** * The vote form of the front end

    [VoteFormComponent]: the fields of the component, the callbacks that
    take up the answers of the routes it polls, and [submitVote].  The
    [BlockchainService] sends [getElectionStatus] to
    [GET /admin/election-status], [getRegisteredVoters] to
    [GET /admin/registered-voters], [getVotedUsers] to [GET /voted-users]
    and [castVote] to [POST /vote].  A callback reads the body its route
    sends; given another body, the model leaves the form as it is. *)

Module VoteForm.
Record t := mk {
  voterId : string;
  selectedCandidateId : string;
  message : string;
  isSuccess : bool;
  currentElectionStatus : bool;
  isVoterRegistered : bool;
  hasVotedAlready : bool
}.
End VoteForm.

(** The [HttpClient] hands a response of status 200 to 299 to the first
    callback of [subscribe] and any other to the second. *)
Definition succeeded (response : Response.t) : bool :=
  (200 <=? Response.status response) && (Response.status response <? 300).

(** [array.includes(id)] *)
Definition includes (array : list string) (id : string) : bool :=
  bool_decide (id ∈ array).

(** The callbacks of [fetchElectionStatus()]; a failure is logged. *)
Definition fetchElectionStatus (response : Response.t) (form : VoteForm.t) : VoteForm.t :=
  if succeeded response then
    match Response.body response with
    | ElectionStatus open =>
        VoteForm.mk (VoteForm.voterId form) (VoteForm.selectedCandidateId form)
          (VoteForm.message form) (VoteForm.isSuccess form) open
          (VoteForm.isVoterRegistered form) (VoteForm.hasVotedAlready form)
    | _ => form
    end
  else form.

Definition with_voter_status (registered voted : bool) (form : VoteForm.t) : VoteForm.t :=
  VoteForm.mk (VoteForm.voterId form) (VoteForm.selectedCandidateId form)
    (VoteForm.message form) (VoteForm.isSuccess form) (VoteForm.currentElectionStatus form)
    registered voted.

(** [checkVoterStatus()], with the answers to [getRegisteredVoters()] and,
    when it is sent, to [getVotedUsers()]; failures are logged. *)
Definition checkVoterStatus (registered voted : Response.t) (form : VoteForm.t)
    : VoteForm.t :=
  if negb (truthy (Some (VoteForm.voterId form))) then with_voter_status false false form
  else if succeeded registered then
    match Response.body registered with
    | VoterIds registeredVoters =>
        if includes registeredVoters (VoteForm.voterId form) then
          let form1 := with_voter_status true (VoteForm.hasVotedAlready form) form in
          if succeeded voted then
            match Response.body voted with
            | VoterIds votedUsers =>
                with_voter_status true (includes votedUsers (VoteForm.voterId form)) form1
            | _ => form1
            end
          else form1
        else with_voter_status false false form
    | _ => form
    end
  else form.

Definition with_message (text : string) (success : bool) (form : VoteForm.t) : VoteForm.t :=
  VoteForm.mk (VoteForm.voterId form) (VoteForm.selectedCandidateId form) text success
    (VoteForm.currentElectionStatus form) (VoteForm.isVoterRegistered form)
    (VoteForm.hasVotedAlready form).

(** [submitVote()] up to the call of [castVote]: the form, and the request
    that is sent, if one is. *)
Definition submitVote (form : VoteForm.t) : VoteForm.t * option Request :=
  if negb (truthy (Some (VoteForm.voterId form)))
     || negb (truthy (Some (VoteForm.selectedCandidateId form)))
  then (with_message "Please enter your Voter ID and select a candidate." false form, None)
  else if negb (VoteForm.currentElectionStatus form)
  then (with_message "Election is currently closed. You cannot cast a vote." false form, None)
  else if negb (VoteForm.isVoterRegistered form)
  then (with_message ("Voter ID '" +:+ VoteForm.voterId form
                      +:+ "' is not registered or not eligible to vote.") false form, None)
  else if VoteForm.hasVotedAlready form
  then (with_message ("Voter ID '" +:+ VoteForm.voterId form
                      +:+ "' has already cast a vote.") false form, None)
  else (form, Some (POST_vote (VoteForm.voterId form) (VoteForm.selectedCandidateId form))).

(** The [message] of a JSON body, when it has one. *)
Definition body_message (value : Body) : option string :=
  match value with
  | Message text => Some text
  | MiningFailure text _ => Some text
  | MiningOutcome text _ => Some text
  | _ => None
  end.

(** The callbacks of [castVote(...).subscribe] in [submitVote()], before the
    status of the voter is checked again.  [http_failure] is the text the
    [HttpClient] gives a failed request, shown when the body has no
    message; a response without a message leaves [undefined] in the form,
    read here as the empty string. *)
Definition vote_answered (http_failure : string) (response : Response.t) (form : VoteForm.t)
    : VoteForm.t :=
  if succeeded response then
    VoteForm.mk (VoteForm.voterId form) ""
      (default "" (body_message (Response.body response))) true
      (VoteForm.currentElectionStatus form) (VoteForm.isVoterRegistered form)
      (VoteForm.hasVotedAlready form)
  else
    with_message
      ("Error casting vote: "
       +:+ (if truthy (body_message (Response.body response))
            then default "" (body_message (Response.body response))
            else http_failure))
      false form.

(** * Vocabulary of the properties *)

(** ** Hashes that begin with zeros *)

Fixpoint zeros (n : nat) : string :=
  match n with
  | O => ""
  | S n' => String "0" (zeros n')
  end.

(** [s] begins with [d] characters ["0"]. *)
Definition starts_with_zeros (d : nat) (s : string) : Prop :=
  exists rest, s = zeros d +:+ rest.

(** ** The roster and the checks of the chain *)

(** [candidateId] is the id of a candidate of the roster. *)
Definition known_candidate (s : Blockchain) (candidateId : string) : Prop :=
  exists c, c ∈ candidates s /\ Candidate.id c = candidateId.

(** The two comparisons of [isChainValid] hold at every index from 1 on:
    the stored hash of the block is the recomputed one, and its
    [previousHash] is the stored hash of the block before. *)
Definition checks_pass (h : gmap positive (list Transaction)) (c : list Block) : Prop :=
  forall i currentBlock previousBlock,
    (1 <= i)%nat ->
    c !! i = Some currentBlock -> c !! (i - 1)%nat = Some previousBlock ->
    hash currentBlock = calculateHash h currentBlock /\
    previousHash currentBlock = hash previousBlock.

(** ** The states of a mining run *)

(** The array [JSON.parse(JSON.stringify(this.pendingTransactions))] makes,
    the heap that holds it, and the block built on it. *)
Definition copied_array (s : Blockchain) : loc := fresh (dom (heap s)).

Definition heap_with_copy (s : Blockchain) : gmap positive (list Transaction) :=
  <[copied_array s := pending s]> (heap s).

Definition block_to_mine (now_block : string) (s : Blockchain) (latest : Block) : Block :=
  new_Block (heap_with_copy s) (N.of_nat (List.length (chain s))) now_block
            (Transactions (copied_array s)) (hash latest) 0 None.

(** The state when the sealed block has been pushed on the chain. *)
Definition after_push (s : Blockchain) (newBlock : Block) : Blockchain :=
  with_chain (chain s ++ [newBlock]) (with_heap (heap_with_copy s) s).

(** The new array [this.pendingTransactions = []] makes. *)
Definition new_pool (s : Blockchain) : loc := fresh (dom (heap_with_copy s)).

(** What the run leaves in the pending pool. *)
Definition reward_for (minerAddress : option string) (amount : N) (now_reward : string)
    : list Transaction :=
  if truthy minerAddress
  then [MiningReward (default "" minerAddress) amount now_reward]
  else [].

(** The heap once [after_save] has run on the heap [h]. *)
Definition heap_after_save (minerAddress : option string) (amount : N) (now_reward : string)
    (h : gmap positive (list Transaction)) : gmap positive (list Transaction) :=
  let h2 := <[fresh (dom h) := []]> h in
  if truthy minerAddress
  then push h2 (fresh (dom h)) (MiningReward (default "" minerAddress) amount now_reward)
  else h2.

(** The heap at the end of a run that saved its block. *)
Definition heap_after_mining (minerAddress : option string) (now_reward : string)
    (s : Blockchain) : gmap positive (list Transaction) :=
  heap_after_save minerAddress (miningReward s) now_reward (heap_with_copy s).

(** The state at the end of a run that saved its block. *)
Definition after_mining (minerAddress : option string) (now_reward : string)
    (s : Blockchain) (newBlock : Block) : Blockchain :=
  with_votedUsers (foldl mark_voted (votedUsers s) (pending s))
    (with_pendingTransactions (new_pool s)
       (with_heap (heap_after_mining minerAddress now_reward s) (after_push s newBlock))).

(** Every vote of [ts] names its voter, as every vote [createVote] pushed
    does. *)
Definition voters_named (ts : list Transaction) : Prop :=
  forall voterId candidateId timestamp,
    Vote voterId candidateId timestamp ∈ ts -> voterId <> "".

(** Some number of turns of the loop seals the block [minePendingTransactions]
    builds at [now_block]: the proof-of-work has a solution. *)
Definition solvable (now_block : string) (s : Blockchain) : Prop :=
  exists latest k,
    getLatestBlock s = Some latest /\
    sealed (difficulty s)
      (Nat.iter k (next_nonce (heap_with_copy s)) (block_to_mine now_block s latest)) = true.

(** ** Reachable states and their invariant *)

(** The state once [loadChainAndElectionStateFromDatabase] found no block
    and pushed the genesis block (or fell back to it); the two sets of
    voters and the open flag are those of the stored election state. *)
Definition loaded_genesis (voted registered : gset string) (open : bool) : Blockchain :=
  mkBlockchain (heap new_Blockchain) [createGenesisBlock] (difficulty new_Blockchain)
    (pendingTransactions new_Blockchain) (miningReward new_Blockchain)
    voted registered (candidates new_Blockchain) open true.

(** One call of an operation that writes the state.  A run of
    [minePendingTransactions] waits for the write of its block with the block
    already on the chain; calls made during the wait see the state a failed
    write leaves, and the rest of the run ([after_save]) is taken up in the
    state they leave. *)
Inductive step : Blockchain -> Blockchain -> Prop :=
| step_createVote voterId candidateId now s :
    step s (snd (createVote voterId candidateId now s))
| step_minePendingTransactions fuel minerAddress now_block saved now_reward s r s' :
    minePendingTransactions fuel minerAddress now_block saved now_reward s = Some (r, s') ->
    step s s'
| step_after_save minerAddress now_reward newBlock s :
    newBlock ∈ chain s ->
    step s (after_save minerAddress now_reward newBlock s)
| step_registerVoter voterId s :
    step s (snd (registerVoter voterId s))
| step_setElectionStatus status s :
    step s (snd (setElectionStatus status s)).

Inductive reachable : Blockchain -> Prop :=
| reachable_genesis voted registered open :
    reachable (loaded_genesis voted registered open)
| reachable_step s s' :
    reachable s -> step s s' -> reachable s'.

(** No block shares its array with the pending pool, and every array in use
    is allocated. *)
Definition arrays_apart (s : Blockchain) : Prop :=
  pendingTransactions s ∈ dom (heap s) /\
  forall b a, b ∈ chain s -> data b = Transactions a ->
              a ∈ dom (heap s) /\ a <> pendingTransactions s.

Definition indexed (c : list Block) : Prop :=
  forall i b, c !! i = Some b -> index b = N.of_nat i.

Definition hashes_recompute (h : gmap positive (list Transaction)) (c : list Block) : Prop :=
  forall i b, c !! i = Some b -> hash b = calculateHash h b.

Definition linked (c : list Block) : Prop :=
  forall i currentBlock previousBlock,
    (1 <= i)%nat ->
    c !! i = Some currentBlock -> c !! (i - 1)%nat = Some previousBlock ->
    previousHash currentBlock = hash previousBlock.

(** Every vote of [ts] went through the checks of [createVote] on its ids. *)
Definition admitted (s : Blockchain) (ts : list Transaction) : Prop :=
  forall voterId candidateId timestamp,
    Vote voterId candidateId timestamp ∈ ts ->
    voterId <> "" /\ known_candidate s candidateId.

Record invariant (s : Blockchain) : Prop := {
  inv_arrays : arrays_apart s;
  inv_chain : chain s <> [];
  inv_indexed : indexed (chain s);
  inv_hashes : hashes_recompute (heap s) (chain s);
  inv_linked : linked (chain s);
  inv_pending : admitted s (pending s);
  inv_sealed : forall b, b ∈ chain s -> admitted s (transactions_of (heap s) b)
}.

(** ** Counting votes *)

(** The transactions of all the blocks, in chain order. *)
Definition sealed_transactions (s : Blockchain) : list Transaction :=
  List.flat_map (transactions_of (heap s)) (chain s).

Definition is_vote (t : Transaction) : bool :=
  match t with Vote _ _ _ => true | MiningReward _ _ _ => false end.

(** [t] is a vote for the candidate id [k]. *)
Definition votes_for (k : string) (t : Transaction) : bool :=
  match t with Vote _ candidateId _ => String.eqb candidateId k | MiningReward _ _ _ => false end.

(** [t] is a vote for some candidate of the roster [cs]. *)
Definition votes_for_roster (cs : list Candidate.t) (t : Transaction) : bool :=
  match t with
  | Vote _ candidateId _ => existsb (fun c => String.eqb (Candidate.id c) candidateId) cs
  | MiningReward _ _ _ => false
  end.

Definition count (f : Transaction -> bool) (ts : list Transaction) : N :=
  N.of_nat (List.length (List.filter f ts)).

(** The sum of the vote counts of a result object. *)
Definition total_votes (results : gmap string Result.t) : N :=
  map_fold (fun _ r acc => Result.votes r + acc) 0 results.

(** ** Sample blocks *)

(** The block [minePendingTransactions] builds for the vote of ["v1"] on the
    genesis block, and the block the loop turns it into. *)
Definition sample_heap : gmap positive (list Transaction) :=
  {[ 1%positive := [Vote "v1" "candidateA" "1700000000000"] ]}.

Definition sample_block : Block :=
  new_Block sample_heap 1 "1700000001008" (Transactions 1)
    "cde05f0d512665008d1e9b46b510852107f8847033471dfab3bf7dd2add9c7e2" 0 None.

Definition sample_sealed : Block :=
  mkBlock 1 "1700000001008" (Transactions 1)
    "cde05f0d512665008d1e9b46b510852107f8847033471dfab3bf7dd2add9c7e2" 3
    "00096e0958e343de3c9a7088ae25384afe0bbe67222b7e64ba801d3c69be646e".

(** A block as the database may hand it back: the stored hash begins with
    three zeros, the stored vote was altered after the block was sealed. *)
Definition altered_heap : gmap positive (list Transaction) :=
  {[ 1%positive := [Vote "v1" "candidateB" "1700000000000"] ]}.

Definition altered_block : Block :=
  new_Block altered_heap 1 "1700000001008" (Transactions 1)
    "cde05f0d512665008d1e9b46b510852107f8847033471dfab3bf7dd2add9c7e2" 3
    (Some "00096e0958e343de3c9a7088ae25384afe0bbe67222b7e64ba801d3c69be646e").

(** ** A sample run

    On the genesis-only chain: ["v1"] is registered, the election is opened,
    ["v1"] votes for ["candidateA"], and the pool is mined. *)

Definition sample_genesis : Blockchain := loaded_genesis ∅ ∅ false.

Definition sample_registered : Blockchain := snd (registerVoter "v1" sample_genesis).

Definition sample_open : Blockchain := snd (setElectionStatus (Some true) sample_registered).

Definition sample_voted : Blockchain :=
  snd (createVote "v1" "candidateA" "1700000000000" sample_open).

Definition sample_mining : option (outcome MineResult * Blockchain) :=
  minePendingTransactions 10 (Some "election-authority-miner")
    "1700000001008" true "1700000001500" sample_voted.

Definition sample_mined : Blockchain :=
  match sample_mining with
  | Some (_, s) => s
  | None => sample_voted
  end.

(** The block that run seals; its array is the copy of the pool. *)
Definition sample_first_block : Block :=
  mkBlock 1 "1700000001008" (Transactions 2)
    "cde05f0d512665008d1e9b46b510852107f8847033471dfab3bf7dd2add9c7e2" 3
    "00096e0958e343de3c9a7088ae25384afe0bbe67222b7e64ba801d3c69be646e".

(** The chain of the sample run, the stored vote altered after sealing. *)
Definition sample_altered : Blockchain :=
  with_heap (<[2%positive := [Vote "v1" "candidateB" "1700000000000"]]> (heap sample_mined))
            sample_mined.

(** The sample run again, the write of the block failing; then a second
    run that saves its block. *)
Definition sample_failed_mining : option (outcome MineResult * Blockchain) :=
  minePendingTransactions 10 (Some "election-authority-miner")
    "1700000001008" false "1700000001500" sample_voted.

Definition sample_unsaved : Blockchain :=
  match sample_failed_mining with
  | Some (_, s) => s
  | None => sample_voted
  end.

Definition sample_second_mining : option (outcome MineResult * Blockchain) :=
  minePendingTransactions 10 (Some "election-authority-miner")
    "1700000002343" true "1700000002900" sample_unsaved.

Definition sample_twice : Blockchain :=
  match sample_second_mining with
  | Some (_, s) => s
  | None => sample_unsaved
  end.

Definition sample_second_block : Block :=
  mkBlock 2 "1700000002343" (Transactions 3)
    "00096e0958e343de3c9a7088ae25384afe0bbe67222b7e64ba801d3c69be646e" 4
    "000621f797fd68068b560768a334808cfba6397961f8f596769937d4faf0f2eb".

(** ** A vote on an engine that was not loaded

    On the engine [new Blockchain()] leaves, whose chain is empty: ["v1"] is
    registered, the election is opened and ["v1"] votes for
    ["candidateA"]. *)
Definition sample_unloaded : Blockchain :=
  snd (createVote "v1" "candidateA" "1700000000000"
         (snd (setElectionStatus (Some true) (snd (registerVoter "v1" new_Blockchain))))).

(** ** Sample chains as the database may hold them *)

(** The genesis block followed by the sealed sample block, and the same
    chain after the text of the genesis block was edited in place. *)
Definition sample_chain_state : Blockchain :=
  with_chain [createGenesisBlock; sample_sealed] (with_heap sample_heap new_Blockchain).

Definition edited_genesis : Block :=
  mkBlock 0 "2023-01-01" (Text "Genesis Block (Election Restart)") "0" 0
          (hash createGenesisBlock).

Definition edited_genesis_state : Blockchain :=
  with_chain [edited_genesis; sample_sealed] sample_chain_state.

(** A chain as the database may hold it: the second block is sealed and
    linked to the genesis block, and its vote names no candidate of the
    roster. *)
Definition stray_vote_block : Block :=
  mkBlock 1 "1700000003554" (Transactions 2)
    "cde05f0d512665008d1e9b46b510852107f8847033471dfab3bf7dd2add9c7e2" 2
    "000866753f663ed06836b159ecc3f659cba8dc74c3e7fcfe9fe7da6a38e2f861".

Definition stray_vote_state : Blockchain :=
  mkBlockchain
    (<[2%positive := [Vote "v9" "candidateZ" "1700000003000"]]> (heap new_Blockchain))
    [createGenesisBlock; stray_vote_block] 3 (pendingTransactions new_Blockchain) 1
    ∅ ∅ seeded_candidates false true.

(** ** Lists of rising keys *)

(** The keys of [l] rise strictly from each element to all the later ones. *)
Fixpoint rising {A : Type} (key : A -> N) (l : list A) : Prop :=
  match l with
  | [] => True
  | x :: l' => Forall (fun y => key x < key y) l' /\ rising key l'
  end.

(** ** Two votes on the sample run

    ["v1"] and ["v2"] are registered and the election is open; the vote
    route takes the vote of ["v1"] and then, before the run of the first
    request has gone on after its wait, the vote of ["v2"]. *)

Definition sample_two_voters : Blockchain := snd (registerVoter "v2" sample_open).

Definition sample_first_request : Environment :=
  mkEnvironment "1700000000000" "1700000001008" "1700000001500" true.

Definition sample_second_request : Environment :=
  mkEnvironment "1700000000500" "1700000001828" "1700000002300" true.

Definition sample_in_flight : Blockchain :=
  match post_vote 10 sample_first_request "v1" "candidateA" sample_two_voters with
  | Some (_, s) => s
  | None => sample_two_voters
  end.

Definition sample_in_flight_twice : Blockchain :=
  match post_vote 10 sample_second_request "v2" "candidateB" sample_in_flight with
  | Some (_, s) => s
  | None => sample_in_flight
  end.

(** * Properties *)

(** ** Strings of zeros *)

Lemma target_zeros d : target d = zeros d.
Proof.
  unfold target. induction d as [|d IH]; [reflexivity|].
  change (List.repeat "" (S (S d))) with ("" :: List.repeat "" (S d)).
  change (String.concat "0" ("" :: List.repeat "" (S d)))
    with ("" +:+ "0" +:+ String.concat "0" (List.repeat "" (S d))).
  rewrite IH. reflexivity.
Qed.

Lemma substring_zeros d s :
  String.substring 0 d s = zeros d -> starts_with_zeros d s.
Proof.
  revert s. induction d as [|d IH]; intros s H.
  - exists s. reflexivity.
  - destruct s as [|c s]; simpl in H; [discriminate|].
    injection H as Hc Hs. destruct (IH _ Hs) as [rest Hrest].
    exists rest. subst c s. reflexivity.
Qed.

Lemma zeros_substring d rest : String.substring 0 d (zeros d +:+ rest) = zeros d.
Proof.
  induction d as [|d IH]; simpl.
  - destruct rest; reflexivity.
  - rewrite IH. reflexivity.
Qed.

Lemma sealed_starts_with_zeros d b :
  sealed d b = true <-> starts_with_zeros d (hash b).
Proof.
  unfold sealed. rewrite String.eqb_eq, target_zeros. split.
  - apply substring_zeros.
  - intros [rest ->]. apply zeros_substring.
Qed.

(** ** The hash reads the heap only at the block's own array *)

Lemma JSON_stringify_ext h h' d :
  (forall a, d = Transactions a -> h' !! a = h !! a) ->
  JSON_stringify h' d = JSON_stringify h d.
Proof.
  intros H. destruct d as [t|a]; simpl; [reflexivity|].
  unfold elements_at. rewrite (H a eq_refl). reflexivity.
Qed.

Lemma calculateHash_ext h h' b :
  (forall a, data b = Transactions a -> h' !! a = h !! a) ->
  calculateHash h' b = calculateHash h b.
Proof.
  intros H. unfold calculateHash. rewrite (JSON_stringify_ext h h' (data b) H).
  reflexivity.
Qed.

Lemma transactions_of_ext h h' b :
  (forall a, data b = Transactions a -> h' !! a = h !! a) ->
  transactions_of h' b = transactions_of h b.
Proof.
  intros H. unfold transactions_of. destruct (data b) as [t|a]; [reflexivity|].
  unfold elements_at. rewrite (H a eq_refl). reflexivity.
Qed.

(** The hash does not read the stored hash. *)
Lemma calculateHash_hash_irrelevant h i t d p n x y :
  calculateHash h (mkBlock i t d p n x) = calculateHash h (mkBlock i t d p n y).
Proof. reflexivity. Qed.

(** ** The proof-of-work loop *)

Lemma next_nonce_consistent h b : hash (next_nonce h b) = calculateHash h (next_nonce h b).
Proof. reflexivity. Qed.

Lemma next_nonce_fields h b :
  index (next_nonce h b) = index b /\ timestamp (next_nonce h b) = timestamp b /\
  data (next_nonce h b) = data b /\ previousHash (next_nonce h b) = previousHash b /\
  nonce (next_nonce h b) = nonce b + 1.
Proof. repeat split. Qed.

(** A run that returns made [k] turns, the first that seal the block. *)
Lemma mineBlock_turns fuel h d b b' :
  mineBlock fuel h d b = Some b' ->
  exists k, (k <= fuel)%nat /\ b' = Nat.iter k (next_nonce h) b /\ sealed d b' = true /\
            forall j, (j < k)%nat -> sealed d (Nat.iter j (next_nonce h) b) = false.
Proof.
  revert b. induction fuel as [|fuel IH]; intros b H; simpl in H.
  - destruct (sealed d b) eqn:E; [|discriminate]. injection H as <-.
    exists O. repeat split; auto. intros j Hj. lia.
  - destruct (sealed d b) eqn:E.
    + injection H as <-. exists O. repeat split; auto; [lia|]. intros j Hj. lia.
    + destruct (IH _ H) as (k & Hk & Hb & Hs & Hmin).
      exists (S k). rewrite Nat.iter_succ_r. repeat split; auto; [lia|].
      intros [|j] Hj; [exact E|]. rewrite Nat.iter_succ_r. apply Hmin. lia.
Qed.

(** When some number of turns seals the block, that much fuel is enough. *)
Lemma mineBlock_enough k h d b :
  sealed d (Nat.iter k (next_nonce h) b) = true ->
  exists b', mineBlock k h d b = Some b'.
Proof.
  revert b. induction k as [|k IH]; intros b H; simpl mineBlock.
  - simpl in H. rewrite H. eauto.
  - destruct (sealed d b); [eauto|]. apply IH. rewrite <- Nat.iter_succ_r. exact H.
Qed.

Lemma mineBlock_more_fuel fuel fuel' h d b b' :
  mineBlock fuel h d b = Some b' -> (fuel <= fuel')%nat ->
  mineBlock fuel' h d b = Some b'.
Proof.
  revert b fuel'. induction fuel as [|fuel IH]; intros b fuel' H Hle; simpl in H.
  - destruct (sealed d b) eqn:E; [|discriminate].
    destruct fuel'; simpl; rewrite E; exact H.
  - destruct fuel' as [|fuel']; [lia|]. simpl.
    destruct (sealed d b); [exact H|]. apply IH; [exact H|lia].
Qed.

(** The block a run returns does not depend on the fuel. *)
Lemma mineBlock_deterministic fuel fuel' h d b b1 b2 :
  mineBlock fuel h d b = Some b1 -> mineBlock fuel' h d b = Some b2 -> b1 = b2.
Proof.
  intros H1 H2.
  pose proof (mineBlock_more_fuel fuel (Nat.max fuel fuel') h d b b1 H1 (Nat.le_max_l _ _)) as E1.
  pose proof (mineBlock_more_fuel fuel' (Nat.max fuel fuel') h d b b2 H2 (Nat.le_max_r _ _)) as E2.
  congruence.
Qed.

Lemma iter_next_nonce_fields k h b :
  let b' := Nat.iter k (next_nonce h) b in
  index b' = index b /\ timestamp b' = timestamp b /\ data b' = data b /\
  previousHash b' = previousHash b /\ nonce b' = nonce b + N.of_nat k.
Proof.
  induction k as [|k IH]; simpl.
  - repeat split. lia.
  - simpl in IH. destruct IH as (Hi & Ht & Hd & Hp & Hn). repeat split; auto.
    rewrite Hn. lia.
Qed.

Lemma iter_next_nonce_consistent k h b :
  hash b = calculateHash h b ->
  hash (Nat.iter k (next_nonce h) b) = calculateHash h (Nat.iter k (next_nonce h) b).
Proof. destruct k; [auto|reflexivity]. Qed.

(** A block that comes out of [mineBlock] is sealed, keeps every field but
    [nonce] and [hash], and is either the block that went in or carries the
    hash of its own fields. *)
Lemma mineBlock_result fuel h d b b' :
  mineBlock fuel h d b = Some b' ->
  sealed d b' = true /\
  index b' = index b /\ timestamp b' = timestamp b /\ data b' = data b /\
  previousHash b' = previousHash b /\ nonce b <= nonce b' /\
  (b' = b \/ hash b' = calculateHash h b').
Proof.
  intros H. destruct (mineBlock_turns _ _ _ _ _ H) as (k & _ & -> & Hs & _).
  destruct (iter_next_nonce_fields k h b) as (Hi & Ht & Hd & Hp & Hn).
  repeat split; auto; [lia|]. destruct k; [left|right]; reflexivity.
Qed.

(** C3, as stated, fails: on a block whose stored hash already begins with
    [difficulty] zeros the loop of [mineBlock] makes no turn, so the call
    ends with the stored hash, whatever the fields hash to. *)
Lemma mineBlock_keeps_stored_hash :
  mineBlock 0 altered_heap 3 altered_block = Some altered_block /\
  mineBlock 100 altered_heap 3 altered_block = Some altered_block /\
  hash altered_block <> calculateHash altered_heap altered_block.
Proof.
  split; [|split].
  - vm_compute. reflexivity.
  - vm_compute. reflexivity.
  - intros H. vm_compute in H. discriminate H.
Qed.

(** C3 (amended): for every block and every difficulty, when
    [mineBlock(difficulty)] returns, the hash begins with [difficulty] zeros,
    the fields other than [nonce] and [hash] are those of the block that went
    in, and the hash is the one recomputed from these fields and the final
    nonce provided the stored hash was the recomputed one on entry (as
    [new Block] without a hash argument leaves it) or the loop made a turn. *)
Theorem mineBlock_seals fuel h d b b' :
  mineBlock fuel h d b = Some b' ->
  starts_with_zeros d (hash b') /\
  index b' = index b /\ timestamp b' = timestamp b /\ data b' = data b /\
  previousHash b' = previousHash b /\
  (hash b = calculateHash h b \/ b' <> b -> hash b' = calculateHash h b').
Proof.
  intros H. destruct (mineBlock_result _ _ _ _ _ H) as (Hs & Hi & Ht & Hd & Hp & _ & Hh).
  repeat split; auto.
  - apply sealed_starts_with_zeros. exact Hs.
  - intros [Hc|Hne]; destruct Hh as [->|Hh]; auto. contradiction.
Qed.

(** C3 on the sample block: three turns of the loop seal it. *)
Lemma mineBlock_seals_sample :
  mineBlock 10 sample_heap 3 sample_block = Some sample_sealed /\
  starts_with_zeros 3 (hash sample_sealed) /\
  hash sample_sealed = calculateHash sample_heap sample_sealed.
Proof.
  assert (H : mineBlock 10 sample_heap 3 sample_block = Some sample_sealed)
    by (vm_compute; reflexivity).
  destruct (mineBlock_seals 10 sample_heap 3 sample_block sample_sealed H)
    as (Hz & _ & _ & _ & _ & Hh).
  split; [exact H|]. split; [exact Hz|]. apply Hh. left. vm_compute. reflexivity.
Defined.

(** ** Admission of a vote: the order of the checks *)

Lemma truthy_Some s : truthy (Some s) = true <-> s <> "".
Proof.
  simpl. destruct (String.eqb_spec s ""); simpl; split; intros; congruence.
Qed.

Lemma truthy_Some_false s : truthy (Some s) = false <-> s = "".
Proof.
  simpl. destruct (String.eqb_spec s ""); simpl; split; intros; congruence.
Qed.

Lemma some_candidate_known s candidateId :
  existsb (fun c => String.eqb (Candidate.id c) candidateId) (candidates s) = true <->
  known_candidate s candidateId.
Proof.
  rewrite existsb_exists. unfold known_candidate.
  split; intros (c & Hc & He); exists c.
  - split; [apply list_elem_of_In; exact Hc|]. apply String.eqb_eq. exact He.
  - split; [apply list_elem_of_In; exact Hc|]. apply String.eqb_eq. exact He.
Qed.

Lemma some_candidate_unknown s candidateId :
  existsb (fun c => String.eqb (Candidate.id c) candidateId) (candidates s) = false <->
  ~ known_candidate s candidateId.
Proof.
  rewrite <- some_candidate_known.
  destruct (existsb _ _); split; intros; congruence.
Qed.

(** The cases of [createVote], the guards read as propositions. *)
Ltac createVote_cases voterId candidateId s :=
  unfold createVote;
  destruct (isElectionOpen s) eqn:Hopen; cbv [negb orb fst snd];
  [ destruct (truthy (Some voterId)) eqn:Hv; cbv [negb orb fst snd];
    [ destruct (truthy (Some candidateId)) eqn:Hc; cbv [negb orb fst snd];
      [ destruct (existsb (fun c => String.eqb (Candidate.id c) candidateId) (candidates s))
          eqn:Hk; cbv [negb orb fst snd];
        [ destruct (bool_decide (voterId ∈ registeredVoters s)) eqn:Hr; cbv [negb orb fst snd];
          [ destruct (bool_decide (voterId ∈ votedUsers s)) eqn:Hd; cbv [negb orb fst snd]
          | ]
        | ]
      | ]
    | ]
  | ];
  repeat match goal with
    | H : truthy (Some _) = true |- _ => apply truthy_Some in H
    | H : truthy (Some _) = false |- _ => apply truthy_Some_false in H
    | H : existsb _ _ = true |- _ => apply some_candidate_known in H
    | H : existsb _ _ = false |- _ => apply some_candidate_unknown in H
    | H : bool_decide _ = true |- _ => apply bool_decide_eq_true in H
    | H : bool_decide _ = false |- _ => apply bool_decide_eq_false in H
    end.

(** C1: [createVote] applies its five checks in a fixed order and the first
    that fails decides the error: election closed, then a missing id, then
    an unknown candidate, then an unregistered voter, then a voter who has
    voted; when all pass the call returns [true].  A closed election is
    reported whatever the ids and the sets are. *)
Theorem createVote_checks_in_order voterId candidateId now s :
  let result := fst (createVote voterId candidateId now s) in
  (isElectionOpen s = false -> result = Throw ElectionClosed) /\
  (isElectionOpen s = true -> voterId = "" \/ candidateId = "" ->
   result = Throw (InvalidInput "Invalid vote: voterId and candidateId are required.")) /\
  (isElectionOpen s = true -> voterId <> "" -> candidateId <> "" ->
   ~ known_candidate s candidateId ->
   result = Throw (UnknownCandidate candidateId)) /\
  (isElectionOpen s = true -> voterId <> "" -> candidateId <> "" ->
   known_candidate s candidateId -> voterId ∉ registeredVoters s ->
   result = Throw (VoterNotRegistered voterId)) /\
  (isElectionOpen s = true -> voterId <> "" -> candidateId <> "" ->
   known_candidate s candidateId -> voterId ∈ registeredVoters s ->
   voterId ∈ votedUsers s ->
   result = Throw (DuplicateVote voterId)) /\
  (isElectionOpen s = true -> voterId <> "" -> candidateId <> "" ->
   known_candidate s candidateId -> voterId ∈ registeredVoters s ->
   voterId ∉ votedUsers s ->
   result = Return true).
Proof.
  cbv zeta. createVote_cases voterId candidateId s;
    repeat split; intros; try reflexivity; try congruence; try tauto.
Qed.

(** ** Writes on the heap *)

Lemma elements_at_push h a t : elements_at (push h a t) a = elements_at h a ++ [t].
Proof. unfold push, elements_at at 1. rewrite lookup_insert_eq. reflexivity. Qed.

Lemma lookup_push_ne h a a' t : a' <> a -> push h a t !! a' = h !! a'.
Proof. intros H. unfold push. apply lookup_insert_ne. congruence. Qed.

(** ** Registration of a voter *)

(** C8: [registerVoter] throws on an empty id and on an id already
    registered returns [false]; both leave the state as it was.  On a new id
    it returns [true] and adds the id to [registeredVoters], writing no other
    field. *)
Theorem registerVoter_outcomes voterId s :
  let result := fst (registerVoter voterId s) in
  let s' := snd (registerVoter voterId s) in
  (voterId = "" ->
   result = Throw (InvalidInput "Voter ID cannot be empty.") /\ s' = s) /\
  (voterId <> "" -> voterId ∈ registeredVoters s ->
   result = Return false /\ s' = s) /\
  (voterId <> "" -> voterId ∉ registeredVoters s ->
   result = Return true /\
   registeredVoters s' = {[voterId]} ∪ registeredVoters s /\
   s' = with_registeredVoters ({[voterId]} ∪ registeredVoters s) s).
Proof.
  cbv zeta. unfold registerVoter.
  destruct (truthy (Some voterId)) eqn:Hv; simpl negb; cbv iota.
  - apply truthy_Some in Hv.
    destruct (bool_decide (voterId ∈ registeredVoters s)) eqn:Hr; cbv iota.
    + apply bool_decide_eq_true in Hr. repeat split; intros; try reflexivity; tauto.
    + apply bool_decide_eq_false in Hr. repeat split; intros; try reflexivity; tauto.
  - apply truthy_Some_false in Hv. repeat split; intros; try reflexivity; tauto.
Qed.

(** ** Verification of the chain *)

Lemma checks_pass_succ h c :
  checks_pass h c <->
  forall j currentBlock previousBlock,
    c !! S j = Some currentBlock -> c !! j = Some previousBlock ->
    hash currentBlock = calculateHash h currentBlock /\
    previousHash currentBlock = hash previousBlock.
Proof.
  unfold checks_pass. split.
  - intros H j cur prev Hcur Hprev. apply (H (S j) cur prev); [lia|exact Hcur|].
    replace (S j - 1)%nat with j by lia. exact Hprev.
  - intros H i cur prev Hi Hcur Hprev. destruct i as [|j]; [lia|].
    replace (S j - 1)%nat with j in Hprev by lia. apply (H j cur prev Hcur Hprev).
Qed.

Lemma checks_pass_cons h previousBlock currentBlock rest :
  checks_pass h (previousBlock :: currentBlock :: rest) <->
  hash currentBlock = calculateHash h currentBlock /\
  previousHash currentBlock = hash previousBlock /\
  checks_pass h (currentBlock :: rest).
Proof.
  rewrite !checks_pass_succ. split.
  - intros H. destruct (H O currentBlock previousBlock eq_refl eq_refl) as [H1 H2].
    split; [exact H1|]. split; [exact H2|].
    intros j cur prev Hcur Hprev. apply (H (S j) cur prev Hcur Hprev).
  - intros (H1 & H2 & H) j cur prev Hcur Hprev. destruct j as [|j].
    + simpl in Hcur, Hprev. injection Hcur as <-. injection Hprev as <-. auto.
    + apply (H j cur prev Hcur Hprev).
Qed.

Lemma checks_pass_single h b : checks_pass h [b].
Proof.
  intros i cur prev Hi Hcur _. destruct i as [|i]; [lia|]. discriminate Hcur.
Qed.

Lemma valid_from_checks h previousBlock rest :
  valid_from h previousBlock rest = true <-> checks_pass h (previousBlock :: rest).
Proof.
  revert previousBlock. induction rest as [|currentBlock rest IH]; intros previousBlock.
  - simpl. split; [intros _; apply checks_pass_single|reflexivity].
  - rewrite checks_pass_cons, <- IH. simpl.
    destruct (String.eqb_spec (hash currentBlock) (calculateHash h currentBlock)) as [E1|E1];
      simpl; [|split; [discriminate|tauto]].
    destruct (String.eqb_spec (previousHash currentBlock) (hash previousBlock)) as [E2|E2];
      simpl; [|split; [discriminate|tauto]].
    tauto.
Qed.

(** The loop reads of [previousBlock] its stored hash only. *)
Lemma valid_from_previous_hash h b b' rest :
  hash b' = hash b -> valid_from h b' rest = valid_from h b rest.
Proof. intros H. destruct rest as [|c rest]; simpl; [reflexivity|]. rewrite H. reflexivity. Qed.

(** C5: [isChainValid] returns [false] on an empty chain and [true] on a
    chain of one block, the genesis-only chain among them; on a chain that
    is not empty it returns [true] exactly when at every index from 1 on the
    stored hash is the recomputed one and [previousHash] is the stored hash
    of the block before.  The state after the call is the state before. *)
Theorem isChainValid_spec s :
  snd (isChainValid s) = s /\
  (chain s = [] -> fst (isChainValid s) = false) /\
  (forall genesis, chain s = [genesis] -> fst (isChainValid s) = true) /\
  (chain s = [createGenesisBlock] ->
   index createGenesisBlock = 0 /\ previousHash createGenesisBlock = "0" /\
   fst (isChainValid s) = true) /\
  (chain s <> [] ->
   (fst (isChainValid s) = true <-> checks_pass (heap s) (chain s))).
Proof.
  unfold isChainValid. destruct (chain s) as [|genesis rest] eqn:E; simpl.
  - repeat split; intros; congruence.
  - split; [reflexivity|]. split; [discriminate|]. split; [|split].
    + intros g Hg. injection Hg as -> ->. reflexivity.
    + intros Hg. injection Hg as -> ->. repeat split.
    + intros _. apply valid_from_checks.
Qed.

(** C9: [isChainValid] never recomputes the hash of the block at index 0.
    When the comparisons hold from index 1 on the chain is reported valid,
    whatever the fields of the first block hash to; and replacing the fields
    of the first block while keeping its stored hash leaves the verdict
    unchanged. *)
Theorem isChainValid_skips_genesis s genesis rest :
  chain s = genesis :: rest ->
  (checks_pass (heap s) (genesis :: rest) -> fst (isChainValid s) = true) /\
  (forall i t d p n,
     fst (isChainValid (with_chain (mkBlock i t d p n (hash genesis) :: rest) s))
     = fst (isChainValid s)).
Proof.
  intros E. unfold isChainValid. rewrite E. simpl. split.
  - apply valid_from_checks.
  - intros i t d p n. apply valid_from_previous_hash. reflexivity.
Qed.

(** C9 on the edited genesis block: its stored hash is not the recomputed
    one and the chain is reported valid. *)
Lemma isChainValid_misses_edited_genesis :
  hash edited_genesis <> calculateHash (heap edited_genesis_state) edited_genesis /\
  fst (isChainValid edited_genesis_state) = true.
Proof.
  split.
  - intros H. vm_compute in H. discriminate H.
  - destruct (isChainValid_skips_genesis sample_chain_state createGenesisBlock
                [sample_sealed] eq_refl) as [_ H].
    unfold edited_genesis_state, edited_genesis. rewrite H.
    vm_compute. reflexivity.
Defined.

(** ** Mining: the states a call can end in *)

Lemma copied_array_fresh s : copied_array s ∉ dom (heap s).
Proof. exact (is_fresh (dom (heap s))). Qed.

Lemma new_pool_fresh s : new_pool s ∉ dom (heap_with_copy s).
Proof. exact (is_fresh (dom (heap_with_copy s))). Qed.

Lemma new_pool_not_copy s : new_pool s <> copied_array s.
Proof.
  intros E. apply (new_pool_fresh s). rewrite E. unfold heap_with_copy.
  rewrite dom_insert_L. set_solver.
Qed.

Lemma new_pool_not_old s a : a ∈ dom (heap s) -> new_pool s <> a.
Proof.
  intros Ha E. apply (new_pool_fresh s). rewrite E. unfold heap_with_copy.
  rewrite dom_insert_L. set_solver.
Qed.

Lemma copied_array_not_old s a : a ∈ dom (heap s) -> copied_array s <> a.
Proof. intros Ha E. apply (copied_array_fresh s). rewrite E. exact Ha. Qed.

Lemma pending_dom s : pending s <> [] -> pendingTransactions s ∈ dom (heap s).
Proof.
  unfold pending, elements_at. intros H. apply elem_of_dom.
  destruct (heap s !! pendingTransactions s); [eauto|]. simpl in H. congruence.
Qed.

Lemma heap_with_copy_old s a : a ∈ dom (heap s) -> heap_with_copy s !! a = heap s !! a.
Proof.
  intros Ha. unfold heap_with_copy. apply lookup_insert_ne.
  apply copied_array_not_old. exact Ha.
Qed.

Lemma heap_with_copy_copy s : heap_with_copy s !! copied_array s = Some (pending s).
Proof. unfold heap_with_copy. apply lookup_insert_eq. Qed.

Lemma dom_heap_with_copy s : dom (heap_with_copy s) = {[copied_array s]} ∪ dom (heap s).
Proof. unfold heap_with_copy. apply dom_insert_L. Qed.

(** Reads the fields of a state built by the [with_] functions. *)
Ltac read_fields :=
  unfold with_heap, with_chain, with_pendingTransactions, with_votedUsers,
         with_registeredVoters, with_isElectionOpen;
  cbn [heap chain difficulty pendingTransactions miningReward votedUsers
       registeredVoters candidates isElectionOpen isLoaded].

Lemma heap_after_save_pool minerAddress amount now_reward h :
  heap_after_save minerAddress amount now_reward h !! fresh (dom h)
  = Some (reward_for minerAddress amount now_reward).
Proof.
  unfold heap_after_save, reward_for. destruct (truthy minerAddress).
  - unfold push. rewrite lookup_insert_eq. unfold elements_at.
    rewrite lookup_insert_eq. reflexivity.
  - apply lookup_insert_eq.
Qed.

Lemma heap_after_save_other minerAddress amount now_reward h a :
  a <> fresh (dom h) ->
  heap_after_save minerAddress amount now_reward h !! a = h !! a.
Proof.
  intros Ha. unfold heap_after_save. destruct (truthy minerAddress).
  - rewrite lookup_push_ne by exact Ha. apply lookup_insert_ne. congruence.
  - apply lookup_insert_ne. congruence.
Qed.

Lemma heap_after_save_old minerAddress amount now_reward h a :
  a ∈ dom h -> heap_after_save minerAddress amount now_reward h !! a = h !! a.
Proof.
  intros Ha. apply heap_after_save_other. intros ->.
  exact (is_fresh (dom h) Ha).
Qed.

Lemma heap_after_mining_pool minerAddress now_reward s :
  heap_after_mining minerAddress now_reward s !! new_pool s
  = Some (reward_for minerAddress (miningReward s) now_reward).
Proof. apply heap_after_save_pool. Qed.

Lemma heap_after_mining_other minerAddress now_reward s a :
  a <> new_pool s ->
  heap_after_mining minerAddress now_reward s !! a = heap_with_copy s !! a.
Proof. apply heap_after_save_other. Qed.

Lemma heap_after_mining_copy minerAddress now_reward s :
  heap_after_mining minerAddress now_reward s !! copied_array s = Some (pending s).
Proof.
  rewrite heap_after_mining_other.
  - apply heap_with_copy_copy.
  - intros E. apply (new_pool_not_copy s). congruence.
Qed.

Lemma heap_after_mining_old minerAddress now_reward s a :
  a ∈ dom (heap s) ->
  heap_after_mining minerAddress now_reward s !! a = heap s !! a.
Proof.
  intros Ha. rewrite heap_after_mining_other.
  - apply heap_with_copy_old. exact Ha.
  - intros E. apply (new_pool_not_old s a Ha). congruence.
Qed.

(** [after_save], the voters read in the heap it leaves. *)
Lemma after_save_unfold minerAddress now_reward newBlock s :
  after_save minerAddress now_reward newBlock s
  = let h3 := heap_after_save minerAddress (miningReward s) now_reward (heap s) in
    with_votedUsers
      (if Array_isArray (data newBlock)
       then foldl mark_voted (votedUsers s) (transactions_of h3 newBlock)
       else votedUsers s)
      (with_pendingTransactions (fresh (dom (heap s))) (with_heap h3 s)).
Proof.
  unfold after_save, heap_after_save, alloc. cbv zeta beta iota.
  destruct (truthy minerAddress); reflexivity.
Qed.

(** The ways a call of [minePendingTransactions] returns. *)
Lemma minePendingTransactions_cases fuel minerAddress now_block saved now_reward s r s' :
  minePendingTransactions fuel minerAddress now_block saved now_reward s = Some (r, s') ->
  (pending s = [] /\ r = Return NothingToMine /\ s' = s) \/
  (pending s <> [] /\ chain s = [] /\ (exists text, r = Throw (TypeError text)) /\
   s' = with_heap (heap_with_copy s) s) \/
  (pending s <> [] /\
   exists latest newBlock,
     getLatestBlock s = Some latest /\
     mineBlock fuel (heap_with_copy s) (difficulty s) (block_to_mine now_block s latest)
     = Some newBlock /\
     data newBlock = Transactions (copied_array s) /\
     ((saved = false /\
       r = Throw (PersistenceUnavailable "Failed to save block to database.") /\
       s' = after_push s newBlock) \/
      (saved = true /\ r = Return (Mined newBlock) /\
       s' = after_mining minerAddress now_reward s newBlock))).
Proof.
  unfold minePendingTransactions.
  destruct (pending s) as [|t ts] eqn:Ep; simpl Nat.eqb; cbv iota.
  { intros H. injection H as <- <-. left. auto. }
  change (deep_copy (heap s) (pendingTransactions s))
    with (copied_array s, <[copied_array s := pending s]> (heap s)).
  cbv beta iota. fold (heap_with_copy s).
  destruct (getLatestBlock s) as [latest|] eqn:El.
  - fold (block_to_mine now_block s latest).
    destruct (mineBlock fuel (heap_with_copy s) (difficulty s) (block_to_mine now_block s latest))
      as [newBlock|] eqn:Em; [|discriminate].
    destruct (mineBlock_result _ _ _ _ _ Em) as (_ & _ & _ & Hd & _).
    change (data (block_to_mine now_block s latest)) with (Transactions (copied_array s)) in Hd.
    intros H. right. right. split; [discriminate|].
    exists latest, newBlock. split; [reflexivity|]. split; [exact Em|]. split; [exact Hd|].
    destruct saved; simpl negb in H; cbv iota in H.
    + right. split; [reflexivity|]. injection H as <- <-. split; [reflexivity|].
      fold (after_push s newBlock). rewrite after_save_unfold. cbv zeta.
      unfold after_push at 1 2 3 4. read_fields. fold (after_push s newBlock).
      fold (heap_after_mining minerAddress now_reward s). fold (new_pool s).
      rewrite Hd. simpl Array_isArray. cbv iota.
      unfold after_mining. read_fields. f_equal.
      unfold transactions_of. rewrite Hd. unfold elements_at.
      rewrite heap_after_mining_copy. reflexivity.
    + left. split; [reflexivity|]. injection H as <- <-. split; reflexivity.
  - intros H. injection H as <- <-. right. left.
    split; [discriminate|]. split; [|split; [eauto|reflexivity]].
    unfold getLatestBlock in El. destruct (chain s) as [|b c]; [reflexivity|].
    exfalso. revert El. clear. revert b. induction c as [|b' c IH]; intros b; simpl.
    + discriminate.
    + apply IH.
Qed.

(** A call whose proof-of-work returns goes through to its end. *)
Lemma minePendingTransactions_runs fuel minerAddress now_block saved now_reward s latest newBlock :
  pending s <> [] ->
  getLatestBlock s = Some latest ->
  mineBlock fuel (heap_with_copy s) (difficulty s) (block_to_mine now_block s latest)
  = Some newBlock ->
  minePendingTransactions fuel minerAddress now_block saved now_reward s
  = Some (if saved
          then (Return (Mined newBlock), after_mining minerAddress now_reward s newBlock)
          else (Throw (PersistenceUnavailable "Failed to save block to database."),
                after_push s newBlock)).
Proof.
  intros Hp Hl Hm.
  destruct (minePendingTransactions fuel minerAddress now_block saved now_reward s)
    as [[r s']|] eqn:E.
  - destruct (minePendingTransactions_cases _ _ _ _ _ _ _ _ E)
      as [(Hp' & _)|[(_ & Hc & _)|(_ & latest' & nb & Hl' & Hm' & _ & H)]].
    + contradiction.
    + unfold getLatestBlock in Hl. rewrite Hc in Hl. discriminate Hl.
    + assert (latest' = latest) as -> by congruence.
      assert (nb = newBlock) as -> by congruence.
      destruct H as [(-> & -> & ->)|(-> & -> & ->)]; reflexivity.
  - exfalso. revert E. unfold minePendingTransactions.
    destruct (pending s) as [|t ts] eqn:Ep; [contradiction|]. simpl Nat.eqb. cbv iota.
    change (deep_copy (heap s) (pendingTransactions s))
      with (copied_array s, <[copied_array s := pending s]> (heap s)).
    cbv beta iota. fold (heap_with_copy s). rewrite Hl.
    fold (block_to_mine now_block s latest). rewrite Hm.
    destruct saved; simpl negb; cbv iota; discriminate.
Qed.

(** ** Reachable states and what holds in them *)

Lemma admitted_candidates s s' ts :
  candidates s' = candidates s -> admitted s ts -> admitted s' ts.
Proof.
  intros Hc H v c t Hin. destruct (H v c t Hin) as [Hv Hk]. split; [exact Hv|].
  unfold known_candidate in *. rewrite Hc. exact Hk.
Qed.

Lemma new_Block_consistent h i t d p n :
  hash (new_Block h i t d p n None) = calculateHash h (new_Block h i t d p n None).
Proof. reflexivity. Qed.

Lemma invariant_genesis voted registered open : invariant (loaded_genesis voted registered open).
Proof.
  split; simpl.
  - split.
    + unfold new_Blockchain, alloc. simpl. rewrite dom_insert_L. set_solver.
    + intros b a Hb Hd. apply list_elem_of_singleton in Hb. subst b. discriminate Hd.
  - discriminate.
  - intros [|i] b Hb; simpl in Hb; [|discriminate]. injection Hb as <-. reflexivity.
  - intros [|i] b Hb; simpl in Hb; [|discriminate]. injection Hb as <-.
    transitivity (calculateHash ∅ createGenesisBlock); [reflexivity|].
    apply calculateHash_ext. intros a Ha. discriminate Ha.
  - intros [|[|i]] cur prev Hi Hcur Hprev; simpl in *; try lia; discriminate.
  - unfold pending, elements_at, new_Blockchain, alloc. simpl.
    rewrite lookup_insert_eq. simpl. intros v c t Hin. inversion Hin.
  - intros b Hb. apply list_elem_of_singleton in Hb. subst b.
    intros v c t Hin. simpl in Hin. inversion Hin.
Qed.

(** The invariant survives a change of the heap, the pool and the sets of
    voters that keeps the chain, the roster and the arrays of the blocks. *)
Lemma invariant_rewrite s s' :
  invariant s ->
  chain s' = chain s -> candidates s' = candidates s ->
  (forall b a, b ∈ chain s -> data b = Transactions a -> heap s' !! a = heap s !! a) ->
  pendingTransactions s' ∈ dom (heap s') ->
  (forall b, b ∈ chain s -> data b <> Transactions (pendingTransactions s')) ->
  admitted s' (pending s') ->
  invariant s'.
Proof.
  intros [[Hpd Harr] Hne Hidx Hhash Hlink Hpend Hseal] Hc Hcand Hsame Hpool Hapart Hadm.
  split; unfold arrays_apart; rewrite ?Hc; auto.
  - split; [exact Hpool|]. intros b a Hb Hd. split.
    + apply elem_of_dom. rewrite (Hsame b a Hb Hd). apply elem_of_dom.
      apply (Harr b a Hb Hd).
    + intros E. apply (Hapart b Hb). congruence.
  - intros i b Hb. rewrite (Hhash i b Hb). symmetry. apply calculateHash_ext.
    intros a Ha. apply (Hsame b a); [|exact Ha]. apply list_elem_of_lookup. eauto.
  - intros b Hb. rewrite (transactions_of_ext (heap s) (heap s') b).
    + apply (admitted_candidates s s'); auto.
    + intros a Ha. apply (Hsame b a Hb Ha).
Qed.

Lemma getLatestBlock_snoc s latest :
  getLatestBlock s = Some latest ->
  chain s !! (List.length (chain s) - 1)%nat = Some latest.
Proof.
  unfold getLatestBlock. rewrite last_lookup.
  replace (pred (List.length (chain s))) with (List.length (chain s) - 1)%nat by lia.
  auto.
Qed.

(** The invariant survives the push of a block built on a copy of the pool. *)
Lemma invariant_after_push s latest newBlock :
  invariant s ->
  getLatestBlock s = Some latest ->
  index newBlock = N.of_nat (List.length (chain s)) ->
  previousHash newBlock = hash latest ->
  data newBlock = Transactions (copied_array s) ->
  hash newBlock = calculateHash (heap_with_copy s) newBlock ->
  invariant (after_push s newBlock).
Proof.
  intros [[Hpd Harr] Hne Hidx Hhash Hlink Hpend Hseal] Hl Hi Hp Hd Hh.
  assert (Hold : forall b a, b ∈ chain s -> data b = Transactions a ->
                             heap_with_copy s !! a = heap s !! a).
  { intros b a Hb Ha. apply heap_with_copy_old. apply (Harr b a Hb Ha). }
  split; unfold after_push; read_fields.
  - split; read_fields.
    + rewrite dom_heap_with_copy. apply elem_of_union. right. exact Hpd.
    + intros b a Hb Ha. apply elem_of_app in Hb. destruct Hb as [Hb|Hb].
      * destruct (Harr b a Hb Ha) as [H1 H2]. split; [|exact H2].
        rewrite dom_heap_with_copy. apply elem_of_union. right. exact H1.
      * apply list_elem_of_singleton in Hb. subst b.
        assert (a = copied_array s) as -> by congruence. split.
        -- rewrite dom_heap_with_copy. apply elem_of_union. left.
           apply elem_of_singleton. reflexivity.
        -- apply copied_array_not_old. exact Hpd.
  - destruct (chain s); discriminate.
  - intros i b Hb. apply lookup_app_Some in Hb. destruct Hb as [Hb|[Hlen Hb]].
    + apply Hidx. exact Hb.
    + apply list_lookup_singleton_Some in Hb. destruct Hb as [Hz <-].
      rewrite Hi. f_equal. lia.
  - intros i b Hb. apply lookup_app_Some in Hb. destruct Hb as [Hb|[Hlen Hb]].
    + rewrite (Hhash i b Hb). symmetry. apply calculateHash_ext.
      intros a Ha. apply (Hold b a); [|exact Ha]. apply list_elem_of_lookup. eauto.
    + apply list_lookup_singleton_Some in Hb. destruct Hb as [_ <-]. exact Hh.
  - intros i cur prev Hge Hcur Hprev.
    apply lookup_app_Some in Hcur. destruct Hcur as [Hcur|[Hlen Hcur]].
    + apply (Hlink i cur prev Hge Hcur).
      rewrite lookup_app_l in Hprev; [exact Hprev|].
      apply lookup_lt_Some in Hcur. lia.
    + apply list_lookup_singleton_Some in Hcur. destruct Hcur as [Hz <-].
      assert (i = List.length (chain s)) as -> by lia.
      rewrite lookup_app_l in Hprev.
      * rewrite (getLatestBlock_snoc s latest Hl) in Hprev. injection Hprev as <-. exact Hp.
      * destruct (chain s); [contradiction|]. simpl. lia.
  - unfold pending, elements_at. read_fields. rewrite heap_with_copy_old by exact Hpd.
    exact Hpend.
  - intros b Hb. apply elem_of_app in Hb. destruct Hb as [Hb|Hb].
    + rewrite (transactions_of_ext (heap s) (heap_with_copy s) b).
      * apply (Hseal b Hb).
      * intros a Ha. apply (Hold b a Hb Ha).
    + apply list_elem_of_singleton in Hb. subst b.
      unfold transactions_of. rewrite Hd. unfold elements_at.
      rewrite heap_with_copy_copy. exact Hpend.
Qed.

Lemma invariant_same_arrays s s' :
  invariant s ->
  heap s' = heap s -> chain s' = chain s ->
  pendingTransactions s' = pendingTransactions s -> candidates s' = candidates s ->
  invariant s'.
Proof.
  intros Hinv Hh Hc Hp Hcand. pose proof Hinv as [[Hpd Harr] _ _ _ _ Hpend _].
  apply (invariant_rewrite s s' Hinv Hc Hcand).
  - intros b a _ _. rewrite Hh. reflexivity.
  - rewrite Hp, Hh. exact Hpd.
  - intros b Hb E. rewrite Hp in E. destruct (Harr b _ Hb E) as [_ H]. contradiction.
  - unfold pending. rewrite Hp, Hh. apply (admitted_candidates s s' _ Hcand). exact Hpend.
Qed.

(** What [createVote] does to the state, in two cases. *)
Lemma createVote_state voterId candidateId now s :
  snd (createVote voterId candidateId now s) = s \/
  (voterId <> "" /\ known_candidate s candidateId /\
   snd (createVote voterId candidateId now s)
   = with_heap (push (heap s) (pendingTransactions s) (Vote voterId candidateId now)) s).
Proof.
  createVote_cases voterId candidateId s; try (left; reflexivity).
  right. repeat split; auto.
Qed.

Lemma invariant_createVote voterId candidateId now s :
  invariant s -> invariant (snd (createVote voterId candidateId now s)).
Proof.
  intros Hinv. destruct (createVote_state voterId candidateId now s) as [->|(Hv & Hk & ->)];
    [exact Hinv|].
  pose proof Hinv as [[Hpd Harr] _ _ _ _ Hpend _].
  apply (invariant_rewrite s _ Hinv); read_fields; try reflexivity.
  - intros b a Hb Ha. apply lookup_push_ne. apply (Harr b a Hb Ha).
  - unfold push. rewrite dom_insert_L. apply elem_of_union. left.
    apply elem_of_singleton. reflexivity.
  - intros b Hb E. destruct (Harr b _ Hb E) as [_ H]. contradiction.
  - unfold pending. read_fields. rewrite elements_at_push.
    intros v c t Hin. apply elem_of_app in Hin. destruct Hin as [Hin|Hin].
    + apply (Hpend v c t Hin).
    + apply list_elem_of_singleton in Hin. injection Hin as -> -> ->. auto.
Qed.

Lemma reward_for_no_vote minerAddress amount now_reward voterId candidateId timestamp :
  Vote voterId candidateId timestamp ∉ reward_for minerAddress amount now_reward.
Proof.
  unfold reward_for. destruct (truthy minerAddress); intros H.
  - apply list_elem_of_singleton in H. discriminate H.
  - inversion H.
Qed.

Lemma pending_after_mining minerAddress now_reward s newBlock :
  pending (after_mining minerAddress now_reward s newBlock)
  = reward_for minerAddress (miningReward s) now_reward.
Proof.
  unfold pending, elements_at, after_mining, after_push. read_fields.
  rewrite heap_after_mining_pool. reflexivity.
Qed.

Lemma invariant_after_mining minerAddress now_reward s newBlock :
  invariant (after_push s newBlock) ->
  invariant (after_mining minerAddress now_reward s newBlock).
Proof.
  intros Hinv. pose proof Hinv as [[Hpd Harr] _ _ _ _ _ _].
  unfold after_push in Hpd, Harr. revert Hpd Harr. read_fields. intros Hpd Harr.
  apply (invariant_rewrite _ _ Hinv); try reflexivity.
  - intros b a Hb Ha. unfold after_mining, after_push. read_fields.
    apply heap_after_mining_other. intros E. subst a.
    apply (new_pool_fresh s). apply (Harr b _ Hb Ha).
  - unfold after_mining, after_push. read_fields. apply elem_of_dom.
    rewrite heap_after_mining_pool. eauto.
  - intros b Hb E. apply (new_pool_fresh s). apply (Harr b _ Hb E).
  - rewrite pending_after_mining. intros v c t Hin.
    exfalso. apply (reward_for_no_vote _ _ _ _ _ _ Hin).
Qed.

Lemma invariant_after_save minerAddress now_reward newBlock s :
  invariant s -> invariant (after_save minerAddress now_reward newBlock s).
Proof.
  intros Hinv. pose proof Hinv as [[Hpd Harr] _ _ _ _ _ _].
  rewrite after_save_unfold. cbv zeta.
  apply (invariant_rewrite _ _ Hinv); read_fields; try reflexivity.
  - intros b a Hb Ha. apply heap_after_save_old. apply (Harr b a Hb Ha).
  - apply elem_of_dom. rewrite heap_after_save_pool. eauto.
  - intros b Hb E. apply (is_fresh (dom (heap s))). apply (Harr b _ Hb E).
  - unfold pending, elements_at. read_fields. rewrite heap_after_save_pool. simpl.
    intros v c t Hin. exfalso. apply (reward_for_no_vote _ _ _ _ _ _ Hin).
Qed.

(** The block the proof-of-work returns fits the end of the chain. *)
Lemma mined_block_fits fuel now_block s latest newBlock :
  mineBlock fuel (heap_with_copy s) (difficulty s) (block_to_mine now_block s latest)
  = Some newBlock ->
  index newBlock = N.of_nat (List.length (chain s)) /\
  previousHash newBlock = hash latest /\
  timestamp newBlock = now_block /\
  data newBlock = Transactions (copied_array s) /\
  hash newBlock = calculateHash (heap_with_copy s) newBlock /\
  sealed (difficulty s) newBlock = true.
Proof.
  intros H. destruct (mineBlock_result _ _ _ _ _ H) as (Hs & Hi & Ht & Hd & Hp & _ & Hh).
  repeat split; auto. destruct Hh as [->|Hh]; [|exact Hh]. apply new_Block_consistent.
Qed.

Lemma invariant_minePendingTransactions fuel minerAddress now_block saved now_reward s r s' :
  invariant s ->
  minePendingTransactions fuel minerAddress now_block saved now_reward s = Some (r, s') ->
  invariant s'.
Proof.
  intros Hinv H.
  destruct (minePendingTransactions_cases _ _ _ _ _ _ _ _ H)
    as [(_ & _ & ->)|[(_ & Hc & _)|(_ & latest & nb & Hl & Hm & _ & Hend)]].
  - exact Hinv.
  - destruct (inv_chain s Hinv Hc).
  - destruct (mined_block_fits _ _ _ _ _ Hm) as (Hi & Hp & _ & Hd & Hh & _).
    pose proof (invariant_after_push s latest nb Hinv Hl Hi Hp Hd Hh) as Hpush.
    destruct Hend as [(_ & _ & ->)|(_ & _ & ->)]; [exact Hpush|].
    apply invariant_after_mining. exact Hpush.
Qed.

Lemma invariant_step s s' : invariant s -> step s s' -> invariant s'.
Proof.
  intros Hinv Hstep. destruct Hstep.
  - apply invariant_createVote. exact Hinv.
  - apply (invariant_minePendingTransactions _ _ _ _ _ _ _ _ Hinv H).
  - apply invariant_after_save. exact Hinv.
  - unfold registerVoter.
    destruct (negb (truthy (Some voterId))); [exact Hinv|].
    destruct (bool_decide (voterId ∈ registeredVoters s)); [exact Hinv|].
    apply (invariant_same_arrays s); auto.
  - destruct status as [b|]; [|exact Hinv].
    apply (invariant_same_arrays s); auto.
Qed.

Lemma reachable_invariant s : reachable s -> invariant s.
Proof.
  induction 1 as [voted registered open|s s' _ IH Hstep].
  - apply invariant_genesis.
  - apply (invariant_step s s' IH Hstep).
Qed.

(** C2: in every state reached from the genesis-only chain by calls of
    [createVote], [minePendingTransactions], [registerVoter] and
    [setElectionStatus], the runs of [minePendingTransactions] interleaved
    with other calls at their wait or not, at every index from 1 on
    [previousHash] is the stored hash of the block before, every block's
    stored hash is the hash recomputed from its stored fields, and the block
    at index [i] has [index] equal to [i]. *)
Theorem reachable_chain_sound s :
  reachable s ->
  (forall i currentBlock previousBlock,
     (1 <= i)%nat ->
     chain s !! i = Some currentBlock -> chain s !! (i - 1)%nat = Some previousBlock ->
     previousHash currentBlock = hash previousBlock) /\
  (forall i b, chain s !! i = Some b -> hash b = calculateHash (heap s) b) /\
  (forall i b, chain s !! i = Some b -> index b = N.of_nat i).
Proof.
  intros H. destruct (reachable_invariant s H) as [_ _ Hidx Hhash Hlink _ _].
  split; [exact Hlink|]. split; [exact Hhash|exact Hidx].
Qed.

(** ** The sample run: a reachable state *)

Lemma sample_mining_result :
  minePendingTransactions 10 (Some "election-authority-miner")
    "1700000001008" true "1700000001500" sample_voted
  = Some (Return (Mined sample_first_block), sample_mined).
Proof. vm_compute. reflexivity. Qed.

Lemma sample_voted_reachable : reachable sample_voted.
Proof.
  apply (reachable_step sample_open); [|exact (step_createVote _ _ _ _)].
  apply (reachable_step sample_registered); [|exact (step_setElectionStatus _ _)].
  apply (reachable_step sample_genesis); [|exact (step_registerVoter _ _)].
  apply reachable_genesis.
Qed.

Lemma sample_mined_reachable : reachable sample_mined.
Proof.
  apply (reachable_step sample_voted); [exact sample_voted_reachable|].
  exact (step_minePendingTransactions _ _ _ _ _ _ _ _ sample_mining_result).
Qed.

(** C2 on the state the sample run ends in. *)
Lemma reachable_chain_sound_sample :
  chain sample_mined = [createGenesisBlock; sample_first_block] /\
  previousHash sample_first_block = hash createGenesisBlock /\
  hash sample_first_block = calculateHash (heap sample_mined) sample_first_block /\
  index sample_first_block = 1.
Proof.
  destruct (reachable_chain_sound sample_mined sample_mined_reachable) as (Hl & Hh & Hi).
  assert (Hc : chain sample_mined = [createGenesisBlock; sample_first_block])
    by (vm_compute; reflexivity).
  split; [exact Hc|]. rewrite Hc in Hl, Hh, Hi. split; [|split].
  - apply (Hl 1%nat sample_first_block createGenesisBlock); [lia|reflexivity|reflexivity].
  - apply (Hh 1%nat). reflexivity.
  - apply (Hi 1%nat). reflexivity.
Defined.

(** ** Mining the pending pool: what a run does *)

Lemma reachable_voters_named s : reachable s -> voters_named (pending s).
Proof.
  intros H v c t Hin. destruct (reachable_invariant s H) as [_ _ _ _ _ Hp _].
  apply (Hp v c t Hin).
Qed.

Lemma elem_of_mark_voted ts voted voterId :
  (voterId ∈ foldl mark_voted voted ts) <->
  (voterId ∈ voted \/
   (voterId <> "" /\ exists candidateId timestamp, Vote voterId candidateId timestamp ∈ ts)).
Proof.
  revert voted. induction ts as [|t ts IH]; intros voted; simpl.
  - split; [auto|]. intros [H|(_ & c & ts' & H)]; [exact H|inversion H].
  - rewrite IH. split.
    + intros [H|(Hv & c & t' & H)].
      * destruct t as [v c t'|a n t']; simpl in H; [|auto].
        destruct (String.eqb_spec v ""); simpl in H; [auto|].
        apply elem_of_union in H. destruct H as [H|H]; [|auto].
        apply elem_of_singleton in H. subst v. right. split; [assumption|].
        exists c, t'. apply list_elem_of_here.
      * right. split; [exact Hv|]. exists c, t'. apply list_elem_of_further. exact H.
    + intros [H|(Hv & c & t' & H)].
      * left. destruct t as [v c t'|a n t']; simpl; [|exact H].
        destruct (String.eqb_spec v ""); simpl; [exact H|].
        apply elem_of_union. right. exact H.
      * apply elem_of_cons in H. destruct H as [<-|H].
        -- left. simpl. destruct (String.eqb_spec voterId ""); [contradiction|]. simpl.
           apply elem_of_union. left. apply elem_of_singleton. reflexivity.
        -- right. split; [exact Hv|]. exists c, t'. exact H.
Qed.

(** The state at the end of a run that saved its block, field by field. *)
Lemma after_mining_facts minerAddress now_reward s newBlock :
  pending s <> [] ->
  data newBlock = Transactions (copied_array s) ->
  let s' := after_mining minerAddress now_reward s newBlock in
  chain s' = chain s ++ [newBlock] /\
  (copied_array s ∉ dom (heap s)) /\
  copied_array s <> pendingTransactions s /\
  copied_array s <> pendingTransactions s' /\
  transactions_of (heap s') newBlock = pending s /\
  calculateHash (heap s') newBlock = calculateHash (heap_with_copy s) newBlock /\
  (forall b, b ∈ chain s ->
     (forall a, data b = Transactions a -> a ∈ dom (heap s)) ->
     transactions_of (heap s') b = transactions_of (heap s) b) /\
  pending s' = reward_for minerAddress (miningReward s) now_reward /\
  votedUsers s' = foldl mark_voted (votedUsers s) (pending s) /\
  registeredVoters s' = registeredVoters s /\
  candidates s' = candidates s /\
  isElectionOpen s' = isElectionOpen s.
Proof.
  intros Hp Hd s'. subst s'.
  assert (Hcopy : heap (after_mining minerAddress now_reward s newBlock) !! copied_array s
                  = Some (pending s)).
  { unfold after_mining, after_push. read_fields. apply heap_after_mining_copy. }
  split; [unfold after_mining, after_push; read_fields; reflexivity|].
  split; [apply copied_array_fresh|].
  split; [apply copied_array_not_old; apply pending_dom; exact Hp|].
  split; [intros E; apply (new_pool_not_copy s); symmetry; exact E|].
  split; [unfold transactions_of, elements_at; rewrite Hd, Hcopy; reflexivity|].
  split.
  { apply calculateHash_ext. intros a Ha. assert (a = copied_array s) as -> by congruence.
    rewrite Hcopy. symmetry. apply heap_with_copy_copy. }
  split.
  { intros b Hb Hdom. apply transactions_of_ext. intros a Ha.
    unfold after_mining, after_push. read_fields.
    apply heap_after_mining_old. apply (Hdom a Ha). }
  split; [apply pending_after_mining|].
  repeat split.
Qed.

Lemma solvable_returns minerAddress now_block saved now_reward s :
  pending s <> [] -> solvable now_block s ->
  exists fuel0, forall fuel, (fuel0 <= fuel)%nat ->
    exists r s',
      minePendingTransactions fuel minerAddress now_block saved now_reward s = Some (r, s').
Proof.
  intros Hp (latest & k & Hl & Hk). exists k. intros fuel Hle.
  destruct (mineBlock_enough k _ _ _ Hk) as [nb Hnb].
  pose proof (mineBlock_more_fuel k fuel _ _ _ _ Hnb Hle) as Hm.
  rewrite (minePendingTransactions_runs fuel minerAddress now_block saved now_reward
             s latest nb Hp Hl Hm).
  destruct saved; eauto.
Qed.

(** C4, as stated, fails: on the engine [new Blockchain()] leaves, whose
    chain is empty until the load has pushed a block, a pool that is not
    empty is not sealed.  [getLatestBlock()] is [undefined], the read of its
    [hash] throws a [TypeError], and the call appends no block: the chain
    stays empty, the pool keeps its vote and [votedUsers] stays empty. *)
Lemma minePendingTransactions_on_empty_chain :
  chain sample_unloaded = [] /\
  pending sample_unloaded = [Vote "v1" "candidateA" "1700000000000"] /\
  forall fuel saved,
    exists s',
      minePendingTransactions fuel (Some "election-authority-miner")
        "1700000001008" saved "1700000001500" sample_unloaded
      = Some (Throw (TypeError "Cannot read properties of undefined (reading 'hash')"), s') /\
      chain s' = [] /\
      pending s' = [Vote "v1" "candidateA" "1700000000000"] /\
      votedUsers s' = ∅.
Proof.
  split; [vm_compute; reflexivity|]. split; [vm_compute; reflexivity|].
  intros fuel saved.
  exists (with_heap (heap_with_copy sample_unloaded) sample_unloaded).
  split; [|split; [|split]]; vm_compute; reflexivity.
Qed.

(** C4 (amended): on an empty pool [minePendingTransactions] returns the
    nothing-to-mine result and leaves the state as it was.  On a pool that
    is not empty and an empty chain it throws the [TypeError] of the read of
    [getLatestBlock().hash] and appends no block; the pool and [votedUsers]
    stay as they were.  On a pool that is not empty and a chain that holds a
    block, as every chain does once the load has ended, a run whose
    proof-of-work returns appends exactly one block to the chain, whether
    the write of the block succeeds or not; the block is sealed and holds,
    in a new array that is neither the old pool nor the new one, the
    transactions the pool held on entry, and a later [createVote] does not
    change them.  After a run that saved its block the pool holds the one
    reward transaction when a miner address was given (a string that is not
    empty) and nothing otherwise; the reward is pushed on the new pool, not
    on the array of the block, which holds a transaction of the new pool
    only if an equal one was pending on entry; and [votedUsers] has grown
    exactly by the voters of the votes of the block, which are all the votes
    of the block when each names its voter, as the votes [createVote] pushes
    do.  When the proof-of-work has a solution, the call returns for every
    large enough fuel. *)
Theorem minePendingTransactions_spec fuel minerAddress now_block now_reward s :
  (pending s = [] ->
   forall saved,
     minePendingTransactions fuel minerAddress now_block saved now_reward s
     = Some (Return NothingToMine, s)) /\
  (pending s <> [] -> chain s = [] ->
   forall saved,
     exists s',
       minePendingTransactions fuel minerAddress now_block saved now_reward s
       = Some (Throw (TypeError "Cannot read properties of undefined (reading 'hash')"), s') /\
       chain s' = [] /\
       pendingTransactions s' = pendingTransactions s /\
       pending s' = pending s /\
       votedUsers s' = votedUsers s) /\
  (pending s <> [] -> chain s <> [] ->
   forall saved r s',
     minePendingTransactions fuel minerAddress now_block saved now_reward s = Some (r, s') ->
     exists newBlock a,
       chain s' = chain s ++ [newBlock] /\
       data newBlock = Transactions a /\
       (a ∉ dom (heap s)) /\ a <> pendingTransactions s /\ a <> pendingTransactions s' /\
       transactions_of (heap s') newBlock = pending s /\
       starts_with_zeros (difficulty s) (hash newBlock) /\
       hash newBlock = calculateHash (heap s') newBlock /\
       (forall voterId candidateId now,
          transactions_of (heap (snd (createVote voterId candidateId now s'))) newBlock
          = pending s) /\
       (saved = true ->
        r = Return (Mined newBlock) /\
        (forall address, minerAddress = Some address -> address <> "" ->
           pending s' = [MiningReward address (miningReward s) now_reward]) /\
        (minerAddress = None \/ minerAddress = Some "" -> pending s' = []) /\
        (forall t, t ∈ pending s' -> t ∈ transactions_of (heap s') newBlock ->
           t ∈ pending s) /\
        (voters_named (pending s) ->
         forall voterId candidateId timestamp,
           Vote voterId candidateId timestamp ∈ transactions_of (heap s') newBlock ->
           voterId ∈ votedUsers s') /\
        (forall voterId,
           voterId ∈ votedUsers s' <->
           (voterId ∈ votedUsers s \/
            (voterId <> "" /\
             exists candidateId timestamp,
               Vote voterId candidateId timestamp
               ∈ transactions_of (heap s') newBlock))))) /\
  (pending s <> [] -> solvable now_block s ->
   forall saved,
     exists fuel0, forall fuel', (fuel0 <= fuel')%nat ->
       exists r s',
         minePendingTransactions fuel' minerAddress now_block saved now_reward s
         = Some (r, s')).
Proof.
  split; [|split; [|split]].
  - intros Hp saved. unfold minePendingTransactions. rewrite Hp. reflexivity.
  - intros Hp Hc saved. exists (with_heap (heap_with_copy s) s).
    assert (Hpd : pendingTransactions s ∈ dom (heap s)) by (apply pending_dom; exact Hp).
    split; [|split; [exact Hc|split; [reflexivity|split; [|reflexivity]]]].
    + unfold minePendingTransactions.
      destruct (pending s) as [|t ts] eqn:Ep; [contradiction|]. simpl Nat.eqb. cbv iota.
      change (deep_copy (heap s) (pendingTransactions s))
        with (copied_array s, <[copied_array s := pending s]> (heap s)).
      cbv beta iota. fold (heap_with_copy s).
      unfold getLatestBlock. rewrite Hc. reflexivity.
    + unfold pending, elements_at. read_fields.
      rewrite heap_with_copy_old by exact Hpd. reflexivity.
  - intros Hp Hc saved r s' H.
    destruct (minePendingTransactions_cases _ _ _ _ _ _ _ _ H)
      as [(Hp' & _)|[(_ & Hc' & _)|(_ & latest & nb & Hl & Hm & Hd & Hend)]];
      [contradiction|contradiction|].
    destruct (mined_block_fits _ _ _ _ _ Hm) as (_ & _ & _ & _ & Hh & Hsealed).
    apply sealed_starts_with_zeros in Hsealed.
    exists nb, (copied_array s).
    destruct Hend as [(-> & -> & ->)|(-> & -> & ->)].
    + assert (Hpd : pendingTransactions s ∈ dom (heap s)) by (apply pending_dom; exact Hp).
      assert (Hne : copied_array s <> pendingTransactions s)
        by (apply copied_array_not_old; exact Hpd).
      assert (Ht : transactions_of (heap (after_push s nb)) nb = pending s).
      { unfold transactions_of, elements_at, after_push. read_fields.
        rewrite Hd, heap_with_copy_copy. reflexivity. }
      split; [reflexivity|]. split; [exact Hd|]. split; [apply copied_array_fresh|].
      split; [exact Hne|]. split; [exact Hne|]. split; [exact Ht|].
      split; [exact Hsealed|]. split; [exact Hh|].
      split; [|intros E; discriminate E].
      intros v c now.
      destruct (createVote_state v c now (after_push s nb)) as [->|(_ & _ & ->)]; [exact Ht|].
      rewrite <- Ht. apply transactions_of_ext. intros a Ha. read_fields.
      apply lookup_push_ne. intros E. apply Hne.
      assert (a = copied_array s) as <- by congruence. exact E.
    + destruct (after_mining_facts minerAddress now_reward s nb Hp Hd)
        as (F1 & F2 & F3 & F4 & F5 & F6 & _ & F8 & F9 & _).
      split; [exact F1|]. split; [exact Hd|].
      split; [exact F2|]. split; [exact F3|]. split; [exact F4|]. split; [exact F5|].
      split; [exact Hsealed|]. split; [rewrite F6; exact Hh|].
      split.
      { intros v c now.
        destruct (createVote_state v c now (after_mining minerAddress now_reward s nb))
          as [->|(_ & _ & ->)]; [exact F5|].
        rewrite <- F5. apply transactions_of_ext. intros a Ha. read_fields.
        apply lookup_push_ne. intros E. apply F4. congruence. }
      intros _. split; [reflexivity|].
      split.
      { intros address -> Ha. rewrite F8. unfold reward_for.
        apply truthy_Some in Ha. rewrite Ha. reflexivity. }
      split.
      { intros [->| ->]; rewrite F8; reflexivity. }
      split.
      { intros t _ Hin. rewrite F5 in Hin. exact Hin. }
      split.
      { intros Hnamed v c t Hin. rewrite F9. apply elem_of_mark_voted. right.
        rewrite F5 in Hin. split; [apply (Hnamed v c t Hin)|eauto]. }
      intros v. rewrite F9, elem_of_mark_voted, F5. reflexivity.
  - intros Hp Hsol saved. apply solvable_returns; assumption.
Qed.

Lemma sample_voted_pending : pending sample_voted = [Vote "v1" "candidateA" "1700000000000"].
Proof. vm_compute. reflexivity. Qed.

Lemma sample_voted_named : voters_named (pending sample_voted).
Proof.
  rewrite sample_voted_pending. intros v c t Hin.
  apply list_elem_of_singleton in Hin. injection Hin as -> _ _. discriminate.
Qed.

(** C4 on the sample run. *)
Lemma minePendingTransactions_spec_sample :
  chain sample_mined = chain sample_voted ++ [sample_first_block] /\
  transactions_of (heap sample_mined) sample_first_block
  = [Vote "v1" "candidateA" "1700000000000"] /\
  pending sample_mined = [MiningReward "election-authority-miner" 1 "1700000001500"] /\
  "v1" ∈ votedUsers sample_mined.
Proof.
  destruct (minePendingTransactions_spec 10 (Some "election-authority-miner")
              "1700000001008" "1700000001500" sample_voted) as (_ & _ & H & _).
  destruct (H ltac:(rewrite sample_voted_pending; discriminate)
              ltac:(vm_compute; discriminate)
              true _ _ sample_mining_result)
    as (nb & a & Hc & _ & _ & _ & _ & Ht & _ & _ & _ & Hsaved).
  destruct (Hsaved eq_refl) as (Hr & Hrew & _ & _ & Hv & _).
  specialize (Hv sample_voted_named).
  injection Hr as <-.
  split; [exact Hc|]. split; [rewrite Ht; exact sample_voted_pending|].
  split; [apply (Hrew "election-authority-miner" eq_refl); discriminate|].
  apply (Hv "v1" "candidateA" "1700000000000"). rewrite Ht, sample_voted_pending.
  apply list_elem_of_here.
Defined.

(** ** Mining when the block cannot be saved *)

(** C10: when the write of the sealed block fails, [minePendingTransactions]
    throws ['Failed to save block to database.'] with the sealed block
    already on the chain: the block has the next index and the hash of the
    latest block as its [previousHash], its hash begins with [difficulty]
    zeros and is the hash of its fields.  The pool is not cleared (it is the
    same array with the same transactions, no reward among them) and
    [votedUsers] is not updated.  A later run that saves its block seals the
    same transactions again: it appends a second sealed block, linked to the
    first, and the chain then ends with two blocks that hold the
    transactions the pool held before the failed run.  Such a run returns
    whenever its proof-of-work has a solution. *)
Theorem failed_save_is_not_atomic fuel minerAddress now_block now_reward s r s1 :
  pending s <> [] -> chain s <> [] ->
  minePendingTransactions fuel minerAddress now_block false now_reward s = Some (r, s1) ->
  r = Throw (PersistenceUnavailable "Failed to save block to database.") /\
  exists latest newBlock,
    getLatestBlock s = Some latest /\
    chain s1 = chain s ++ [newBlock] /\
    index newBlock = N.of_nat (List.length (chain s)) /\
    previousHash newBlock = hash latest /\
    starts_with_zeros (difficulty s) (hash newBlock) /\
    hash newBlock = calculateHash (heap s1) newBlock /\
    transactions_of (heap s1) newBlock = pending s /\
    pendingTransactions s1 = pendingTransactions s /\
    pending s1 = pending s /\
    votedUsers s1 = votedUsers s /\
    (forall fuel' minerAddress' now_block' now_reward' r' s2,
       minePendingTransactions fuel' minerAddress' now_block' true now_reward' s1
       = Some (r', s2) ->
       exists second,
         r' = Return (Mined second) /\
         chain s2 = chain s ++ [newBlock; second] /\
         index second = N.of_nat (S (List.length (chain s))) /\
         previousHash second = hash newBlock /\
         starts_with_zeros (difficulty s) (hash second) /\
         hash second = calculateHash (heap s2) second /\
         hash newBlock = calculateHash (heap s2) newBlock /\
         transactions_of (heap s2) newBlock = pending s /\
         transactions_of (heap s2) second = pending s) /\
    (forall minerAddress' now_block' now_reward',
       solvable now_block' s1 ->
       exists fuel0, forall fuel', (fuel0 <= fuel')%nat ->
         exists r' s2,
           minePendingTransactions fuel' minerAddress' now_block' true now_reward' s1
           = Some (r', s2)).
Proof.
  intros Hp Hc H.
  destruct (minePendingTransactions_cases _ _ _ _ _ _ _ _ H)
    as [(Hp' & _)|[(_ & Hc' & _)|(_ & latest & nb & Hl & Hm & Hd & Hend)]];
    [contradiction|contradiction|].
  destruct Hend as [(_ & -> & ->)|(Hs & _)]; [|discriminate Hs].
  destruct (mined_block_fits _ _ _ _ _ Hm) as (Hi & Hprev & _ & _ & Hh & Hsealed).
  apply sealed_starts_with_zeros in Hsealed.
  split; [reflexivity|]. exists latest, nb.
  assert (Hpd : pendingTransactions s ∈ dom (heap s)) by (apply pending_dom; exact Hp).
  assert (Hp1 : pending (after_push s nb) = pending s).
  { unfold pending, elements_at, after_push. read_fields.
    rewrite heap_with_copy_old by exact Hpd. reflexivity. }
  assert (Ht1 : transactions_of (heap (after_push s nb)) nb = pending s).
  { unfold transactions_of, elements_at, after_push. read_fields.
    rewrite Hd, heap_with_copy_copy. reflexivity. }
  assert (Hp1' : pending (after_push s nb) <> []) by (rewrite Hp1; exact Hp).
  assert (Hin : nb ∈ chain (after_push s nb)).
  { unfold after_push. read_fields. apply elem_of_app. right.
    apply list_elem_of_singleton. reflexivity. }
  assert (Hdom : forall a, data nb = Transactions a -> a ∈ dom (heap (after_push s nb))).
  { intros a Ha. assert (a = copied_array s) as -> by congruence.
    unfold after_push. read_fields. rewrite dom_heap_with_copy.
    apply elem_of_union. left. apply elem_of_singleton. reflexivity. }
  split; [exact Hl|]. split; [reflexivity|]. split; [exact Hi|]. split; [exact Hprev|].
  split; [exact Hsealed|]. split; [exact Hh|]. split; [exact Ht1|].
  split; [reflexivity|]. split; [exact Hp1|]. split; [reflexivity|]. split.
  - intros fuel' minerAddress' now_block' now_reward' r' s2 H2.
    destruct (minePendingTransactions_cases _ _ _ _ _ _ _ _ H2)
      as [(Hq & _)|[(_ & Hq & _)|(_ & latest2 & second & Hl2 & Hm2 & Hd2 & Hend2)]].
    + contradiction.
    + unfold after_push in Hq. revert Hq. read_fields. destruct (chain s); discriminate.
    + destruct Hend2 as [(Hs & _)|(_ & -> & ->)]; [discriminate Hs|].
      destruct (mined_block_fits _ _ _ _ _ Hm2) as (Hi2 & Hprev2 & _ & _ & Hh2 & Hsealed2).
      apply sealed_starts_with_zeros in Hsealed2.
      assert (latest2 = nb) as ->.
      { revert Hl2. unfold getLatestBlock, after_push. read_fields.
        rewrite last_snoc. congruence. }
      destruct (after_mining_facts minerAddress' now_reward' (after_push s nb) second Hp1' Hd2)
        as (F1 & _ & _ & _ & F5 & F6 & F7 & _).
      exists second. split; [reflexivity|]. split.
      { rewrite F1. unfold after_push. read_fields. rewrite <- app_assoc. reflexivity. }
      split.
      { rewrite Hi2. unfold after_push. read_fields. rewrite length_app. simpl.
        f_equal. lia. }
      split; [exact Hprev2|]. split; [exact Hsealed2|]. split; [rewrite F6; exact Hh2|].
      split.
      { rewrite Hh at 1. symmetry. apply calculateHash_ext. intros a Ha.
        unfold after_mining, after_push at 1. read_fields.
        apply heap_after_mining_old. apply (Hdom a Ha). }
      split; [rewrite <- Ht1; apply (F7 nb Hin Hdom)|].
      rewrite F5. exact Hp1.
  - intros minerAddress' now_block' now_reward' Hsol.
    apply solvable_returns; assumption.
Qed.

Lemma sample_failed_mining_result :
  minePendingTransactions 10 (Some "election-authority-miner")
    "1700000001008" false "1700000001500" sample_voted
  = Some (Throw (PersistenceUnavailable "Failed to save block to database."), sample_unsaved).
Proof. vm_compute. reflexivity. Qed.

Lemma sample_second_mining_result :
  minePendingTransactions 10 (Some "election-authority-miner")
    "1700000002343" true "1700000002900" sample_unsaved
  = Some (Return (Mined sample_second_block), sample_twice).
Proof. vm_compute. reflexivity. Qed.

(** C10 on the sample run: both blocks hold the vote of ["v1"]. *)
Lemma failed_save_is_not_atomic_sample :
  chain sample_unsaved = [createGenesisBlock; sample_first_block] /\
  pending sample_unsaved = [Vote "v1" "candidateA" "1700000000000"] /\
  ("v1" ∉ votedUsers sample_unsaved) /\
  chain sample_twice = [createGenesisBlock; sample_first_block; sample_second_block] /\
  transactions_of (heap sample_twice) sample_first_block
  = [Vote "v1" "candidateA" "1700000000000"] /\
  transactions_of (heap sample_twice) sample_second_block
  = [Vote "v1" "candidateA" "1700000000000"].
Proof.
  destruct (failed_save_is_not_atomic 10 (Some "election-authority-miner")
              "1700000001008" "1700000001500" sample_voted
              (Throw (PersistenceUnavailable "Failed to save block to database."))
              sample_unsaved
              ltac:(rewrite sample_voted_pending; discriminate)
              ltac:(vm_compute; discriminate)
              sample_failed_mining_result)
    as (_ & latest & nb & _ & Hc & _ & _ & _ & _ & _ & _ & Hp & Hv & Hnext & _).
  assert (Hvoted : chain sample_voted = [createGenesisBlock]) by (vm_compute; reflexivity).
  assert (Hunsaved : chain sample_unsaved = [createGenesisBlock; sample_first_block])
    by (vm_compute; reflexivity).
  rewrite Hvoted, Hunsaved in Hc.
  assert (nb = sample_first_block) as ->
    by (change ([createGenesisBlock] ++ [nb]) with [createGenesisBlock; nb] in Hc; congruence).
  destruct (Hnext 10%nat (Some "election-authority-miner") "1700000002343" "1700000002900"
              (Return (Mined sample_second_block)) sample_twice sample_second_mining_result)
    as (second & Hr & Hc2 & _ & _ & _ & _ & _ & Ht1 & Ht2).
  assert (second = sample_second_block) as -> by congruence.
  rewrite Hvoted in Hc2. rewrite sample_voted_pending in Hp, Ht1, Ht2.
  split; [exact Hunsaved|]. split; [exact Hp|]. split.
  { rewrite Hv. apply (bool_decide_eq_false_1 ("v1" ∈ votedUsers sample_voted)).
    vm_compute. reflexivity. }
  split; [exact Hc2|]. split; [exact Ht1|exact Ht2].
Defined.

(** ** The tally *)

Lemma count_cons f t ts : count f (t :: ts) = (if f t then 1 else 0) + count f ts.
Proof. unfold count. simpl. destruct (f t); simpl; lia. Qed.

Lemma count_app f ts ts' : count f (ts ++ ts') = count f ts + count f ts'.
Proof. unfold count. rewrite List.filter_app, List.length_app. lia. Qed.

Lemma total_votes_empty : total_votes ∅ = 0.
Proof. apply map_fold_empty. Qed.

Lemma total_votes_insert results k r :
  results !! k = None -> total_votes (<[k := r]> results) = Result.votes r + total_votes results.
Proof.
  intros H. unfold total_votes.
  exact (map_fold_insert_L (fun _ r acc => Result.votes r + acc) 0 k r results
           ltac:(intros; cbv beta; lia) H).
Qed.

Lemma total_votes_delete results k r :
  results !! k = Some r ->
  total_votes results = Result.votes r + total_votes (delete k results).
Proof.
  intros H. unfold total_votes.
  exact (map_fold_delete_L (fun _ r acc => Result.votes r + acc) 0 k r results
           ltac:(intros; cbv beta; lia) H).
Qed.

Lemma total_votes_replace results k r r' :
  results !! k = Some r ->
  total_votes (<[k := r']> results) + Result.votes r = total_votes results + Result.votes r'.
Proof.
  intros H. rewrite <- insert_delete_eq.
  rewrite total_votes_insert by apply lookup_delete_eq.
  rewrite (total_votes_delete results k r H). lia.
Qed.

Lemma lookup_initial_results cs k :
  initial_results cs !! k
  = (fun c => Result.mk (Candidate.name c) 0)
      <$> List.find (fun c => String.eqb (Candidate.id c) k) (List.rev cs).
Proof.
  unfold initial_results.
  set (f := fun results candidate =>
              <[Candidate.id candidate := Result.mk (Candidate.name candidate) 0]> results).
  induction cs as [|c cs IH] using rev_ind.
  - simpl. apply lookup_empty.
  - rewrite foldl_app, List.rev_app_distr. simpl. unfold f at 1.
    destruct (String.eqb_spec (Candidate.id c) k) as [->|Hne].
    + rewrite lookup_insert_eq. reflexivity.
    + rewrite lookup_insert_ne by exact Hne. exact IH.
Qed.

Lemma initial_results_known s k :
  is_Some (initial_results (candidates s) !! k) <-> known_candidate s k.
Proof.
  rewrite lookup_initial_results, fmap_is_Some. unfold known_candidate. split.
  - intros [c Hc]. apply List.find_some in Hc. destruct Hc as [Hin He].
    exists c. split.
    + apply list_elem_of_In. apply List.in_rev. exact Hin.
    + apply String.eqb_eq. exact He.
  - intros (c & Hin & He).
    destruct (List.find (fun c => String.eqb (Candidate.id c) k) (List.rev (candidates s)))
      as [c'|] eqn:E; [eauto|].
    exfalso. pose proof (List.find_none _ _ E c) as Hf. cbv beta in Hf.
    rewrite (proj2 (String.eqb_eq _ _) He) in Hf.
    assert (true = false) as Habs; [|discriminate Habs].
    apply Hf. apply (proj1 (List.in_rev _ _)). apply list_elem_of_In. exact Hin.
Qed.

Lemma initial_results_zero cs k r : initial_results cs !! k = Some r -> Result.votes r = 0.
Proof.
  rewrite lookup_initial_results. destruct (List.find _ _); simpl; [|discriminate].
  intros H. injection H as <-. reflexivity.
Qed.

Lemma total_votes_initial cs : total_votes (initial_results cs) = 0.
Proof.
  unfold initial_results. induction cs as [|c cs IH] using rev_ind.
  - apply total_votes_empty.
  - rewrite foldl_app. simpl.
    set (results := foldl _ ∅ cs) in *.
    destruct (results !! Candidate.id c) as [r|] eqn:E.
    + pose proof (total_votes_replace results (Candidate.id c) r
                    (Result.mk (Candidate.name c) 0) E) as H.
      pose proof (initial_results_zero cs _ _ E) as Hz. simpl in H. lia.
    + rewrite total_votes_insert by exact E. simpl. lia.
Qed.

Lemma count_block_transactions h results block :
  count_block h results block = foldl count_transaction results (transactions_of h block).
Proof.
  unfold count_block, transactions_of. destruct (data block); reflexivity.
Qed.

Lemma getElectionResults_fold s :
  getElectionResults s
  = foldl count_transaction (initial_results (candidates s)) (sealed_transactions s).
Proof.
  unfold getElectionResults, sealed_transactions.
  generalize (initial_results (candidates s)).
  induction (chain s) as [|b c IH]; intros results; simpl; [reflexivity|].
  rewrite foldl_app, IH, count_block_transactions. reflexivity.
Qed.

(** An entry keeps its name and gains one vote per vote for its key. *)
Lemma lookup_count_transactions ts results k :
  foldl count_transaction results ts !! k
  = (fun r => Result.mk (Result.name r) (Result.votes r + count (votes_for k) ts))
      <$> results !! k.
Proof.
  revert results. induction ts as [|t ts IH]; intros results.
  - simpl. destruct (results !! k) as [[n v]|]; simpl; [|reflexivity].
    unfold count. simpl. do 2 f_equal. lia.
  - simpl foldl. rewrite IH, count_cons.
    destruct t as [v c t|a n t]; simpl count_transaction; simpl votes_for.
    + destruct (results !! c) as [r|] eqn:E.
      * destruct (String.eqb_spec c k) as [->|Hne].
        -- rewrite lookup_insert_eq, E. simpl. do 2 f_equal. lia.
        -- rewrite lookup_insert_ne by exact Hne.
           destruct (results !! k); simpl; [|reflexivity]. do 2 f_equal.
      * destruct (String.eqb_spec c k) as [->|Hne].
        -- rewrite E. reflexivity.
        -- destruct (results !! k); simpl; [|reflexivity]. do 2 f_equal.
    + destruct (results !! k); simpl; [|reflexivity]. do 2 f_equal.
Qed.

(** The sum grows by one per vote for a key of the object. *)
Lemma total_votes_count_transactions ts results :
  total_votes (foldl count_transaction results ts)
  = total_votes results
    + count (fun t => match t with
                      | Vote _ c _ => bool_decide (is_Some (results !! c))
                      | MiningReward _ _ _ => false
                      end) ts.
Proof.
  revert results. induction ts as [|t ts IH]; intros results.
  - unfold count. simpl. lia.
  - simpl foldl. rewrite IH, count_cons.
    destruct t as [v c t|a n t]; simpl count_transaction.
    + destruct (results !! c) as [r|] eqn:E.
      * rewrite (bool_decide_eq_true_2 _ (mk_is_Some _ _ eq_refl)).
        pose proof (total_votes_replace results c r
                      (Result.mk (Result.name r) (Result.votes r + 1)) E) as H.
        simpl in H.
        assert (Hsame : forall t',
                  match t' with
                  | Vote _ c' _ =>
                      bool_decide (is_Some (<[c := Result.mk (Result.name r) (Result.votes r + 1)]>
                                              results !! c'))
                  | MiningReward _ _ _ => false
                  end
                  = match t' with
                    | Vote _ c' _ => bool_decide (is_Some (results !! c'))
                    | MiningReward _ _ _ => false
                    end).
        { intros [v' c' t'|a' n' t']; [|reflexivity]. apply bool_decide_ext.
          destruct (decide (c = c')) as [<-|Hne].
          - rewrite lookup_insert_eq, E. split; eauto.
          - rewrite lookup_insert_ne by exact Hne. reflexivity. }
        unfold count. rewrite (List.filter_ext _ _ Hsame). lia.
      * rewrite bool_decide_eq_false_2 by (intros [x Hx]; discriminate Hx). lia.
    + lia.
Qed.

Lemma roster_vote_known s t :
  match t with
  | Vote _ c _ => bool_decide (is_Some (initial_results (candidates s) !! c))
  | MiningReward _ _ _ => false
  end = votes_for_roster (candidates s) t.
Proof.
  destruct t as [v c t|a n t]; [|reflexivity]. simpl.
  destruct (existsb _ _) eqn:E.
  - apply bool_decide_eq_true_2, initial_results_known, some_candidate_known. exact E.
  - apply bool_decide_eq_false_2. intros H. apply initial_results_known in H.
    apply some_candidate_known in H. congruence.
Qed.

Lemma reachable_sealed_known s voterId candidateId timestamp :
  reachable s ->
  Vote voterId candidateId timestamp ∈ sealed_transactions s ->
  known_candidate s candidateId.
Proof.
  intros Hr Hin. destruct (reachable_invariant s Hr) as [_ _ _ _ _ _ Hs].
  apply list_elem_of_In, List.in_flat_map in Hin. destruct Hin as (b & Hb & Hin).
  apply list_elem_of_In in Hb, Hin. apply (Hs b Hb _ _ _ Hin).
Qed.

(** C7, as stated, fails: a vote for an id that is not in the roster is in
    the chain and in no count. *)
Lemma tally_skips_unknown_candidate :
  fst (isChainValid stray_vote_state) = true /\
  count is_vote (sealed_transactions stray_vote_state) = 1 /\
  total_votes (getElectionResults stray_vote_state) = 0 /\
  total_votes (getElectionResults stray_vote_state)
  <> count is_vote (sealed_transactions stray_vote_state).
Proof.
  assert (H1 : count is_vote (sealed_transactions stray_vote_state) = 1)
    by (vm_compute; reflexivity).
  assert (H0 : total_votes (getElectionResults stray_vote_state) = 0)
    by (vm_compute; reflexivity).
  split; [vm_compute; reflexivity|]. split; [exact H1|]. split; [exact H0|].
  rewrite H0, H1. discriminate.
Qed.

(** C7 (amended): the object [getElectionResults] returns has an entry
    for every candidate of the roster, set to 0 votes before the scan; its
    keys are the ids of the roster; the entry of a candidate counts the votes
    for its id in the blocks of the chain; and the sum of the counts is the
    number of votes in the chain whose [candidateId] is an id of the roster.
    Votes for other ids are skipped, so the sum is the number of all the
    votes of the chain when each names a candidate of the roster, as in every
    state reached from the genesis-only chain. *)
Theorem getElectionResults_tally s :
  (forall c, c ∈ candidates s ->
     exists r, initial_results (candidates s) !! Candidate.id c = Some r /\
               Result.votes r = 0) /\
  (forall c, c ∈ candidates s ->
     exists r, getElectionResults s !! Candidate.id c = Some r /\
               Result.votes r = count (votes_for (Candidate.id c)) (sealed_transactions s)) /\
  (forall k, is_Some (getElectionResults s !! k) <-> known_candidate s k) /\
  total_votes (getElectionResults s)
  = count (votes_for_roster (candidates s)) (sealed_transactions s) /\
  ((forall voterId candidateId timestamp,
      Vote voterId candidateId timestamp ∈ sealed_transactions s ->
      known_candidate s candidateId) ->
   total_votes (getElectionResults s) = count is_vote (sealed_transactions s)) /\
  (reachable s ->
   total_votes (getElectionResults s) = count is_vote (sealed_transactions s)).
Proof.
  assert (Hinit : forall c, c ∈ candidates s ->
            exists r, initial_results (candidates s) !! Candidate.id c = Some r /\
                      Result.votes r = 0).
  { intros c Hc.
    assert (Hk : known_candidate s (Candidate.id c)) by (exists c; auto).
    apply initial_results_known in Hk. destruct Hk as [r Hr].
    exists r. split; [exact Hr|]. apply (initial_results_zero _ _ _ Hr). }
  assert (Htotal : total_votes (getElectionResults s)
                   = count (votes_for_roster (candidates s)) (sealed_transactions s)).
  { rewrite getElectionResults_fold, total_votes_count_transactions, total_votes_initial.
    unfold count. rewrite (List.filter_ext _ _ (roster_vote_known s)). lia. }
  assert (Hall : (forall voterId candidateId timestamp,
                    Vote voterId candidateId timestamp ∈ sealed_transactions s ->
                    known_candidate s candidateId) ->
                 total_votes (getElectionResults s) = count is_vote (sealed_transactions s)).
  { intros Hknown. rewrite Htotal. unfold count. f_equal. f_equal.
    apply List.filter_ext_in. intros [v c t|a n t] Hin; [|reflexivity]. simpl.
    apply some_candidate_known. apply (Hknown v c t). apply list_elem_of_In. exact Hin. }
  split; [exact Hinit|]. split; [|split; [|split; [exact Htotal|split; [exact Hall|]]]].
  - intros c Hc. destruct (Hinit c Hc) as (r & Hr & Hz).
    rewrite getElectionResults_fold, lookup_count_transactions, Hr. simpl.
    eexists. split; [reflexivity|]. simpl. rewrite Hz. lia.
  - intros k. rewrite getElectionResults_fold, lookup_count_transactions, fmap_is_Some.
    apply initial_results_known.
  - intros Hr. apply Hall. intros v c t Hin. apply (reachable_sealed_known s v c t Hr Hin).
Qed.

(** C7 on the state the sample run ends in: one vote, for ["candidateA"]. *)
Lemma getElectionResults_tally_sample :
  (exists r, getElectionResults sample_mined !! "candidateA" = Some r /\ Result.votes r = 1) /\
  total_votes (getElectionResults sample_mined) = 1 /\
  count is_vote (sealed_transactions sample_mined) = 1.
Proof.
  destruct (getElectionResults_tally sample_mined) as (_ & Hentry & _ & _ & _ & Hreach).
  assert (Hcount : count is_vote (sealed_transactions sample_mined) = 1)
    by (vm_compute; reflexivity).
  assert (Hroster : candidates sample_mined = seeded_candidates)
    by (vm_compute; reflexivity).
  split; [|split; [|exact Hcount]].
  - destruct (Hentry (Candidate.mk "candidateA" "Alice Smith")) as (r & Hr & Hv).
    + rewrite Hroster. apply list_elem_of_here.
    + exists r. split; [exact Hr|]. rewrite Hv. vm_compute. reflexivity.
  - rewrite (Hreach sample_mined_reachable). exact Hcount.
Defined.

(** ** Admission of a vote: the frame *)

(** C6: a call of [createVote] that throws leaves the whole state as it
    was; a call that returns appends one vote with the given ids at the end
    of the pending pool and writes nothing else: the chain, the arrays other
    than the pool, the two sets of voters, the roster, the open flag and the
    constants are unchanged.  The voter is not in [votedUsers] then, and is
    in it after the next run of [minePendingTransactions] that saves its
    block. *)
Theorem createVote_frame voterId candidateId now s :
  let result := fst (createVote voterId candidateId now s) in
  let s' := snd (createVote voterId candidateId now s) in
  (forall e, result = Throw e -> s' = s) /\
  (forall r, result = Return r ->
     r = true /\
     pending s' = pending s ++ [Vote voterId candidateId now] /\
     pendingTransactions s' = pendingTransactions s /\
     (forall a, a <> pendingTransactions s -> heap s' !! a = heap s !! a) /\
     chain s' = chain s /\
     (forall b, b ∈ chain s -> data b <> Transactions (pendingTransactions s) ->
        transactions_of (heap s') b = transactions_of (heap s) b /\
        calculateHash (heap s') b = calculateHash (heap s) b) /\
     votedUsers s' = votedUsers s /\
     registeredVoters s' = registeredVoters s /\
     candidates s' = candidates s /\
     isElectionOpen s' = isElectionOpen s /\
     difficulty s' = difficulty s /\
     miningReward s' = miningReward s /\
     isLoaded s' = isLoaded s /\
     (voterId ∉ votedUsers s') /\
     (forall fuel minerAddress now_block now_reward r'' s'',
        chain s <> [] ->
        minePendingTransactions fuel minerAddress now_block true now_reward s'
        = Some (r'', s'') ->
        voterId ∈ votedUsers s'')).
Proof.
  cbv zeta. createVote_cases voterId candidateId s;
    (split; [intros e He; try reflexivity; discriminate He
            |intros r Hret; try discriminate Hret]).
  injection Hret as <-.
  set (s' := with_heap (push (heap s) (pendingTransactions s)
                          (Vote voterId candidateId now)) s).
  assert (Hframe : forall a, a <> pendingTransactions s ->
            push (heap s) (pendingTransactions s) (Vote voterId candidateId now) !! a
            = heap s !! a) by (intros a Ha; apply lookup_push_ne; exact Ha).
  assert (Hpending : pending s' = pending s ++ [Vote voterId candidateId now]).
  { unfold pending, s'. read_fields. apply elements_at_push. }
  split; [reflexivity|]. split; [exact Hpending|]. split; [reflexivity|].
  split; [exact Hframe|]. split; [reflexivity|]. split.
  { intros b Hb Hne. split.
    - apply transactions_of_ext. intros a Ha. apply Hframe. congruence.
    - apply calculateHash_ext. intros a Ha. apply Hframe. congruence. }
  do 7 (split; [first [reflexivity|exact Hopen]|]). split; [exact Hd|].
  intros fuel minerAddress now_block now_reward r'' s'' Hchain Hmine.
  assert (Hne : pending s' <> []) by (rewrite Hpending; destruct (pending s); discriminate).
  destruct (minePendingTransactions_cases _ _ _ _ _ _ _ _ Hmine)
    as [(Hp' & _)|[(_ & Hc' & _)|(_ & latest & nb & _ & _ & Hdata & Hend)]];
    [contradiction|contradiction|].
  destruct Hend as [(Hs & _)|(_ & _ & ->)]; [discriminate Hs|].
  destruct (after_mining_facts minerAddress now_reward s' nb Hne Hdata)
    as (_ & _ & _ & _ & _ & _ & _ & _ & F9 & _).
  rewrite F9. apply elem_of_mark_voted. right. split; [exact Hv|].
  exists candidateId, now. rewrite Hpending. apply elem_of_app. right.
  apply list_elem_of_here.
Qed.

(** ** The operations on the sample run *)

Lemma sample_open_roster : candidates sample_open = seeded_candidates.
Proof. reflexivity. Qed.

Lemma sample_candidateA_known s :
  candidates s = seeded_candidates -> known_candidate s "candidateA".
Proof.
  intros H. exists (Candidate.mk "candidateA" "Alice Smith"). rewrite H.
  split; [apply list_elem_of_here|reflexivity].
Qed.

(** C1 on the states of the sample run, one call per outcome. *)
Lemma createVote_checks_in_order_sample :
  fst (createVote "v1" "candidateA" "1700000000000" sample_registered)
  = Throw ElectionClosed /\
  fst (createVote "v1" "" "1700000000000" sample_open)
  = Throw (InvalidInput "Invalid vote: voterId and candidateId are required.") /\
  fst (createVote "v1" "candidateZ" "1700000000000" sample_open)
  = Throw (UnknownCandidate "candidateZ") /\
  fst (createVote "ghost" "candidateA" "1700000000000" sample_open)
  = Throw (VoterNotRegistered "ghost") /\
  fst (createVote "v1" "candidateA" "1700000004000" sample_mined)
  = Throw (DuplicateVote "v1") /\
  fst (createVote "v1" "candidateA" "1700000000000" sample_open) = Return true.
Proof.
  assert (Hroster : candidates sample_mined = seeded_candidates)
    by (vm_compute; reflexivity).
  split; [|split; [|split; [|split; [|split]]]].
  - apply (createVote_checks_in_order "v1" "candidateA" "1700000000000" sample_registered).
    reflexivity.
  - apply (createVote_checks_in_order "v1" "" "1700000000000" sample_open);
      [reflexivity|right; reflexivity].
  - apply (createVote_checks_in_order "v1" "candidateZ" "1700000000000" sample_open);
      [reflexivity|discriminate|discriminate|].
    apply some_candidate_unknown. reflexivity.
  - apply (createVote_checks_in_order "ghost" "candidateA" "1700000000000" sample_open);
      [reflexivity|discriminate|discriminate|apply sample_candidateA_known; reflexivity|].
    apply (bool_decide_eq_false_1 ("ghost" ∈ registeredVoters sample_open)).
    vm_compute. reflexivity.
  - apply (createVote_checks_in_order "v1" "candidateA" "1700000004000" sample_mined);
      [vm_compute; reflexivity|discriminate|discriminate
      |apply sample_candidateA_known; exact Hroster| |].
    + apply (bool_decide_eq_true_1 ("v1" ∈ registeredVoters sample_mined)).
      vm_compute. reflexivity.
    + apply (bool_decide_eq_true_1 ("v1" ∈ votedUsers sample_mined)).
      vm_compute. reflexivity.
  - apply (createVote_checks_in_order "v1" "candidateA" "1700000000000" sample_open);
      [reflexivity|discriminate|discriminate|apply sample_candidateA_known; reflexivity| |].
    + apply (bool_decide_eq_true_1 ("v1" ∈ registeredVoters sample_open)).
      vm_compute. reflexivity.
    + apply (bool_decide_eq_false_1 ("v1" ∈ votedUsers sample_open)).
      vm_compute. reflexivity.
Defined.

(** C6 on the sample run. *)
Lemma createVote_frame_sample :
  snd (createVote "ghost" "candidateA" "1700000000000" sample_open) = sample_open /\
  pending sample_voted = pending sample_open ++ [Vote "v1" "candidateA" "1700000000000"] /\
  chain sample_voted = chain sample_open /\
  ("v1" ∉ votedUsers sample_voted) /\
  "v1" ∈ votedUsers sample_mined.
Proof.
  destruct (createVote_frame "ghost" "candidateA" "1700000000000" sample_open) as [Hfail _].
  destruct (createVote_frame "v1" "candidateA" "1700000000000" sample_open) as [_ Hok].
  split.
  - apply (Hfail (VoterNotRegistered "ghost")). vm_compute. reflexivity.
  - destruct (Hok true ltac:(vm_compute; reflexivity))
      as (_ & Hp & _ & _ & Hc & _ & _ & _ & _ & _ & _ & _ & _ & Hv & Hnext).
    split; [exact Hp|]. split; [exact Hc|]. split; [exact Hv|].
    apply (Hnext 10%nat (Some "election-authority-miner") "1700000001008" "1700000001500"
             (Return (Mined sample_first_block)) sample_mined);
      [discriminate|exact sample_mining_result].
Defined.

(** C8 on the sample run. *)
Lemma registerVoter_outcomes_sample :
  fst (registerVoter "" sample_genesis) = Throw (InvalidInput "Voter ID cannot be empty.") /\
  snd (registerVoter "" sample_genesis) = sample_genesis /\
  fst (registerVoter "v1" sample_genesis) = Return true /\
  registeredVoters sample_registered = {["v1"]} ∪ registeredVoters sample_genesis /\
  fst (registerVoter "v1" sample_registered) = Return false /\
  snd (registerVoter "v1" sample_registered) = sample_registered.
Proof.
  destruct (registerVoter_outcomes "" sample_genesis) as (Hempty & _ & _).
  destruct (registerVoter_outcomes "v1" sample_genesis) as (_ & _ & Hnew).
  destruct (registerVoter_outcomes "v1" sample_registered) as (_ & Hold & _).
  destruct (Hempty eq_refl) as [E1 E2].
  destruct Hnew as (N1 & N2 & _); [discriminate| |].
  { apply (bool_decide_eq_false_1 ("v1" ∈ registeredVoters sample_genesis)).
    vm_compute. reflexivity. }
  destruct Hold as (O1 & O2); [discriminate| |].
  { apply (bool_decide_eq_true_1 ("v1" ∈ registeredVoters sample_registered)).
    vm_compute. reflexivity. }
  repeat split; assumption.
Defined.

(** C5 on the sample run: the genesis-only chain and the mined chain are
    valid, the chain with an altered vote is not. *)
Lemma isChainValid_spec_sample :
  fst (isChainValid sample_genesis) = true /\
  fst (isChainValid sample_mined) = true /\
  fst (isChainValid sample_altered) = false /\
  snd (isChainValid sample_altered) = sample_altered.
Proof.
  destruct (isChainValid_spec sample_genesis) as (_ & _ & _ & Hg & _).
  destruct (isChainValid_spec sample_mined) as (_ & _ & _ & _ & Hm).
  destruct (isChainValid_spec sample_altered) as (Hs & _ & _ & _ & Ha).
  assert (Hc : chain sample_mined = [createGenesisBlock; sample_first_block])
    by (vm_compute; reflexivity).
  assert (Hc' : chain sample_altered = [createGenesisBlock; sample_first_block])
    by (vm_compute; reflexivity).
  split; [apply Hg; reflexivity|]. split; [|split; [|exact Hs]].
  - apply Hm; [rewrite Hc; discriminate|]. rewrite Hc.
    apply checks_pass_cons. split; [vm_compute; reflexivity|]. split; [reflexivity|].
    apply checks_pass_single.
  - apply not_true_is_false. intros E.
    apply Ha in E; [|rewrite Hc'; discriminate]. rewrite Hc' in E.
    apply checks_pass_cons in E. destruct E as [E _]. vm_compute in E. discriminate E.
Defined.

(** ** Further properties of admission and sealing *)

Lemma createVote_accepts voterId candidateId now s :
  fst (createVote voterId candidateId now s) = Return true <->
  (isElectionOpen s = true /\ voterId <> "" /\ candidateId <> "" /\
   known_candidate s candidateId /\ voterId ∈ registeredVoters s /\
   (voterId ∉ votedUsers s)).
Proof.
  createVote_cases voterId candidateId s;
    (split; [intros H|intros (H1 & H2 & H3 & H4 & H5 & H6)]);
    try discriminate H; try congruence; try contradiction; try reflexivity.
  repeat split; auto.
Qed.

Lemma createVote_accepted_state voterId candidateId now s :
  fst (createVote voterId candidateId now s) = Return true ->
  snd (createVote voterId candidateId now s)
  = with_heap (push (heap s) (pendingTransactions s) (Vote voterId candidateId now)) s.
Proof.
  createVote_cases voterId candidateId s; intros H; try discriminate H. reflexivity.
Qed.

Lemma createVote_refuses_voted voterId candidateId now s :
  isElectionOpen s = true -> voterId <> "" -> candidateId <> "" ->
  known_candidate s candidateId -> voterId ∈ registeredVoters s ->
  voterId ∈ votedUsers s ->
  fst (createVote voterId candidateId now s) = Throw (DuplicateVote voterId).
Proof.
  intros H1 H2 H3 H4 H5 H6.
  createVote_cases voterId candidateId s; try reflexivity; congruence || contradiction.
Qed.

(** X1: once a vote of a voter has been admitted and the pool mined with
    the block saved, a further vote of that voter for a candidate of the
    roster is refused as a duplicate. *)
Theorem duplicate_vote_after_sealing voterId candidateId now s
    fuel minerAddress now_block now_reward r s2 candidateId' now' :
  fst (createVote voterId candidateId now s) = Return true ->
  chain s <> [] ->
  minePendingTransactions fuel minerAddress now_block true now_reward
    (snd (createVote voterId candidateId now s)) = Some (r, s2) ->
  candidateId' <> "" -> known_candidate s candidateId' ->
  fst (createVote voterId candidateId' now' s2) = Throw (DuplicateVote voterId).
Proof.
  intros Hok Hchain Hmine Hc' Hk'.
  pose proof (proj1 (createVote_accepts _ _ _ _) Hok) as (Hopen & Hv & _ & _ & Hreg & _).
  rewrite (createVote_accepted_state _ _ _ _ Hok) in Hmine.
  set (s1 := with_heap (push (heap s) (pendingTransactions s)
                          (Vote voterId candidateId now)) s) in *.
  assert (Hpending : pending s1 = pending s ++ [Vote voterId candidateId now]).
  { unfold pending, s1. read_fields. apply elements_at_push. }
  assert (Hne : pending s1 <> []) by (rewrite Hpending; destruct (pending s); discriminate).
  destruct (minePendingTransactions_cases _ _ _ _ _ _ _ _ Hmine)
    as [(Hp' & _)|[(_ & Hc0 & _)|(_ & latest & nb & _ & _ & Hdata & Hend)]];
    [contradiction|contradiction|].
  destruct Hend as [(Hs & _)|(_ & _ & ->)]; [discriminate Hs|].
  destruct (after_mining_facts minerAddress now_reward s1 nb Hne Hdata)
    as (_ & _ & _ & _ & _ & _ & _ & _ & F9 & F10 & F11 & F12).
  apply createVote_refuses_voted; [| exact Hv | exact Hc' | | |].
  - rewrite F12. exact Hopen.
  - unfold known_candidate in *. rewrite F11. exact Hk'.
  - rewrite F10. exact Hreg.
  - rewrite F9. apply elem_of_mark_voted. right. split; [exact Hv|].
    exists candidateId, now. rewrite Hpending. apply elem_of_app. right.
    apply list_elem_of_here.
Qed.

(** X1 on the sample run. *)
Lemma duplicate_vote_after_sealing_sample :
  fst (createVote "v1" "candidateB" "1700000005000" sample_mined)
  = Throw (DuplicateVote "v1").
Proof.
  apply (duplicate_vote_after_sealing "v1" "candidateA" "1700000000000" sample_open
           10%nat (Some "election-authority-miner") "1700000001008" "1700000001500"
           (Return (Mined sample_first_block)) sample_mined "candidateB" "1700000005000").
  - vm_compute. reflexivity.
  - discriminate.
  - exact sample_mining_result.
  - discriminate.
  - exists (Candidate.mk "candidateB" "Bob Johnson"). split; [|reflexivity].
    apply list_elem_of_further, list_elem_of_here.
Defined.

(** X2: the duplicate check reads [votedUsers] only, which a pending vote
    has not reached: a second vote of the same voter, made before the pool
    is mined, is admitted as well, and both votes are in the pool. *)
Theorem pending_vote_is_no_duplicate voterId candidateId now candidateId' now' s :
  fst (createVote voterId candidateId now s) = Return true ->
  candidateId' <> "" -> known_candidate s candidateId' ->
  let s1 := snd (createVote voterId candidateId now s) in
  fst (createVote voterId candidateId' now' s1) = Return true /\
  pending (snd (createVote voterId candidateId' now' s1))
  = pending s ++ [Vote voterId candidateId now; Vote voterId candidateId' now'].
Proof.
  intros Hok Hc' Hk' s1. subst s1.
  pose proof (proj1 (createVote_accepts _ _ _ _) Hok) as (Hopen & Hv & _ & _ & Hreg & Hnv).
  rewrite (createVote_accepted_state _ _ _ _ Hok).
  set (s1 := with_heap (push (heap s) (pendingTransactions s)
                          (Vote voterId candidateId now)) s).
  assert (Hok' : fst (createVote voterId candidateId' now' s1) = Return true).
  { apply createVote_accepts. repeat split; auto. }
  split; [exact Hok'|].
  rewrite (createVote_accepted_state _ _ _ _ Hok'). unfold pending, s1. read_fields.
  rewrite !elements_at_push, <- app_assoc. reflexivity.
Qed.

(** X2 on the sample run. *)
Lemma pending_vote_is_no_duplicate_sample :
  fst (createVote "v1" "candidateB" "1700000000500" sample_voted) = Return true /\
  pending (snd (createVote "v1" "candidateB" "1700000000500" sample_voted))
  = [Vote "v1" "candidateA" "1700000000000"; Vote "v1" "candidateB" "1700000000500"].
Proof.
  destruct (pending_vote_is_no_duplicate "v1" "candidateA" "1700000000000"
              "candidateB" "1700000000500" sample_open) as [H1 H2].
  - vm_compute. reflexivity.
  - discriminate.
  - exists (Candidate.mk "candidateB" "Bob Johnson"). split; [|reflexivity].
    apply list_elem_of_further, list_elem_of_here.
  - split; [exact H1|]. unfold sample_voted. rewrite H2. vm_compute. reflexivity.
Defined.

(** X3: [isChainValid] returns [true] in every reachable state. *)
Theorem reachable_chain_valid s : reachable s -> fst (isChainValid s) = true.
Proof.
  intros H. destruct (reachable_invariant s H) as [_ Hne _ Hhash Hlink _ _].
  unfold isChainValid. destruct (chain s) as [|genesis rest] eqn:E; [contradiction|].
  simpl. apply valid_from_checks. intros i cur prev Hi Hcur Hprev. split.
  - apply (Hhash i cur Hcur).
  - apply (Hlink i cur prev Hi Hcur Hprev).
Qed.

(** X3 on the sample run. *)
Lemma reachable_chain_valid_sample : fst (isChainValid sample_mined) = true.
Proof. apply reachable_chain_valid. exact sample_mined_reachable. Defined.

(** X4: the chain is append-only.  A step from a reachable state keeps
    the blocks of the chain in place, adds blocks at the end only, and leaves
    the transactions of every block of the chain as they were. *)
Theorem sealed_blocks_are_kept s s' :
  reachable s -> step s s' ->
  (exists added, chain s' = chain s ++ added) /\
  (forall b, b ∈ chain s -> transactions_of (heap s') b = transactions_of (heap s) b).
Proof.
  intros Hreach Hstep. pose proof (reachable_invariant s Hreach) as [[Hpd Harr] _ _ _ _ _ _].
  assert (Hdom : forall b a, b ∈ chain s -> data b = Transactions a -> a ∈ dom (heap s))
    by (intros b a Hb Ha; apply (Harr b a Hb Ha)).
  destruct Hstep as [v c now s|fuel addr t1 saved t2 s r s' Hmine|addr t2 nb s Hnb|v s|st s].
  - destruct (createVote_state v c now s) as [->|(_ & _ & ->)].
    + split; [exists []; symmetry; apply app_nil_r|reflexivity].
    + split; [exists []; symmetry; apply app_nil_r|].
      intros b Hb. apply transactions_of_ext. intros a Ha. read_fields.
      apply lookup_push_ne. apply (Harr b a Hb Ha).
  - destruct (minePendingTransactions_cases _ _ _ _ _ _ _ _ Hmine)
      as [(_ & _ & ->)|[(_ & _ & _ & ->)|(_ & latest & nb & _ & _ & _ & Hend)]].
    + split; [exists []; symmetry; apply app_nil_r|reflexivity].
    + split; [exists []; symmetry; apply app_nil_r|].
      intros b Hb. apply transactions_of_ext. intros a Ha. read_fields.
      apply heap_with_copy_old. apply (Hdom b a Hb Ha).
    + destruct Hend as [(_ & _ & ->)|(_ & _ & ->)].
      * split; [exists [nb]; reflexivity|].
        intros b Hb. apply transactions_of_ext. intros a Ha. unfold after_push. read_fields.
        apply heap_with_copy_old. apply (Hdom b a Hb Ha).
      * split; [exists [nb]; reflexivity|].
        intros b Hb. apply transactions_of_ext. intros a Ha.
        unfold after_mining, after_push. read_fields.
        apply heap_after_mining_old. apply (Hdom b a Hb Ha).
  - rewrite after_save_unfold. cbv zeta.
    split; [exists []; symmetry; apply app_nil_r|].
    intros b Hb. apply transactions_of_ext. intros a Ha. read_fields.
    apply heap_after_save_old. apply (Hdom b a Hb Ha).
  - unfold registerVoter.
    destruct (negb (truthy (Some v))); [|destruct (bool_decide (v ∈ registeredVoters s))];
      (split; [exists []; symmetry; apply app_nil_r|reflexivity]).
  - destruct st as [b|]; (split; [exists []; symmetry; apply app_nil_r|reflexivity]).
Qed.

(** X4 on the sample run: the vote after the first block leaves the block as
    it is. *)
Lemma sealed_blocks_are_kept_sample :
  transactions_of (heap (snd (createVote "v2" "candidateB" "1700000006000" sample_mined)))
                  sample_first_block
  = [Vote "v1" "candidateA" "1700000000000"].
Proof.
  destruct (sealed_blocks_are_kept sample_mined
              (snd (createVote "v2" "candidateB" "1700000006000" sample_mined))
              sample_mined_reachable (step_createVote _ _ _ _)) as [_ H].
  rewrite (H sample_first_block).
  - vm_compute. reflexivity.
  - apply list_elem_of_In. vm_compute. right. left. reflexivity.
Defined.

(** * Further properties: the proof-of-work, the tally, the database and the routes *)

(** ** The proof-of-work loop: the nonce it stops at *)

(** After a turn of the loop the stored hash is the hash of the entry
    fields at the nonce reached. *)
Lemma iter_next_nonce_hash k h b :
  hash (Nat.iter (S k) (next_nonce h) b)
  = calculateHash h (mkBlock (index b) (timestamp b) (data b) (previousHash b)
                             (nonce b + N.of_nat (S k)) "").
Proof.
  destruct (iter_next_nonce_fields (S k) h b) as (Hi & Ht & Hd & Hp & Hn).
  rewrite <- Hi, <- Ht, <- Hd, <- Hp, <- Hn. reflexivity.
Qed.

(** X5: [mineBlock] stops at the first nonce that seals, as long as
    the nonce it returns is at most 2^53.  Up to there [this.nonce++] adds
    one, which is what [next_nonce] does; above, the number no longer grows
    by one and the loop of the source goes another way.  A block whose
    stored hash begins with the zeros comes back as it is; otherwise the
    nonce grows, by no more turns than the fuel allows, and at no nonce
    strictly between the one on entry and the one returned does the hash
    of the fields begin with the zeros. *)
Theorem mineBlock_first_nonce fuel h d b b' :
  mineBlock fuel h d b = Some b' ->
  nonce b' <= 2 ^ 53 ->
  (starts_with_zeros d (hash b) -> b' = b) /\
  (~ starts_with_zeros d (hash b) -> nonce b < nonce b') /\
  nonce b' <= nonce b + N.of_nat fuel /\
  (forall n, nonce b < n < nonce b' ->
     ~ starts_with_zeros d
         (calculateHash h (mkBlock (index b) (timestamp b) (data b) (previousHash b) n ""))).
Proof.
  intros H _. destruct (mineBlock_turns _ _ _ _ _ H) as (k & Hk & -> & Hs & Hmin).
  destruct (iter_next_nonce_fields k h b) as (_ & _ & _ & _ & Hn).
  split; [|split; [|split]].
  - intros Hz. apply sealed_starts_with_zeros in Hz.
    destruct k as [|k]; [reflexivity|].
    pose proof (Hmin O ltac:(lia)) as Hf. simpl in Hf. congruence.
  - intros Hz. destruct k as [|k]; [|rewrite Hn; lia].
    exfalso. apply Hz. apply sealed_starts_with_zeros. exact Hs.
  - rewrite Hn. lia.
  - intros n [Hlo Hhi] Hz. rewrite Hn in Hhi.
    destruct (N.to_nat (n - nonce b)) as [|j] eqn:Ej; [lia|].
    assert (Hj : (S j < k)%nat) by lia.
    pose proof (Hmin (S j) Hj) as Hf.
    assert (Ht : sealed d (Nat.iter (S j) (next_nonce h) b) = true).
    { apply sealed_starts_with_zeros. rewrite iter_next_nonce_hash.
      replace (nonce b + N.of_nat (S j)) with n by lia. exact Hz. }
    congruence.
Qed.

(** X5 on the sample block: the loop stops at nonce 3, and the hashes at
    the nonces 1 and 2 do not begin with three zeros. *)
Lemma mineBlock_first_nonce_sample :
  nonce sample_sealed = 3 /\
  forall n, 0 < n < 3 ->
    ~ starts_with_zeros 3
        (calculateHash sample_heap
           (mkBlock 1 "1700000001008" (Transactions 1)
              "cde05f0d512665008d1e9b46b510852107f8847033471dfab3bf7dd2add9c7e2" n "")).
Proof.
  assert (H : mineBlock 10 sample_heap 3 sample_block = Some sample_sealed)
    by (vm_compute; reflexivity).
  assert (Hn : nonce sample_sealed <= 2 ^ 53) by (vm_compute; discriminate).
  destruct (mineBlock_first_nonce 10 sample_heap 3 sample_block sample_sealed H Hn)
    as (_ & _ & _ & Hfirst).
  split; [reflexivity|]. exact Hfirst.
Defined.

(** ** The proof-of-work loop: a difficulty no hash can meet *)

Lemma string_app_length (s t : string) :
  String.length (s +:+ t) = (String.length s + String.length t)%nat.
Proof. induction s as [|c s IH]; simpl; [reflexivity|]. rewrite IH. reflexivity. Qed.

Lemma hex32_length x : String.length (Sha256.hex32 x) = 8%nat.
Proof. reflexivity. Qed.

(** A digest is printed as 64 characters. *)
Lemma SHA256_length m : String.length (SHA256 m) = 64%nat.
Proof.
  with_strategy transparent [SHA256] (unfold SHA256).
  destruct (Sha256.digest _) as [a b c d e f g h]. unfold Sha256.hex.
  rewrite !string_app_length, !hex32_length. reflexivity.
Qed.

Lemma zeros_length d : String.length (zeros d) = d.
Proof. induction d as [|d IH]; simpl; [reflexivity|]. rewrite IH. reflexivity. Qed.

Lemma sealed_length d b : sealed d b = true -> (d <= String.length (hash b))%nat.
Proof.
  intros H. apply sealed_starts_with_zeros in H. destruct H as [rest ->].
  rewrite string_app_length, zeros_length. lia.
Qed.

(** X6: a difficulty above the length of a digest is never met.  When
    [difficulty] exceeds 64 and the length of the stored hash, the loop of
    [mineBlock] does not end: no number of turns returns a block. *)
Theorem mineBlock_never_ends_beyond_digest fuel h d b :
  (64 < d)%nat -> (String.length (hash b) < d)%nat ->
  mineBlock fuel h d b = None.
Proof.
  intros Hd. revert b. induction fuel as [|fuel IH]; intros b Hb; simpl.
  - destruct (sealed d b) eqn:E; [|reflexivity].
    apply sealed_length in E. lia.
  - destruct (sealed d b) eqn:E.
    + apply sealed_length in E. lia.
    + apply IH. rewrite next_nonce_consistent. unfold calculateHash.
      rewrite SHA256_length. exact Hd.
Qed.

(** X6 on the sample block at difficulty 65. *)
Lemma mineBlock_never_ends_beyond_digest_sample :
  mineBlock 1000 sample_heap 65 sample_block = None.
Proof.
  apply mineBlock_never_ends_beyond_digest; [lia|].
  change (hash sample_block) with (calculateHash sample_heap sample_block).
  unfold calculateHash. rewrite SHA256_length. lia.
Defined.

(** ** What no operation takes back *)

Lemma mark_voted_grows ts voted : voted ⊆ foldl mark_voted voted ts.
Proof. intros v Hv. apply elem_of_mark_voted. left. exact Hv. Qed.

(** X7: no operation takes a voter out of [registeredVoters] or of
    [votedUsers], or changes the roster, the difficulty, the reward or the
    loaded flag; and the open flag changes by [setElectionStatus] only. *)
Theorem step_keeps_voters s s' :
  step s s' ->
  votedUsers s ⊆ votedUsers s' /\
  registeredVoters s ⊆ registeredVoters s' /\
  candidates s' = candidates s /\ difficulty s' = difficulty s /\
  miningReward s' = miningReward s /\ isLoaded s' = isLoaded s /\
  (isElectionOpen s' = isElectionOpen s \/
   exists status, s' = snd (setElectionStatus (Some status) s)).
Proof.
  intros Hstep.
  destruct Hstep as [v c now s|fuel addr t1 saved t2 s r s' Hmine|addr t2 nb s Hnb|v s|st s].
  - destruct (createVote_state v c now s) as [->|(_ & _ & ->)]; repeat split; auto.
  - destruct (minePendingTransactions_cases _ _ _ _ _ _ _ _ Hmine)
      as [(_ & _ & ->)|[(_ & _ & _ & ->)|(_ & latest & nb & _ & _ & _ & Hend)]];
      [repeat split; auto|repeat split; auto|].
    destruct Hend as [(_ & _ & ->)|(_ & _ & ->)]; [repeat split; auto|].
    split; [|repeat split; auto].
    unfold after_mining, after_push. read_fields. apply mark_voted_grows.
  - rewrite after_save_unfold. cbv zeta. split; [|repeat split; auto].
    read_fields. destruct (Array_isArray (data nb)); [apply mark_voted_grows|reflexivity].
  - unfold registerVoter.
    destruct (negb (truthy (Some v))); [repeat split; auto|].
    destruct (bool_decide (v ∈ registeredVoters s)); [repeat split; auto|].
    split; [reflexivity|]. split; [|repeat split; auto].
    read_fields. apply union_subseteq_r.
  - destruct st as [b|]; [|repeat split; auto].
    split; [reflexivity|]. split; [reflexivity|]. repeat split; eauto.
Qed.

(** X7 on the sample run: the mining of the vote of ["v1"] keeps ["v1"]
    registered. *)
Lemma step_keeps_voters_sample :
  "v1" ∈ registeredVoters sample_mined /\ candidates sample_mined = seeded_candidates.
Proof.
  destruct (step_keeps_voters sample_voted sample_mined
              (step_minePendingTransactions _ _ _ _ _ _ _ _ sample_mining_result))
    as (_ & Hr & Hc & _).
  split.
  - apply Hr. apply (bool_decide_eq_true_1 ("v1" ∈ registeredVoters sample_voted)).
    vm_compute. reflexivity.
  - rewrite Hc. vm_compute. reflexivity.
Defined.

(** ** Mining and the open flag *)

(** X8: mining does not read the open flag.  A run of
    [minePendingTransactions] after [setElectionStatus] does what it does
    before it, so the votes admitted while the election was open are sealed
    all the same once it is closed. *)
Theorem mining_ignores_election_status fuel minerAddress now_block saved now_reward status s :
  minePendingTransactions fuel minerAddress now_block saved now_reward
    (snd (setElectionStatus (Some status) s))
  = (fun result : outcome MineResult * Blockchain =>
       (fst result, snd (setElectionStatus (Some status) (snd result))))
      <$> minePendingTransactions fuel minerAddress now_block saved now_reward s.
Proof.
  unfold minePendingTransactions, setElectionStatus, pending, getLatestBlock, deep_copy, alloc.
  cbn [snd]. read_fields.
  destruct (Nat.eqb _ 0); [reflexivity|].
  destruct (last (chain s)) as [latest|]; [|reflexivity].
  destruct (mineBlock _ _ _ _) as [newBlock|]; [|reflexivity].
  destruct saved; [|reflexivity].
  cbn [negb fmap option_fmap option_map fst snd]. unfold after_save, alloc. read_fields.
  destruct (truthy minerAddress); reflexivity.
Qed.

(** ** The tally along the operations *)

Lemma flat_map_transactions_ext h h' (c : list Block) :
  (forall b, b ∈ c -> transactions_of h' b = transactions_of h b) ->
  List.flat_map (transactions_of h') c = List.flat_map (transactions_of h) c.
Proof.
  induction c as [|b c IH]; intros H; simpl; [reflexivity|].
  rewrite (H b) by apply list_elem_of_here.
  rewrite IH; [reflexivity|]. intros b' Hb'. apply H. apply list_elem_of_further. exact Hb'.
Qed.

(** The sealed transactions stay when the chain stays and the arrays other
    than the pool keep their elements. *)
Lemma sealed_transactions_same s s' :
  invariant s -> chain s' = chain s ->
  (forall a, a ∈ dom (heap s) -> a <> pendingTransactions s -> heap s' !! a = heap s !! a) ->
  sealed_transactions s' = sealed_transactions s.
Proof.
  intros [[_ Harr] _ _ _ _ _ _] Hc Hh. unfold sealed_transactions. rewrite Hc.
  apply flat_map_transactions_ext. intros b Hb. apply transactions_of_ext.
  intros a Ha. destruct (Harr b a Hb Ha) as [H1 H2]. apply Hh; assumption.
Qed.

Lemma getElectionResults_same s s' :
  candidates s' = candidates s -> sealed_transactions s' = sealed_transactions s ->
  getElectionResults s' = getElectionResults s.
Proof. intros Hc Ht. rewrite !getElectionResults_fold, Hc, Ht. reflexivity. Qed.

(** The statements of a mining run after its wait leave the tally. *)
Lemma after_save_keeps_tally minerAddress now_reward newBlock s :
  invariant s ->
  getElectionResults (after_save minerAddress now_reward newBlock s) = getElectionResults s.
Proof.
  intros Hinv. rewrite after_save_unfold. cbv zeta.
  apply getElectionResults_same; [reflexivity|].
  apply (sealed_transactions_same s _ Hinv); [reflexivity|].
  intros a Ha _. read_fields. apply heap_after_save_old. exact Ha.
Qed.

(** X9: the tally changes by mining only.  In a reachable state
    [createVote], [registerVoter], [setElectionStatus] and the statements
    of a mining run after its wait leave [getElectionResults] as it is: a
    vote counts once it is in a block, and the pushes on the pool do not
    reach the arrays of the blocks. *)
Theorem tally_changes_by_mining_only s :
  reachable s ->
  (forall voterId candidateId now,
     getElectionResults (snd (createVote voterId candidateId now s)) = getElectionResults s) /\
  (forall voterId,
     getElectionResults (snd (registerVoter voterId s)) = getElectionResults s) /\
  (forall status,
     getElectionResults (snd (setElectionStatus status s)) = getElectionResults s) /\
  (forall minerAddress now_reward newBlock,
     getElectionResults (after_save minerAddress now_reward newBlock s) = getElectionResults s).
Proof.
  intros Hr. pose proof (reachable_invariant s Hr) as Hinv.
  split; [|split; [|split]].
  - intros v c now. destruct (createVote_state v c now s) as [->|(_ & _ & ->)]; [reflexivity|].
    apply getElectionResults_same; [reflexivity|].
    apply (sealed_transactions_same s _ Hinv); [reflexivity|].
    intros a _ Ha. read_fields. apply lookup_push_ne. exact Ha.
  - intros v. unfold registerVoter.
    destruct (negb (truthy (Some v))); [reflexivity|].
    destruct (bool_decide (v ∈ registeredVoters s)); reflexivity.
  - intros [b|]; reflexivity.
  - intros addr t2 nb. apply after_save_keeps_tally. exact Hinv.
Qed.

(** X9 on the sample run: after the mining ["v2"] is registered and
    votes for ["candidateB"]; the vote is pending and the tally is as it
    was. *)
Lemma tally_changes_by_mining_only_sample :
  fst (createVote "v2" "candidateB" "1700000006000" (snd (registerVoter "v2" sample_mined)))
  = Return true /\
  getElectionResults
    (snd (createVote "v2" "candidateB" "1700000006000" (snd (registerVoter "v2" sample_mined))))
  = getElectionResults sample_mined.
Proof.
  assert (Hr : reachable (snd (registerVoter "v2" sample_mined))).
  { apply (reachable_step sample_mined); [exact sample_mined_reachable|].
    apply step_registerVoter. }
  destruct (tally_changes_by_mining_only _ Hr) as (H & _).
  split; [vm_compute; reflexivity|]. rewrite H.
  destruct (tally_changes_by_mining_only _ sample_mined_reachable) as (_ & H' & _).
  apply H'.
Defined.

Lemma sealed_transactions_snoc s s' newBlock :
  chain s' = chain s ++ [newBlock] ->
  (forall b, b ∈ chain s -> transactions_of (heap s') b = transactions_of (heap s) b) ->
  sealed_transactions s'
  = sealed_transactions s ++ transactions_of (heap s') newBlock.
Proof.
  intros Hc Hold. unfold sealed_transactions. rewrite Hc, List.flat_map_app. simpl.
  rewrite app_nil_r. f_equal. apply flat_map_transactions_ext. exact Hold.
Qed.

(** A run of [minePendingTransactions] seals the pool, whether the write of
    its block succeeds or not. *)
Lemma mining_seals_pool fuel minerAddress now_block saved now_reward s r s' :
  invariant s ->
  minePendingTransactions fuel minerAddress now_block saved now_reward s = Some (r, s') ->
  sealed_transactions s' = sealed_transactions s ++ pending s /\
  candidates s' = candidates s.
Proof.
  intros Hinv Hmine. pose proof Hinv as [[Hpd Harr] Hne _ _ _ _ _].
  assert (Hdom : forall b a, b ∈ chain s -> data b = Transactions a -> a ∈ dom (heap s))
    by (intros b a Hb Ha; apply (Harr b a Hb Ha)).
  destruct (minePendingTransactions_cases _ _ _ _ _ _ _ _ Hmine)
    as [(Hp & _ & ->)|[(_ & Hc & _)|(Hp & latest & nb & _ & _ & Hd & Hend)]].
  - rewrite Hp, app_nil_r. split; reflexivity.
  - contradiction.
  - destruct Hend as [(_ & _ & ->)|(_ & _ & ->)].
    + split; [|reflexivity].
      rewrite (sealed_transactions_snoc s (after_push s nb) nb).
      * f_equal. unfold transactions_of, elements_at, after_push. read_fields.
        rewrite Hd, heap_with_copy_copy. reflexivity.
      * reflexivity.
      * intros b Hb. apply transactions_of_ext. intros a Ha. unfold after_push. read_fields.
        apply heap_with_copy_old. apply (Hdom b a Hb Ha).
    + destruct (after_mining_facts minerAddress now_reward s nb Hp Hd)
        as (F1 & _ & _ & _ & F5 & _ & F7 & _ & _ & _ & F11 & _).
      split; [|exact F11].
      rewrite (sealed_transactions_snoc s _ nb F1).
      * rewrite F5. reflexivity.
      * intros b Hb. apply (F7 b Hb). intros a Ha. apply (Hdom b a Hb Ha).
Qed.

(** X10: a run of [minePendingTransactions] in a reachable state adds the
    pending transactions to the sealed ones, and each entry of
    [getElectionResults] gains the number of pending votes for its
    candidate; this holds for a run whose block is not saved as well. *)
Theorem mining_counts_pending_votes fuel minerAddress now_block saved now_reward s r s' :
  reachable s ->
  minePendingTransactions fuel minerAddress now_block saved now_reward s = Some (r, s') ->
  sealed_transactions s' = sealed_transactions s ++ pending s /\
  forall k,
    getElectionResults s' !! k
    = (fun entry => Result.mk (Result.name entry)
                      (Result.votes entry + count (votes_for k) (pending s)))
        <$> getElectionResults s !! k.
Proof.
  intros Hr Hmine.
  destruct (mining_seals_pool _ _ _ _ _ _ _ _ (reachable_invariant s Hr) Hmine) as [Ht Hc].
  split; [exact Ht|]. intros k.
  rewrite !getElectionResults_fold, Hc, Ht, foldl_app.
  apply lookup_count_transactions.
Qed.

(** X10 on the sample run: the mining of the vote of ["v1"] gives
    ["candidateA"] its first vote. *)
Lemma mining_counts_pending_votes_sample :
  getElectionResults sample_mined !! "candidateA" = Some (Result.mk "Alice Smith" 1).
Proof.
  destruct (mining_counts_pending_votes 10 (Some "election-authority-miner")
              "1700000001008" true "1700000001500" sample_voted
              (Return (Mined sample_first_block)) sample_mined
              sample_voted_reachable sample_mining_result) as [_ H].
  rewrite (H "candidateA"). vm_compute. reflexivity.
Defined.

(** ** Sorting by a key *)

Section sort_by.
Context {A : Type} (key : A -> N).

Lemma insert_by_not_nil x l : insert_by key x l <> [].
Proof. destruct l as [|y l]; simpl; [discriminate|]. destruct (key x <=? key y); discriminate. Qed.

Lemma sort_by_nil l : sort_by key l = [] -> l = [].
Proof.
  destruct l as [|x l]; [reflexivity|]. unfold sort_by. simpl. intros H.
  destruct (insert_by_not_nil _ _ H).
Qed.

Lemma insert_by_Permutation x l : insert_by key x l ≡ₚ x :: l.
Proof.
  induction l as [|y l IH]; simpl; [reflexivity|].
  destruct (key x <=? key y); [reflexivity|]. rewrite IH. apply Permutation_swap.
Qed.

Lemma sort_by_Permutation l : sort_by key l ≡ₚ l.
Proof.
  induction l as [|x l IH]; [reflexivity|]. unfold sort_by in *. simpl.
  rewrite insert_by_Permutation, IH. reflexivity.
Qed.

(** Two elements of different keys go in in either order. *)
Lemma insert_by_comm x y l :
  key x <> key y ->
  insert_by key x (insert_by key y l) = insert_by key y (insert_by key x l).
Proof.
  intros Hne. induction l as [|z l IH]; simpl.
  - destruct (N.leb_spec (key x) (key y)), (N.leb_spec (key y) (key x));
      try reflexivity; lia.
  - destruct (key x <=? key z) eqn:Exz, (key y <=? key z) eqn:Eyz; simpl;
      rewrite ?Exz, ?Eyz;
      destruct (key x <=? key y) eqn:Exy, (key y <=? key x) eqn:Eyx;
      try reflexivity;
      rewrite ?N.leb_le, ?N.leb_gt in *; try lia.
    all: rewrite IH; reflexivity.
Qed.

(** When the keys differ, the sorted list does not depend on the order of
    the list that is sorted. *)
Lemma sort_by_order_irrelevant l l' :
  l ≡ₚ l' -> NoDup (List.map key l) -> sort_by key l = sort_by key l'.
Proof.
  unfold sort_by. induction 1 as [|x l l' Hp IH|x y l|l l' l'' Hp IH Hp' IH']; intros Hnd.
  - reflexivity.
  - simpl. rewrite IH; [reflexivity|]. simpl in Hnd. apply NoDup_cons in Hnd. apply Hnd.
  - simpl. apply insert_by_comm. simpl in Hnd.
    apply NoDup_cons in Hnd. destruct Hnd as [Hnd _]. intros E. apply Hnd.
    rewrite E. apply list_elem_of_here.
  - rewrite IH by exact Hnd. apply IH'.
    revert Hnd. apply NoDup_Permutation_proper. apply Permutation_map. symmetry. exact Hp.
Qed.

Lemma sort_by_rising l : rising key l -> sort_by key l = l.
Proof.
  unfold sort_by. induction l as [|x l IH]; [reflexivity|]. intros [Hall Hr].
  simpl. rewrite (IH Hr). destruct l as [|y l]; [reflexivity|]. simpl.
  apply Forall_cons in Hall. destruct Hall as [Hy _].
  destruct (N.leb_spec (key x) (key y)); [reflexivity|lia].
Qed.

Lemma rising_keys_differ l : rising key l -> NoDup (List.map key l).
Proof.
  induction l as [|x l IH]; simpl; [intros _; apply NoDup_nil_2|]. intros [Hall Hr].
  apply NoDup_cons. split; [|exact (IH Hr)].
  intros Hin. apply list_elem_of_In, List.in_map_iff in Hin. destruct Hin as (y & Hk & Hy).
  rewrite Forall_forall in Hall. apply list_elem_of_In in Hy.
  specialize (Hall y Hy). lia.
Qed.

(** A list that is a rearrangement of a list of rising keys sorts to it. *)
Lemma sort_by_restores l c : l ≡ₚ c -> rising key c -> sort_by key l = c.
Proof.
  intros Hp Hs. rewrite (sort_by_order_irrelevant l c Hp).
  - apply sort_by_rising. exact Hs.
  - apply (NoDup_Permutation_proper _ _ (Permutation_map key Hp)).
    apply rising_keys_differ. exact Hs.
Qed.

Lemma rising_without l1 x l2 : rising key (l1 ++ x :: l2) -> rising key (l1 ++ l2).
Proof.
  induction l1 as [|y l1 IH]; simpl.
  - intros [_ H]. exact H.
  - intros [Hall Hr]. split; [|exact (IH Hr)].
    rewrite Forall_app in Hall. destruct Hall as [H1 H2].
    apply Forall_cons in H2. rewrite Forall_app. split; [exact H1|apply H2].
Qed.
End sort_by.

Lemma map_insert_by {A B : Type} (f : A -> B) (key : A -> N) (key' : B -> N) x l :
  (forall x, key' (f x) = key x) ->
  List.map f (insert_by key x l) = insert_by key' (f x) (List.map f l).
Proof.
  intros H. induction l as [|y l IH]; simpl; [reflexivity|].
  rewrite !H. destruct (key x <=? key y); simpl; [reflexivity|]. rewrite IH. reflexivity.
Qed.

Lemma map_sort_by {A B : Type} (f : A -> B) (key : A -> N) (key' : B -> N) l :
  (forall x, key' (f x) = key x) ->
  List.map f (sort_by key l) = sort_by key' (List.map f l).
Proof.
  intros H. unfold sort_by. induction l as [|x l IH]; simpl; [reflexivity|].
  rewrite (map_insert_by f key key' _ _ H), IH. reflexivity.
Qed.

(** The blocks of a chain that is indexed rise in [index]. *)
Lemma indexed_rising c : indexed c -> rising index c.
Proof.
  assert (H : forall k, (forall i b, c !! i = Some b -> index b = N.of_nat (k + i)) ->
                        rising index c).
  { induction c as [|x c IH]; intros k Hk; [exact I|]. split.
    - apply Forall_forall. intros y Hy. apply list_elem_of_lookup in Hy.
      destruct Hy as [i Hi]. rewrite (Hk O x eq_refl), (Hk (S i) y Hi). lia.
    - apply (IH (S k)). intros i b Hb. rewrite (Hk (S i) b Hb). f_equal. lia. }
  intros Hidx. apply (H O). exact Hidx.
Qed.

Lemma rising_map {A B : Type} (f : A -> B) (key : A -> N) (key' : B -> N) l :
  (forall x, key' (f x) = key x) -> rising key l -> rising key' (List.map f l).
Proof.
  intros H. induction l as [|x l IH]; simpl; [auto|]. intros [Hall Hr]. split; [|auto].
  apply Forall_forall. intros y Hy. apply list_elem_of_In, List.in_map_iff in Hy.
  destruct Hy as (z & <- & Hz). rewrite !H. rewrite Forall_forall in Hall.
  apply Hall. apply list_elem_of_In. exact Hz.
Qed.

(** ** Blocks and their documents *)

Lemma cons_eq_inv {A : Type} (x y : A) (l l' : list A) :
  x :: l = y :: l' -> x = y /\ l = l'.
Proof. intros H. injection H. auto. Qed.

(** What the engine reads of a block is in its document. *)
Lemma block_document_reads h1 b1 h2 b2 :
  block_document h1 b1 = block_document h2 b2 ->
  index b1 = index b2 /\ hash b1 = hash b2 /\ previousHash b1 = previousHash b2 /\
  calculateHash h1 b1 = calculateHash h2 b2 /\
  transactions_of h1 b1 = transactions_of h2 b2.
Proof.
  unfold block_document, calculateHash, transactions_of, JSON_stringify.
  intros H. injection H as Hi Ht Hd Hp Hn Hh. rewrite Hi, Ht, Hp, Hn.
  repeat split; auto.
  - destruct (data b1), (data b2); try discriminate Hd; injection Hd as Hd; rewrite Hd;
      reflexivity.
  - destruct (data b1), (data b2); try discriminate Hd; injection Hd as Hd; auto.
Qed.

Lemma valid_from_documents h1 h2 c1 : forall p1 p2 c2,
  block_document h1 p1 = block_document h2 p2 ->
  List.map (block_document h1) c1 = List.map (block_document h2) c2 ->
  valid_from h1 p1 c1 = valid_from h2 p2 c2.
Proof.
  induction c1 as [|b1 c1 IH]; intros p1 p2 [|b2 c2] Hp Hc; try discriminate Hc;
    [reflexivity|].
  cbn [List.map] in Hc. apply cons_eq_inv in Hc. destruct Hc as [Hb Hc]. simpl.
  destruct (block_document_reads _ _ _ _ Hb) as (_ & Hh & Hprev & Hcalc & _).
  destruct (block_document_reads _ _ _ _ Hp) as (_ & Hh' & _).
  rewrite Hh, Hprev, Hcalc, Hh'. rewrite (IH b1 b2 c2 Hb Hc). reflexivity.
Qed.

Lemma isChainValid_documents s1 s2 :
  List.map (block_document (heap s1)) (chain s1)
  = List.map (block_document (heap s2)) (chain s2) ->
  fst (isChainValid s1) = fst (isChainValid s2).
Proof.
  unfold isChainValid. destruct (chain s1) as [|p1 c1], (chain s2) as [|p2 c2];
    intros H; try discriminate H; [reflexivity|].
  cbn [List.map] in H. apply cons_eq_inv in H. destruct H as [Hp Hc]. simpl.
  apply valid_from_documents; assumption.
Qed.

Lemma sealed_transactions_documents s1 s2 :
  List.map (block_document (heap s1)) (chain s1)
  = List.map (block_document (heap s2)) (chain s2) ->
  sealed_transactions s1 = sealed_transactions s2.
Proof.
  unfold sealed_transactions. generalize (chain s2).
  induction (chain s1) as [|b1 c1 IH]; intros [|b2 c2] H; try discriminate H; [reflexivity|].
  cbn [List.map] in H. apply cons_eq_inv in H. destruct H as [Hb Hc]. simpl.
  destruct (block_document_reads _ _ _ _ Hb) as (_ & _ & _ & _ & Ht).
  rewrite Ht, (IH c2 Hc). reflexivity.
Qed.

Lemma block_document_weaken (h h' : gmap positive (list Transaction)) b :
  h ⊆ h' -> (forall a, data b = Transactions a -> a ∈ dom h) ->
  block_document h' b = block_document h b.
Proof.
  intros Hsub Hdom. unfold block_document. destruct (data b) as [t|a] eqn:E; [reflexivity|].
  specialize (Hdom a eq_refl). apply elem_of_dom in Hdom. destruct Hdom as [ts Hts].
  unfold elements_at. rewrite Hts, (lookup_weaken h h' a ts Hts Hsub). reflexivity.
Qed.

(** ** Reading the documents of the blocks *)

Lemma document_data_spec h d b h' :
  document_data h d = (b, h') ->
  h ⊆ h' /\ block_document h' b = d /\ (forall a, data b = Transactions a -> a ∈ dom h').
Proof.
  unfold document_data, alloc. destruct d as [i t [text|ts] p n x]; simpl; intros H;
    injection H as <- <-.
  - split; [reflexivity|]. split; [reflexivity|]. intros a Ha. discriminate Ha.
  - split; [|split].
    + apply insert_subseteq. apply not_elem_of_dom. exact (is_fresh (dom h)).
    + unfold block_document, elements_at. simpl. rewrite lookup_insert_eq. reflexivity.
    + intros a Ha. injection Ha as <-. rewrite dom_insert_L. apply elem_of_union. left.
      apply elem_of_singleton. reflexivity.
Qed.

Lemma read_documents_spec docs : forall h bs h',
  read_documents h docs = (bs, h') ->
  h ⊆ h' /\ List.map (block_document h') bs = docs /\
  (forall b a, b ∈ bs -> data b = Transactions a -> a ∈ dom h').
Proof.
  induction docs as [|d docs IH]; intros h bs h' H; simpl in H.
  - injection H as <- <-. split; [reflexivity|]. split; [reflexivity|].
    intros b a Hb. inversion Hb.
  - destruct (document_data h d) as [b h1] eqn:E1.
    destruct (read_documents h1 docs) as [bs' h2] eqn:E2. injection H as <- <-.
    destruct (document_data_spec _ _ _ _ E1) as (S1 & D1 & A1).
    destruct (IH _ _ _ E2) as (S2 & D2 & A2).
    split; [transitivity h1; assumption|]. split.
    + simpl. rewrite D2, (block_document_weaken h1 h2 b S2 A1), D1. reflexivity.
    + intros b' a Hb' Ha. apply elem_of_cons in Hb'. destruct Hb' as [->|Hb'].
      * apply (subseteq_dom _ _ S2). apply (A1 a Ha).
      * apply (A2 b' a Hb' Ha).
Qed.

Lemma read_documents_length docs : forall h,
  List.length (fst (read_documents h docs)) = List.length docs.
Proof.
  induction docs as [|d docs IH]; intros h; simpl; [reflexivity|].
  destruct (document_data h d) as [b h1]. specialize (IH h1).
  destruct (read_documents h1 docs) as [bs h2]. simpl in *. rewrite IH. reflexivity.
Qed.

(** [new Block] keeps a stored hash that is not empty. *)
Lemma block_document_loaded h b :
  hash b <> "" -> block_document h (loaded_block h b) = block_document h b.
Proof.
  intros Hne. unfold loaded_block, new_Block. rewrite (proj2 (truthy_Some _) Hne).
  reflexivity.
Qed.

Lemma loaded_chain_documents h bs :
  (forall b, b ∈ bs -> hash b <> "") ->
  List.map (block_document h) (List.map (loaded_block h) (sort_by index bs))
  = sort_by doc_index (List.map (block_document h) bs).
Proof.
  intros Hne. rewrite List.map_map.
  rewrite <- (map_sort_by (block_document h) index doc_index) by reflexivity.
  apply List.map_ext_in. intros b Hb. apply block_document_loaded. apply Hne.
  apply list_elem_of_In. revert Hb. apply Permutation_in. apply sort_by_Permutation.
Qed.

(** ** Loading: the state it leaves *)

(** Reads the fields of a state the load built. *)
Ltac read_loaded :=
  unfold load_fallback, with_isLoaded; read_fields.

Lemma load_election_state_frame state s :
  heap (load_election_state state s) = heap s /\
  chain (load_election_state state s) = chain s /\
  pendingTransactions (load_election_state state s) = pendingTransactions s /\
  candidates (load_election_state state s) = candidates s /\
  isLoaded (load_election_state state s) = isLoaded s.
Proof.
  unfold load_election_state.
  destruct (doc_votedUsers state), (doc_registeredVoters state), (doc_isElectionOpen state);
    repeat split.
Qed.

Lemma load_election_state_fields state s voted registered open :
  doc_votedUsers state = Some voted -> doc_registeredVoters state = Some registered ->
  doc_isElectionOpen state = Some open ->
  votedUsers (load_election_state state s) = new_Set voted /\
  registeredVoters (load_election_state state s) = new_Set registered /\
  isElectionOpen (load_election_state state s) = open.
Proof.
  unfold load_election_state. intros -> -> ->. repeat split.
Qed.

Lemma load_fallback_fields s :
  chain (load_fallback s) = [createGenesisBlock] /\
  votedUsers (load_fallback s) = ∅ /\ registeredVoters (load_fallback s) = ∅ /\
  isElectionOpen (load_fallback s) = false /\ isLoaded (load_fallback s) = true /\
  candidates (load_fallback s) = candidates s /\
  heap (load_fallback s) = heap s /\
  pendingTransactions (load_fallback s) = pendingTransactions s.
Proof. destruct s. repeat split. Qed.

(** A load that finds documents and reads the election state. *)
Lemma load_reads_documents d docs genesis_saved snapshot state_saved now t :
  let s' := fst (loadChainAndElectionStateFromDatabase true (Some (d :: docs)) genesis_saved
                   (Some snapshot) state_saved now t) in
  exists bs,
    read_documents (heap t) (d :: docs) = (bs, heap s') /\
    chain s' = List.map (loaded_block (heap s')) (sort_by index bs) /\
    isLoaded s' = true /\ candidates s' = candidates t /\
    pendingTransactions s' = pendingTransactions t.
Proof.
  unfold loadChainAndElectionStateFromDatabase. cbv beta iota zeta delta [negb].
  destruct (read_documents (heap t) (d :: docs)) as [bs h] eqn:E.
  destruct snapshot as [state|]; cbn [fst]; exists bs.
  - destruct (load_election_state_frame state
                (with_chain (List.map (loaded_block h) (sort_by index bs)) (with_heap h t)))
      as (Hh & Hc & Hp & Hcand & _).
    unfold with_isLoaded. cbn [heap chain candidates pendingTransactions isLoaded].
    rewrite Hh, Hc, Hp, Hcand. read_fields. repeat split.
  - read_loaded. repeat split.
Qed.

(** A chain whose blocks carry the hash of their fields is valid when it
    is linked. *)
Lemma invariant_chain_valid s : invariant s -> fst (isChainValid s) = true.
Proof.
  intros [_ Hne _ Hhash Hlink _ _].
  unfold isChainValid. destruct (chain s) as [|genesis rest] eqn:E; [contradiction|].
  simpl. apply valid_from_checks. intros i cur prev Hi Hcur Hprev. split.
  - apply (Hhash i cur Hcur).
  - apply (Hlink i cur prev Hi Hcur Hprev).
Qed.

Lemma SHA256_not_empty m : SHA256 m <> "".
Proof.
  intros E. pose proof (SHA256_length m) as H. rewrite E in H. discriminate H.
Qed.

(** The documents a load keeps, when those it finds are the documents of
    blocks of rising index whose hashes are not empty. *)
Lemma load_restores_documents docs c genesis_saved snapshot state_saved now t :
  docs ≡ₚ c -> c <> [] -> rising doc_index c ->
  (forall d, d ∈ c -> doc_hash d <> "") ->
  let s' := fst (loadChainAndElectionStateFromDatabase true (Some docs) genesis_saved
                   (Some snapshot) state_saved now t) in
  List.map (block_document (heap s')) (chain s') = c /\
  isLoaded s' = true /\ candidates s' = candidates t.
Proof.
  intros Hperm Hne Hrise Hhash.
  destruct docs as [|d docs].
  { apply Permutation_nil_l in Hperm. congruence. }
  intros s'.
  destruct (load_reads_documents d docs genesis_saved snapshot state_saved now t)
    as (bs & Hread & Hchain & Hloaded & Hcand & _).
  fold s' in Hread, Hchain, Hloaded, Hcand. clearbody s'.
  destruct (read_documents_spec _ _ _ _ Hread) as (_ & Hdocs & _).
  split; [|split; assumption].
  rewrite Hchain, loaded_chain_documents.
  - rewrite Hdocs. apply sort_by_restores; assumption.
  - intros b Hb. apply (Hhash (block_document (heap s') b)).
    apply list_elem_of_In. apply (Permutation_in _ Hperm). rewrite <- Hdocs.
    apply List.in_map, list_elem_of_In, Hb.
Qed.

Lemma chain_documents_rising s :
  invariant s ->
  chain s <> [] /\
  rising doc_index (List.map (block_document (heap s)) (chain s)) /\
  (forall d, d ∈ List.map (block_document (heap s)) (chain s) -> doc_hash d <> "").
Proof.
  intros [_ Hne Hidx Hhash _ _ _]. split; [exact Hne|]. split.
  - apply (rising_map (block_document (heap s)) index doc_index); [reflexivity|].
    apply indexed_rising. exact Hidx.
  - intros d Hd. apply list_elem_of_In, List.in_map_iff in Hd. destruct Hd as (b & <- & Hb).
    apply list_elem_of_In, list_elem_of_lookup in Hb. destruct Hb as [i Hi].
    change (doc_hash (block_document (heap s) b)) with (hash b).
    rewrite (Hhash i b Hi). apply SHA256_not_empty.
Qed.

(** What the documents of a chain fix: the block at each index up to its
    array, hence the indices and the links. *)
Lemma documents_lookup h1 h2 c1 : forall c2 i b1,
  List.map (block_document h1) c1 = List.map (block_document h2) c2 ->
  c1 !! i = Some b1 ->
  exists b2, c2 !! i = Some b2 /\ block_document h1 b1 = block_document h2 b2.
Proof.
  induction c1 as [|x c1 IH]; intros [|y c2] i b1 H Hb; try discriminate H;
    [discriminate Hb|].
  cbn [List.map] in H. apply cons_eq_inv in H. destruct H as [Hx Hc].
  destruct i as [|i].
  - injection Hb as <-. exists y. split; [reflexivity|exact Hx].
  - apply (IH c2 i b1 Hc Hb).
Qed.

Lemma documents_keep_shape h1 c1 h2 c2 :
  List.map (block_document h1) c1 = List.map (block_document h2) c2 ->
  (indexed c2 -> indexed c1) /\ (linked c2 -> linked c1).
Proof.
  intros H. split.
  - intros Hidx i b1 Hb.
    destruct (documents_lookup _ _ _ _ _ _ H Hb) as (b2 & Hb2 & Hd).
    destruct (block_document_reads _ _ _ _ Hd) as (-> & _).
    apply (Hidx i b2 Hb2).
  - intros Hlink i cur prev Hi Hcur Hprev.
    destruct (documents_lookup _ _ _ _ _ _ H Hcur) as (cur2 & Hcur2 & Hdc).
    destruct (documents_lookup _ _ _ _ _ _ H Hprev) as (prev2 & Hprev2 & Hdp).
    destruct (block_document_reads _ _ _ _ Hdc) as (_ & _ & -> & _).
    destruct (block_document_reads _ _ _ _ Hdp) as (_ & -> & _).
    apply (Hlink i cur2 prev2 Hi Hcur2 Hprev2).
Qed.

(** X11: a restart restores the blocks and the tally.  When the query
    yields the documents of the blocks of a reachable chain, in any order,
    and the election state is read, the load leaves a chain whose blocks
    have these documents in the order of the chain: each block has the
    stored index, timestamp, [previousHash], nonce and hash, and its array
    holds the stored transactions.  The index of each block is its place in
    the chain, its [previousHash] is the stored hash of the block before
    it, and [getElectionResults] is what it was when the roster is the
    same.  The hashes [isChainValid] recomputes on the loaded blocks are
    left out: they follow the order in which the database hands back the
    keys of each transaction. *)
Theorem restart_restores_chain s docs genesis_saved snapshot state_saved now t :
  reachable s ->
  docs ≡ₚ List.map (block_document (heap s)) (chain s) ->
  let s' := fst (loadChainAndElectionStateFromDatabase true (Some docs) genesis_saved
                   (Some snapshot) state_saved now t) in
  List.map (block_document (heap s')) (chain s')
  = List.map (block_document (heap s)) (chain s) /\
  isLoaded s' = true /\
  indexed (chain s') /\
  linked (chain s') /\
  (candidates t = candidates s -> getElectionResults s' = getElectionResults s).
Proof.
  intros Hr Hperm s'. pose proof (reachable_invariant s Hr) as Hinv.
  destruct (chain_documents_rising s Hinv) as (Hne & Hrise & Hhash).
  assert (Hne' : List.map (block_document (heap s)) (chain s) <> []).
  { destruct (chain s); [contradiction|discriminate]. }
  destruct (load_restores_documents docs _ genesis_saved snapshot state_saved now t
              Hperm Hne' Hrise Hhash) as (Hdocs & Hloaded & Hcand).
  fold s' in Hdocs, Hloaded, Hcand.
  destruct (documents_keep_shape _ _ _ _ Hdocs) as (Hidx & Hlink).
  split; [exact Hdocs|]. split; [exact Hloaded|].
  split; [apply Hidx, (inv_indexed s Hinv)|].
  split; [apply Hlink, (inv_linked s Hinv)|].
  intros Ht. apply getElectionResults_same.
  - rewrite Hcand. exact Ht.
  - apply sealed_transactions_documents. exact Hdocs.
Qed.

(** X11 on the sample run: the two documents of its chain, the later one
    first, are loaded into a new engine. *)
Lemma restart_restores_chain_sample :
  List.map hash
    (chain (fst (loadChainAndElectionStateFromDatabase true
                   (Some (List.rev (List.map (block_document (heap sample_mined))
                                             (chain sample_mined))))
                   true (Some None) true "1700000009000" new_Blockchain)))
  = List.map hash (chain sample_mined) /\
  getElectionResults
    (fst (loadChainAndElectionStateFromDatabase true
            (Some (List.rev (List.map (block_document (heap sample_mined))
                                      (chain sample_mined))))
            true (Some None) true "1700000009000" new_Blockchain))
  = getElectionResults sample_mined.
Proof.
  destruct (restart_restores_chain sample_mined
              (List.rev (List.map (block_document (heap sample_mined)) (chain sample_mined)))
              true None true "1700000009000" new_Blockchain sample_mined_reachable)
    as (Hdocs & _ & _ & _ & Htally).
  - symmetry. apply Permutation_rev.
  - split; [|apply Htally; vm_compute; reflexivity].
    apply (f_equal (List.map doc_hash)) in Hdocs.
    rewrite !List.map_map in Hdocs. exact Hdocs.
Defined.

(** ** Loading: the election state *)

(** X12: a restart restores the election state.  The document
    [saveElectionStateToDatabase] writes, read back by the load, gives
    [votedUsers], [registeredVoters] and the open flag the values they had
    when it was written; the roster is not taken from the document. *)
Theorem restart_restores_election_state
    initialized saved now s document docs genesis_saved state_saved now' t :
  SetElectionState document ∈ saveElectionStateToDatabase initialized saved now s ->
  (docs = [] -> genesis_saved = true) ->
  let s' := fst (loadChainAndElectionStateFromDatabase true (Some docs) genesis_saved
                   (Some (Some document)) state_saved now' t) in
  votedUsers s' = votedUsers s /\ registeredVoters s' = registeredVoters s /\
  isElectionOpen s' = isElectionOpen s /\ isLoaded s' = true /\
  candidates s' = candidates t.
Proof.
  intros Hw Hg s'.
  assert (Hdoc : document
                 = mkStateDocument (Some (Array_from (votedUsers s)))
                     (Some (Array_from (registeredVoters s)))
                     (candidates s) (Some (isElectionOpen s)) now).
  { unfold saveElectionStateToDatabase in Hw.
    destruct (negb initialized); [inversion Hw|]. destruct saved; [|inversion Hw].
    apply list_elem_of_singleton in Hw. injection Hw as ->. reflexivity. }
  assert (Hfields : forall s1,
            votedUsers (load_election_state document s1) = votedUsers s /\
            registeredVoters (load_election_state document s1) = registeredVoters s /\
            isElectionOpen (load_election_state document s1) = isElectionOpen s).
  { intros s1.
    destruct (load_election_state_fields document s1 (Array_from (votedUsers s))
                (Array_from (registeredVoters s)) (isElectionOpen s))
      as (H1 & H2 & H3); try (rewrite Hdoc; reflexivity).
    rewrite H1, H2, H3. unfold new_Set, Array_from.
    rewrite !list_to_set_elements_L. repeat split. }
  subst s'. unfold loadChainAndElectionStateFromDatabase. cbv beta iota zeta delta [negb].
  destruct docs as [|d docs].
  - rewrite (Hg eq_refl). cbn [fst].
    set (s1 := with_chain (chain t ++ [createGenesisBlock]) t).
    destruct (Hfields s1) as (H1 & H2 & H3).
    destruct (load_election_state_frame document s1) as (_ & _ & _ & Hc & _).
    unfold with_isLoaded. cbn [votedUsers registeredVoters isElectionOpen isLoaded candidates].
    rewrite H1, H2, H3, Hc. repeat split.
  - destruct (read_documents (heap t) (d :: docs)) as [bs h]. cbn [fst].
    set (s1 := with_chain (List.map (loaded_block h) (sort_by index bs)) (with_heap h t)).
    destruct (Hfields s1) as (H1 & H2 & H3).
    destruct (load_election_state_frame document s1) as (_ & _ & _ & Hc & _).
    unfold with_isLoaded. cbn [votedUsers registeredVoters isElectionOpen isLoaded candidates].
    rewrite H1, H2, H3, Hc. repeat split.
Qed.

(** X12 on the sample run: the state saved after the mining is read back
    into a new engine that finds no block. *)
Lemma restart_restores_election_state_sample :
  votedUsers
    (fst (loadChainAndElectionStateFromDatabase true (Some []) true
            (Some (Some (mkStateDocument (Some (Array_from (votedUsers sample_mined)))
                           (Some (Array_from (registeredVoters sample_mined)))
                           (candidates sample_mined) (Some (isElectionOpen sample_mined))
                           "1700000001600")))
            true "1700000009000" new_Blockchain))
  = votedUsers sample_mined.
Proof.
  destruct (restart_restores_election_state true true "1700000001600" sample_mined
              (mkStateDocument (Some (Array_from (votedUsers sample_mined)))
                 (Some (Array_from (registeredVoters sample_mined)))
                 (candidates sample_mined) (Some (isElectionOpen sample_mined))
                 "1700000001600")
              [] true true "1700000009000" new_Blockchain) as (H & _).
  - apply list_elem_of_here.
  - reflexivity.
  - exact H.
Defined.

(** ** Loading: the ways it ends *)

Lemma last_snoc_Some {A : Type} (l : list A) : l <> [] -> exists x, last l = Some x.
Proof.
  intros H. destruct (last l) as [x|] eqn:E; [eauto|].
  apply last_None in E. contradiction.
Qed.

(** The state a load ends in, when the database is set up. *)
Lemma load_shape querySnapshot genesis_saved electionStateSnapshot state_saved now t :
  let s' := fst (loadChainAndElectionStateFromDatabase true querySnapshot genesis_saved
                   electionStateSnapshot state_saved now t) in
  isLoaded s' = true /\ chain s' <> [] /\ heap t ⊆ heap s' /\
  pendingTransactions s' = pendingTransactions t /\ candidates s' = candidates t.
Proof.
  intros s'.
  assert (H : exists s1,
             heap t ⊆ heap s1 /\ pendingTransactions s1 = pendingTransactions t /\
             candidates s1 = candidates t /\
             (s' = load_fallback s1 \/
              (chain s1 <> [] /\
               (s' = with_isLoaded true s1 \/
                exists state, s' = with_isLoaded true (load_election_state state s1))))).
  { subst s'. unfold loadChainAndElectionStateFromDatabase.
    cbv beta iota zeta delta [negb].
    destruct querySnapshot as [[|d docs]|].
    - exists (with_chain (chain t ++ [createGenesisBlock]) t).
      split; [reflexivity|]. split; [reflexivity|]. split; [reflexivity|].
      destruct genesis_saved; [|left; reflexivity].
      destruct electionStateSnapshot as [[state|]|]; [right|right|left; reflexivity];
        (split; [read_fields; destruct (chain t); discriminate|]); eauto.
    - pose proof (read_documents_length (d :: docs) (heap t)) as Hlen.
      destruct (read_documents (heap t) (d :: docs)) as [bs h] eqn:E.
      destruct (read_documents_spec _ _ _ _ E) as (Hsub & _).
      exists (with_chain (List.map (loaded_block h) (sort_by index bs)) (with_heap h t)).
      split; [exact Hsub|]. split; [reflexivity|]. split; [reflexivity|].
      assert (Hbs : List.map (loaded_block h) (sort_by index bs) <> []).
      { intros E'. apply List.map_eq_nil in E'. apply sort_by_nil in E'. subst bs.
        discriminate Hlen. }
      destruct electionStateSnapshot as [[state|]|]; [right|right|left; reflexivity];
        (split; [exact Hbs|]); eauto.
    - exists t. split; [reflexivity|]. split; [reflexivity|]. split; [reflexivity|].
      left. reflexivity. }
  clearbody s'. destruct H as (s1 & Hsub & Hp & Hc & [->|(Hne & [->|(state & ->)])]).
  - destruct (load_fallback_fields s1) as (F1 & _ & _ & _ & F5 & F6 & F7 & F8).
    rewrite F1, F5, F6, F7, F8. repeat split; auto; discriminate.
  - unfold with_isLoaded. cbn [isLoaded chain heap pendingTransactions candidates].
    repeat split; auto.
  - destruct (load_election_state_frame state s1) as (G1 & G2 & G3 & G4 & _).
    unfold with_isLoaded. cbn [isLoaded chain heap pendingTransactions candidates].
    rewrite G1, G2, G3, G4. repeat split; auto.
Qed.

(** X13: after a load the chain is not empty and the pool is as it was.
    When the database is set up, the load ends with the loaded flag set and
    a chain that has a last block, whatever the reads yield and whichever of
    them is rejected, so that no [minePendingTransactions] that follows
    ends on the [TypeError] of an empty chain; the pool keeps its elements,
    none on a new engine: pending transactions are not read back.  When the
    database is not set up, the load writes nothing and leaves the state as
    it is. *)
Theorem load_leaves_a_chain
    initialized querySnapshot genesis_saved electionStateSnapshot state_saved now t :
  let result := loadChainAndElectionStateFromDatabase initialized querySnapshot genesis_saved
                  electionStateSnapshot state_saved now t in
  if initialized
  then isLoaded (fst result) = true /\
       (exists latest, getLatestBlock (fst result) = Some latest) /\
       (forall fuel minerAddress now_block saved now_reward r s' text,
          minePendingTransactions fuel minerAddress now_block saved now_reward (fst result)
          = Some (r, s') ->
          r <> Throw (TypeError text)) /\
       (pendingTransactions t ∈ dom (heap t) -> pending (fst result) = pending t)
  else result = (t, []).
Proof.
  intros result. destruct initialized; [|reflexivity].
  destruct (load_shape querySnapshot genesis_saved electionStateSnapshot state_saved now t)
    as (Hl & Hc & Hsub & Hp & _).
  fold result in Hl, Hc, Hsub, Hp. clearbody result.
  split; [exact Hl|]. split; [|split].
  - apply last_snoc_Some. exact Hc.
  - intros fuel addr t1 saved t2 r s' text Hmine E. subst r.
    destruct (minePendingTransactions_cases _ _ _ _ _ _ _ _ Hmine)
      as [(_ & Hr & _)|[(_ & Hc' & _)|(_ & latest & nb & _ & _ & _ & Hend)]].
    + discriminate Hr.
    + contradiction.
    + destruct Hend as [(_ & Hr & _)|(_ & Hr & _)]; discriminate Hr.
  - intros Hdom. unfold pending, elements_at. rewrite Hp.
    apply elem_of_dom in Hdom. destruct Hdom as [ts Hts].
    rewrite Hts, (lookup_weaken _ _ _ _ Hts Hsub). reflexivity.
Qed.

(** X14: a rejected read or write makes the load fall back.  When the
    query of the blocks is rejected, or the write of the genesis block on an
    empty collection, or the read of the election state, the load ends on
    the genesis block alone, with no voter in either set and the election
    closed, whatever documents it had read, and it writes no election
    state. *)
Theorem load_falls_back
    querySnapshot genesis_saved electionStateSnapshot state_saved now t :
  querySnapshot = None \/ (querySnapshot = Some [] /\ genesis_saved = false) \/
  (electionStateSnapshot = None) ->
  let result := loadChainAndElectionStateFromDatabase true querySnapshot genesis_saved
                  electionStateSnapshot state_saved now t in
  chain (fst result) = [createGenesisBlock] /\
  votedUsers (fst result) = ∅ /\ registeredVoters (fst result) = ∅ /\
  isElectionOpen (fst result) = false /\ isLoaded (fst result) = true /\
  candidates (fst result) = candidates t /\
  (forall document, SetElectionState document ∉ snd result).
Proof.
  intros H result.
  assert (Hr : exists s1 writes,
             result = (load_fallback s1, writes) /\ candidates s1 = candidates t /\
             forall document, SetElectionState document ∉ writes).
  { subst result. unfold loadChainAndElectionStateFromDatabase.
    cbv beta iota zeta delta [negb].
    destruct querySnapshot as [[|d docs]|].
    - destruct genesis_saved.
      + destruct H as [H|[[_ H]|H]]; try discriminate H. subst electionStateSnapshot.
        eexists _, _. split; [reflexivity|]. split; [reflexivity|].
        intros document Hd. apply list_elem_of_singleton in Hd. discriminate Hd.
      + eexists _, _. split; [reflexivity|]. split; [reflexivity|].
        intros document Hd. inversion Hd.
    - destruct (read_documents (heap t) (d :: docs)) as [bs h].
      destruct H as [H|[[H _]|H]]; try discriminate H. subst electionStateSnapshot.
      eexists _, _. split; [reflexivity|]. split; [reflexivity|].
      intros document Hd. inversion Hd.
    - eexists _, _. split; [reflexivity|]. split; [reflexivity|].
      intros document Hd. inversion Hd. }
  destruct Hr as (s1 & writes & -> & Hc & Hw). cbn [fst snd].
  destruct (load_fallback_fields s1) as (F1 & F2 & F3 & F4 & F5 & F6 & _).
  rewrite F6, Hc. repeat split; assumption.
Qed.

(** X14 on the documents of the sample run: the read of the election state
    is rejected after the two blocks were read. *)
Lemma load_falls_back_sample :
  chain
    (fst (loadChainAndElectionStateFromDatabase true
            (Some (List.map (block_document (heap sample_mined)) (chain sample_mined)))
            true None true "1700000009000" new_Blockchain))
  = [createGenesisBlock].
Proof.
  destruct (load_falls_back
              (Some (List.map (block_document (heap sample_mined)) (chain sample_mined)))
              true None true "1700000009000" new_Blockchain) as (H & _).
  - right. right. reflexivity.
  - exact H.
Defined.



(** ** Loading: what it does not look at *)

(** X16: the load takes [votedUsers] from the state document alone.  The
    votes in the blocks it loads are not looked at: a registered voter whose
    id is not in the stored [votedUsers] is admitted by [createVote] after
    the load, whatever the loaded blocks hold. *)
Theorem restart_trusts_stored_voters
    docs genesis_saved state state_saved now t voted registered open :
  (docs = [] -> genesis_saved = true) ->
  doc_votedUsers state = Some voted -> doc_registeredVoters state = Some registered ->
  doc_isElectionOpen state = Some open ->
  let s' := fst (loadChainAndElectionStateFromDatabase true (Some docs) genesis_saved
                   (Some (Some state)) state_saved now t) in
  votedUsers s' = new_Set voted /\ registeredVoters s' = new_Set registered /\
  isElectionOpen s' = open /\
  (forall voterId candidateId now_vote,
     open = true -> voterId <> "" -> candidateId <> "" ->
     known_candidate t candidateId ->
     voterId ∈ registered -> voterId ∉ voted ->
     fst (createVote voterId candidateId now_vote s') = Return true).
Proof.
  intros Hg Hv Hr Ho s'.
  assert (H : votedUsers s' = new_Set voted /\ registeredVoters s' = new_Set registered /\
              isElectionOpen s' = open /\ candidates s' = candidates t).
  { subst s'. unfold loadChainAndElectionStateFromDatabase.
    cbv beta iota zeta delta [negb].
    destruct docs as [|d docs].
    - rewrite (Hg eq_refl). cbn [fst].
      set (s1 := with_chain (chain t ++ [createGenesisBlock]) t).
      destruct (load_election_state_fields state s1 voted registered open Hv Hr Ho)
        as (H1 & H2 & H3).
      destruct (load_election_state_frame state s1) as (_ & _ & _ & Hc & _).
      unfold with_isLoaded. cbn [votedUsers registeredVoters isElectionOpen candidates].
      rewrite H1, H2, H3, Hc. repeat split.
    - destruct (read_documents (heap t) (d :: docs)) as [bs h]. cbn [fst].
      set (s1 := with_chain (List.map (loaded_block h) (sort_by index bs)) (with_heap h t)).
      destruct (load_election_state_fields state s1 voted registered open Hv Hr Ho)
        as (H1 & H2 & H3).
      destruct (load_election_state_frame state s1) as (_ & _ & _ & Hc & _).
      unfold with_isLoaded. cbn [votedUsers registeredVoters isElectionOpen candidates].
      rewrite H1, H2, H3, Hc. repeat split. }
  clearbody s'. destruct H as (H1 & H2 & H3 & H4).
  split; [exact H1|]. split; [exact H2|]. split; [exact H3|].
  intros v c now_vote -> Hv' Hc' Hk Hreg Hnot.
  apply createVote_accepts. split; [exact H3|]. split; [exact Hv'|]. split; [exact Hc'|].
  split; [|split].
  - unfold known_candidate in *. rewrite H4. exact Hk.
  - rewrite H2. unfold new_Set. apply elem_of_list_to_set. exact Hreg.
  - rewrite H1. unfold new_Set. rewrite elem_of_list_to_set. exact Hnot.
Qed.

(** X16 on the documents of the sample run: the stored [votedUsers] is
    empty, the loaded chain holds the vote of ["v1"], and ["v1"] is admitted
    again. *)
Lemma restart_trusts_stored_voters_sample :
  Vote "v1" "candidateA" "1700000000000"
  ∈ sealed_transactions
      (fst (loadChainAndElectionStateFromDatabase true
              (Some (List.map (block_document (heap sample_mined)) (chain sample_mined)))
              true
              (Some (Some (mkStateDocument (Some []) (Some ["v1"]) seeded_candidates
                             (Some true) "1700000001400")))
              true "1700000009000" new_Blockchain)) /\
  fst (createVote "v1" "candidateB" "1700000009500"
         (fst (loadChainAndElectionStateFromDatabase true
                 (Some (List.map (block_document (heap sample_mined)) (chain sample_mined)))
                 true
                 (Some (Some (mkStateDocument (Some []) (Some ["v1"]) seeded_candidates
                                (Some true) "1700000001400")))
                 true "1700000009000" new_Blockchain)))
  = Return true.
Proof.
  split.
  - apply list_elem_of_In. vm_compute. left. reflexivity.
  - destruct (restart_trusts_stored_voters
                (List.map (block_document (heap sample_mined)) (chain sample_mined)) true
                (mkStateDocument (Some []) (Some ["v1"]) seeded_candidates
                   (Some true) "1700000001400")
                true "1700000009000" new_Blockchain [] ["v1"] true)
      as (_ & _ & _ & H);
      [intros _; reflexivity|reflexivity|reflexivity|reflexivity|].
    apply H; [reflexivity|discriminate|discriminate| | |].
    + exists (Candidate.mk "candidateB" "Bob Johnson"). split; [|reflexivity].
      apply list_elem_of_further, list_elem_of_here.
    + apply list_elem_of_here.
    + intros Hin. inversion Hin.
Defined.

(** ** Loading a chain with a block missing *)

(** The scan fails where a block does not carry the hash of the block
    before it. *)
Lemma valid_from_break h c1 : forall p n c2 g rest,
  g :: rest = c1 ++ p :: n :: c2 -> previousHash n <> hash p ->
  valid_from h g rest = false.
Proof.
  induction c1 as [|x c1 IH]; intros p n c2 g rest E Hne; simpl in E.
  - injection E as -> ->. simpl.
    destruct (String.eqb (hash n) (calculateHash h n)); [|reflexivity]. simpl.
    destruct (String.eqb_spec (previousHash n) (hash p)); [contradiction|reflexivity].
  - injection E as -> ->.
    destruct (c1 ++ p :: n :: c2) as [|y rest'] eqn:E'.
    { destruct c1; discriminate E'. }
    simpl. destruct (negb (String.eqb (hash y) (calculateHash h y))); [reflexivity|].
    destruct (negb (String.eqb (previousHash y) (hash x))); [reflexivity|].
    apply (IH p n c2 y rest'); [symmetry; exact E'|exact Hne].
Qed.

(** X17: a block whose document is missing breaks the chain at the next
    start.  When the query yields the documents of the blocks of a
    reachable chain but for one block that has a block before and a block
    after it, the chain the load leaves fails [isChainValid], unless the
    missing block and the one before it have the same hash. *)
Theorem restart_without_a_block_is_invalid
    s before previousBlock missing nextBlock after docs genesis_saved snapshot
    state_saved now t :
  reachable s ->
  chain s = before ++ previousBlock :: missing :: nextBlock :: after ->
  docs ≡ₚ List.map (block_document (heap s))
            (before ++ previousBlock :: nextBlock :: after) ->
  hash missing <> hash previousBlock ->
  fst (isChainValid
         (fst (loadChainAndElectionStateFromDatabase true (Some docs) genesis_saved
                 (Some snapshot) state_saved now t))) = false.
Proof.
  intros Hr Hc Hperm Hne. pose proof (reachable_invariant s Hr) as Hinv.
  destruct (chain_documents_rising s Hinv) as (_ & Hrise & Hhash).
  pose proof Hinv as [_ _ Hidx _ Hlink _ _].
  set (kept := before ++ previousBlock :: nextBlock :: after) in *.
  assert (Hsub : forall b, b ∈ kept -> b ∈ chain s).
  { intros b Hb. rewrite Hc. unfold kept in Hb.
    rewrite elem_of_app in *. destruct Hb as [Hb|Hb]; [left; exact Hb|right].
    rewrite !elem_of_cons in *. tauto. }
  assert (Hrise' : rising doc_index (List.map (block_document (heap s)) kept)).
  { apply (rising_map (block_document (heap s)) index doc_index); [reflexivity|].
    pose proof (indexed_rising (chain s) Hidx) as Hrise0. rewrite Hc in Hrise0.
    replace (before ++ previousBlock :: missing :: nextBlock :: after)
      with ((before ++ [previousBlock]) ++ missing :: nextBlock :: after) in Hrise0
      by (rewrite <- app_assoc; reflexivity).
    apply rising_without in Hrise0. rewrite <- app_assoc in Hrise0. exact Hrise0. }
  assert (Hhash' : forall d, d ∈ List.map (block_document (heap s)) kept -> doc_hash d <> "").
  { intros d Hd. apply Hhash. apply list_elem_of_In, List.in_map_iff in Hd.
    destruct Hd as (b & <- & Hb). apply list_elem_of_In, List.in_map, list_elem_of_In.
    apply Hsub. apply list_elem_of_In. exact Hb. }
  assert (Hkept : List.map (block_document (heap s)) kept <> []).
  { unfold kept. destruct before; discriminate. }
  destruct (load_restores_documents docs _ genesis_saved snapshot state_saved now t
              Hperm Hkept Hrise' Hhash') as (Hdocs & _).
  rewrite (isChainValid_documents _ (with_chain kept s) Hdocs).
  assert (Hg : exists g rest, g :: rest = kept).
  { unfold kept. destruct before; eexists _, _; reflexivity. }
  destruct Hg as (g & rest & Eg).
  unfold isChainValid. read_fields. rewrite <- Eg. cbn [fst].
  apply (valid_from_break (heap s) before previousBlock nextBlock after g rest Eg).
  rewrite (Hlink (S (S (List.length before))) nextBlock missing); [exact Hne|lia| |].
  - rewrite Hc. rewrite lookup_app_r by lia.
    replace (S (S (List.length before)) - List.length before)%nat with 2%nat by lia.
    reflexivity.
  - rewrite Hc. rewrite lookup_app_r by lia.
    replace (S (S (List.length before)) - 1 - List.length before)%nat with 1%nat by lia.
    reflexivity.
Qed.

Lemma sample_twice_reachable : reachable sample_twice.
Proof.
  apply (reachable_step sample_unsaved);
    [|exact (step_minePendingTransactions _ _ _ _ _ _ _ _ sample_second_mining_result)].
  apply (reachable_step sample_voted); [exact sample_voted_reachable|].
  exact (step_minePendingTransactions _ _ _ _ _ _ _ _ sample_failed_mining_result).
Qed.

(** X17 on the sample run whose first block was not saved: the documents
    of the genesis block and of the second block make a chain that is not
    valid. *)
Lemma restart_without_a_block_is_invalid_sample :
  fst (isChainValid
         (fst (loadChainAndElectionStateFromDatabase true
                 (Some (List.map (block_document (heap sample_twice))
                                 [createGenesisBlock; sample_second_block]))
                 true (Some None) true "1700000009000" new_Blockchain))) = false.
Proof.
  apply (restart_without_a_block_is_invalid sample_twice [] createGenesisBlock
           sample_first_block sample_second_block []).
  - exact sample_twice_reachable.
  - vm_compute. reflexivity.
  - reflexivity.
  - intros E. vm_compute in E. discriminate E.
Defined.

(** ** The HTTP interface *)

Lemma createVote_returns voterId candidateId now s r :
  fst (createVote voterId candidateId now s) = Return r -> r = true.
Proof. createVote_cases voterId candidateId s; intros H; try discriminate H. congruence. Qed.

Lemma createVote_throws voterId candidateId now s e :
  fst (createVote voterId candidateId now s) = Throw e ->
  snd (createVote voterId candidateId now s) = s.
Proof. createVote_cases voterId candidateId s; intros H; try discriminate H; reflexivity. Qed.

(** The state at the first wait of a run is the state a run whose write is
    rejected ends in. *)
Lemma minePendingTransactions_to_await_spec fuel minerAddress now_block now_reward s :
  minePendingTransactions_to_await fuel now_block s
  = snd <$> minePendingTransactions fuel minerAddress now_block false now_reward s.
Proof.
  unfold minePendingTransactions_to_await, minePendingTransactions, deep_copy, alloc.
  cbv zeta beta iota.
  destruct (Nat.eqb _ 0); [reflexivity|].
  destruct (getLatestBlock s) as [latest|]; [|reflexivity].
  destruct (mineBlock _ _ _ _) as [newBlock|]; reflexivity.
Qed.

Lemma isChainValid_state s : snd (isChainValid s) = s.
Proof. unfold isChainValid. destruct (chain s); reflexivity. Qed.

(** X18: no route answers before the load has ended.  While the loaded
    flag is not set, every request is answered with status 503 and a
    message, and the state stays as it is. *)
Theorem routes_refuse_before_load fuel env request s :
  isLoaded s = false ->
  exists text, handle fuel env request s = Some (Response.mk 503 (Message text), s).
Proof.
  intros H.
  destruct request; unfold handle, post_admin_register_voter, post_admin_set_election_status,
    get, get_blockchain, get_transactions_pending, post_vote, post_mine,
    get_blockchain_isvalid; rewrite H; cbn [negb]; eexists; reflexivity.
Qed.

(** X18 on a new engine: a vote is answered with 503. *)
Lemma routes_refuse_before_load_sample :
  exists text,
    handle 10 (mkEnvironment "1700000000000" "1700000001008" "1700000001500" true)
      (POST_vote "v1" "candidateA") new_Blockchain
    = Some (Response.mk 503 (Message text), new_Blockchain).
Proof.
  apply (routes_refuse_before_load 10
           (mkEnvironment "1700000000000" "1700000001008" "1700000001500" true)
           (POST_vote "v1" "candidateA") new_Blockchain).
  reflexivity.
Defined.

(** X19: a request that is refused changes nothing.  When a handler
    answers a request whose ids are strings with status 400, 409 or 503,
    the state is the one it found. *)
Theorem refused_requests_change_nothing fuel env request s response s' :
  handle fuel env request s = Some (response, s') ->
  Response.status response = 400 \/ Response.status response = 409 \/ Response.status response = 503 ->
  s' = s.
Proof.
  intros H Hs.
  assert (Hno : forall n : N, n = 200 \/ n = 201 \/ n = 500 ->
                  ~ (n = 400 \/ n = 409 \/ n = 503)) by (intros n; lia).
  destruct request; unfold handle in H.
  - unfold post_admin_register_voter, registerVoter in H.
    destruct (negb (isLoaded s)); [congruence|].
    destruct (negb (truthy (Some voterId))); [cbv iota beta in H; congruence|].
    destruct (bool_decide (voterId ∈ registeredVoters s)); cbv iota beta in H;
      [congruence|].
    injection H as <- <-. exfalso. apply (Hno 200); [auto|exact Hs].
  - unfold post_admin_set_election_status, setElectionStatus in H.
    destruct (negb (isLoaded s)); [congruence|].
    destruct isOpen as [open|]; cbv iota beta in H; [|congruence].
    injection H as <- <-. exfalso. apply (Hno 200); [auto|exact Hs].
  - unfold get in H. destruct (negb (isLoaded s)); congruence.
  - unfold get in H. destruct (negb (isLoaded s)); congruence.
  - unfold get_blockchain in H. destruct (negb (isLoaded s)); congruence.
  - unfold get_transactions_pending in H. destruct (negb (isLoaded s)); congruence.
  - unfold post_vote in H. destruct (negb (isLoaded s)); [congruence|].
    destruct (createVote voterId candidateId (clock_vote env) s) as [[r|e] s1] eqn:E.
    + exfalso. apply (Hno (Response.status response)); [|exact Hs]. right. left.
      destruct (0 <? List.length (pending s1))%nat;
        [destruct (minePendingTransactions_to_await fuel (clock_block env) s1)|];
        try discriminate H; injection H as <- <-; reflexivity.
    + injection H as <- <-.
      pose proof (createVote_throws voterId candidateId (clock_vote env) s e) as Ht.
      rewrite E in Ht. apply Ht. reflexivity.
  - unfold post_mine in H. destruct (negb (isLoaded s)); [congruence|].
    exfalso. apply (Hno (Response.status response)); [|exact Hs].
    destruct (minePendingTransactions _ _ _ _ _ _) as [[[r|e] s1]|]; try discriminate H;
      injection H as <- <-; auto.
  - unfold get in H. destruct (negb (isLoaded s)); congruence.
  - unfold get in H. destruct (negb (isLoaded s)); congruence.
  - unfold get in H. destruct (negb (isLoaded s)); congruence.
  - unfold get_blockchain_isvalid in H. destruct (negb (isLoaded s)); [congruence|].
    pose proof (isChainValid_state s) as Hv. destruct (isChainValid s) as [v s1].
    simpl in Hv. congruence.
Qed.

(** X19 on the sample run: a second vote of ["v1"] is answered with 400
    and leaves the state. *)
Lemma refused_requests_change_nothing_sample :
  handle 10 (mkEnvironment "1700000005000" "1700000006000" "1700000006500" true)
    (POST_vote "v1" "candidateB") sample_mined
  = Some (Response.mk 400 (Message "Voter 'v1' has already cast a vote."),
          sample_mined).
Proof.
  assert (H : exists s',
             handle 10 (mkEnvironment "1700000005000" "1700000006000" "1700000006500" true)
               (POST_vote "v1" "candidateB") sample_mined
             = Some (Response.mk 400 (Message "Voter 'v1' has already cast a vote."), s')).
  { eexists. vm_compute. reflexivity. }
  destruct H as [s' H].
  rewrite H. rewrite (refused_requests_change_nothing _ _ _ _ _ _ H); [reflexivity|].
  left. reflexivity.
Defined.

(** ** The vote route *)

(** What a run of [minePendingTransactions] has done when it reaches its
    first wait, on a pool and a chain that are not empty. *)
Lemma minePendingTransactions_to_await_facts fuel now_block s s' :
  pending s <> [] -> chain s <> [] ->
  minePendingTransactions_to_await fuel now_block s = Some s' ->
  exists newBlock,
    s' = after_push s newBlock /\
    data newBlock = Transactions (copied_array s) /\
    sealed (difficulty s) newBlock = true /\
    chain s' = chain s ++ [newBlock] /\
    transactions_of (heap s') newBlock = pending s /\
    pending s' = pending s /\
    votedUsers s' = votedUsers s /\ registeredVoters s' = registeredVoters s /\
    isElectionOpen s' = isElectionOpen s /\ candidates s' = candidates s /\
    isLoaded s' = isLoaded s.
Proof.
  intros Hp Hc H. rewrite (minePendingTransactions_to_await_spec fuel None now_block "" s) in H.
  destruct (minePendingTransactions fuel None now_block false "" s) as [[r s1]|] eqn:E;
    [|discriminate H].
  simpl in H. injection H as <-.
  destruct (minePendingTransactions_cases _ _ _ _ _ _ _ _ E)
    as [(Hp' & _)|[(_ & Hc' & _)|(_ & latest & nb & _ & Hm & Hd & Hend)]];
    [contradiction|contradiction|].
  destruct Hend as [(_ & _ & ->)|(Hs & _)]; [|discriminate Hs].
  destruct (mined_block_fits _ _ _ _ _ Hm) as (_ & _ & _ & _ & _ & Hsealed).
  exists nb. split; [reflexivity|]. split; [exact Hd|]. split; [exact Hsealed|].
  split; [reflexivity|]. split.
  { unfold transactions_of, elements_at, after_push. read_fields.
    rewrite Hd, heap_with_copy_copy. reflexivity. }
  split.
  { unfold pending at 1, elements_at, after_push. read_fields.
    rewrite heap_with_copy_old by (apply pending_dom; exact Hp). reflexivity. }
  repeat split.
Qed.

(** X20: the vote route answers once the block is sealed.  On a loaded
    engine whose chain is not empty, a request answered with 201 is one
    [createVote] admitted, and when the response is sent the run of
    [minePendingTransactions] it started has done its proof-of-work and
    pushed a sealed block that holds the vote; the vote is still in the
    pool and its voter is not yet in [votedUsers].  A request [createVote]
    refuses is answered with 400 and the message of the error. *)
Theorem post_vote_answers_after_sealing fuel env voterId candidateId s response s' :
  isLoaded s = true -> chain s <> [] ->
  post_vote fuel env voterId candidateId s = Some (response, s') ->
  (forall e, fst (createVote voterId candidateId (clock_vote env) s) = Throw e ->
     response = Response.mk 400 (Message (message e)) /\ s' = s) /\
  (fst (createVote voterId candidateId (clock_vote env) s) = Return true ->
   Response.status response = 201 /\
   exists newBlock,
     chain s' = chain s ++ [newBlock] /\
     starts_with_zeros (difficulty s) (hash newBlock) /\
     transactions_of (heap s') newBlock
     = pending s ++ [Vote voterId candidateId (clock_vote env)] /\
     pending s' = pending s ++ [Vote voterId candidateId (clock_vote env)] /\
     votedUsers s' = votedUsers s).
Proof.
  intros Hl Hc H. unfold post_vote in H. rewrite Hl in H. cbn [negb] in H.
  split.
  - intros e He.
    pose proof (createVote_throws _ _ _ _ _ He) as Hs.
    destruct (createVote voterId candidateId (clock_vote env) s) as [r s1].
    simpl in He, Hs. subst r s1. injection H as <- <-. split; reflexivity.
  - intros Hok.
    pose proof (createVote_accepted_state _ _ _ _ Hok) as Hs.
    destruct (createVote voterId candidateId (clock_vote env) s) as [r s1].
    simpl in Hok, Hs. subst r.
    assert (Hpending : pending s1 = pending s ++ [Vote voterId candidateId (clock_vote env)]).
    { rewrite Hs. unfold pending. read_fields. apply elements_at_push. }
    assert (Hne : pending s1 <> []) by (rewrite Hpending; destruct (pending s); discriminate).
    assert (Hlen : (0 <? List.length (pending s1))%nat = true).
    { apply Nat.ltb_lt. destruct (pending s1); [contradiction|simpl; lia]. }
    rewrite Hlen in H.
    destruct (minePendingTransactions_to_await fuel (clock_block env) s1) as [s2|] eqn:E;
      [|discriminate H].
    injection H as <- <-. split; [reflexivity|].
    assert (Hc1 : chain s1 <> []) by (rewrite Hs; exact Hc).
    destruct (minePendingTransactions_to_await_facts _ _ _ _ Hne Hc1 E)
      as (nb & _ & _ & Hsealed & F1 & F2 & F3 & F4 & _).
    exists nb. rewrite F1, F2, F3, F4, Hpending. rewrite Hs in Hsealed |- *.
    revert Hsealed. read_fields. intros Hsealed.
    repeat split. apply sealed_starts_with_zeros. exact Hsealed.
Qed.

(** X20 on the sample run: the vote of ["v1"] is answered with 201 when
    the block of nonce 3 is on the chain. *)
Lemma post_vote_answers_after_sealing_sample :
  exists s',
    post_vote 10 (mkEnvironment "1700000000000" "1700000001008" "1700000001500" true)
      "v1" "candidateA" sample_open
    = Some (Response.mk 201
              (Message "Vote accepted. Mining in progress to record it permanently."), s') /\
    chain s' = [createGenesisBlock; sample_first_block] /\
    pending s' = [Vote "v1" "candidateA" "1700000000000"] /\
    votedUsers s' = ∅.
Proof.
  assert (H : post_vote 10
                (mkEnvironment "1700000000000" "1700000001008" "1700000001500" true)
                "v1" "candidateA" sample_open
              = Some (Response.mk 201
                        (Message "Vote accepted. Mining in progress to record it permanently."),
                      sample_unsaved)) by (vm_compute; reflexivity).
  exists sample_unsaved. split; [exact H|].
  assert (Hl : isLoaded sample_open = true) by reflexivity.
  assert (Hc : chain sample_open <> []) by discriminate.
  destruct (post_vote_answers_after_sealing _ _ _ _ _ _ _ Hl Hc H) as [_ Hok].
  destruct Hok as (_ & nb & _ & _ & _ & Hp & Hv).
  - vm_compute. reflexivity.
  - split; [vm_compute; reflexivity|]. split.
    + rewrite Hp. vm_compute. reflexivity.
    + rewrite Hv. vm_compute. reflexivity.
Defined.

(** ** Requests and the reachable states *)

Lemma post_vote_reachable fuel env voterId candidateId s response s' :
  reachable s ->
  post_vote fuel env voterId candidateId s = Some (response, s') -> reachable s'.
Proof.
  intros Hr H. unfold post_vote in H.
  destruct (negb (isLoaded s)); [injection H as <- <-; exact Hr|].
  assert (Hr1 : reachable (snd (createVote voterId candidateId (clock_vote env) s))).
  { apply (reachable_step s); [exact Hr|]. apply step_createVote. }
  destruct (createVote voterId candidateId (clock_vote env) s) as [[r|e] s1];
    simpl in Hr1; [|injection H as <- <-; exact Hr1].
  destruct (0 <? List.length (pending s1))%nat; [|injection H as <- <-; exact Hr1].
  destruct (minePendingTransactions_to_await fuel (clock_block env) s1) as [s2|] eqn:E;
    [|discriminate H].
  injection H as <- <-.
  rewrite (minePendingTransactions_to_await_spec fuel None (clock_block env) "" s1) in E.
  destruct (minePendingTransactions fuel None (clock_block env) false "" s1)
    as [[r' s2']|] eqn:E'; [|discriminate E].
  simpl in E. injection E as <-.
  apply (reachable_step s1); [exact Hr1|].
  exact (step_minePendingTransactions _ _ _ _ _ _ _ _ E').
Qed.

(** X21: every request leaves a reachable state.  The state a handler
    ends in, starting in a reachable state, is reachable by the operations
    of the engine; so what holds in the reachable states holds between the
    requests, and [isChainValid] returns [true] there. *)
Theorem requests_keep_reachable fuel env request s response s' :
  reachable s ->
  handle fuel env request s = Some (response, s') ->
  reachable s' /\ fst (isChainValid s') = true.
Proof.
  intros Hr H.
  assert (Hr' : reachable s').
  { destruct request; unfold handle in H.
    - unfold post_admin_register_voter in H.
      destruct (negb (isLoaded s)); [injection H as <- <-; exact Hr|].
      assert (Hr1 : reachable (snd (registerVoter voterId s))).
      { apply (reachable_step s); [exact Hr|]. apply step_registerVoter. }
      destruct (registerVoter voterId s) as [[[|]|e] s1]; simpl in Hr1;
        injection H as <- <-; exact Hr1.
    - unfold post_admin_set_election_status in H.
      destruct (negb (isLoaded s)); [injection H as <- <-; exact Hr|].
      assert (Hr1 : reachable (snd (setElectionStatus isOpen s))).
      { apply (reachable_step s); [exact Hr|]. apply step_setElectionStatus. }
      destruct (setElectionStatus isOpen s) as [[u|e] s1]; simpl in Hr1;
        injection H as <- <-; exact Hr1.
    - unfold get in H. destruct (negb (isLoaded s)); injection H as <- <-; exact Hr.
    - unfold get in H. destruct (negb (isLoaded s)); injection H as <- <-; exact Hr.
    - unfold get_blockchain in H.
      destruct (negb (isLoaded s)); injection H as <- <-; exact Hr.
    - unfold get_transactions_pending in H.
      destruct (negb (isLoaded s)); injection H as <- <-; exact Hr.
    - apply (post_vote_reachable _ _ _ _ _ _ _ Hr H).
    - unfold post_mine in H. destruct (negb (isLoaded s)); [injection H as <- <-; exact Hr|].
      destruct (minePendingTransactions fuel minerAddress (clock_block env) (block_saved env)
                  (clock_reward env) s) as [[r s1]|] eqn:E; [|discriminate H].
      assert (Hr1 : reachable s1).
      { apply (reachable_step s); [exact Hr|].
        exact (step_minePendingTransactions _ _ _ _ _ _ _ _ E). }
      destruct r; injection H as <- <-; exact Hr1.
    - unfold get in H. destruct (negb (isLoaded s)); injection H as <- <-; exact Hr.
    - unfold get in H. destruct (negb (isLoaded s)); injection H as <- <-; exact Hr.
    - unfold get in H. destruct (negb (isLoaded s)); injection H as <- <-; exact Hr.
    - unfold get_blockchain_isvalid in H.
      destruct (negb (isLoaded s)); [injection H as <- <-; exact Hr|].
      pose proof (isChainValid_state s) as Hv. destruct (isChainValid s) as [v s1].
      simpl in Hv. injection H as <- <-. rewrite Hv. exact Hr. }
  split; [exact Hr'|]. apply invariant_chain_valid, reachable_invariant. exact Hr'.
Qed.

(** X21 on the sample run: after the vote route has answered, the chain
    of two blocks is valid. *)
Lemma requests_keep_reachable_sample :
  fst (isChainValid sample_unsaved) = true.
Proof.
  assert (H : handle 10
                (mkEnvironment "1700000000000" "1700000001008" "1700000001500" true)
                (POST_vote "v1" "candidateA") sample_open
              = Some (Response.mk 201
                        (Message "Vote accepted. Mining in progress to record it permanently."),
                      sample_unsaved)) by (vm_compute; reflexivity).
  assert (Hr : reachable sample_open).
  { apply (reachable_step sample_registered); [|exact (step_setElectionStatus _ _)].
    apply (reachable_step sample_genesis); [|exact (step_registerVoter _ _)].
    apply reachable_genesis. }
  destruct (requests_keep_reachable _ _ _ _ _ _ Hr H) as [_ Hv]. exact Hv.
Defined.

(** ** Votes that arrive while a block is being saved *)

Lemma post_vote_accepted fuel env voterId candidateId s response s' :
  isLoaded s = true ->
  post_vote fuel env voterId candidateId s = Some (response, s') ->
  Response.status response = 201 ->
  fst (createVote voterId candidateId (clock_vote env) s) = Return true.
Proof.
  intros Hl H Hs. unfold post_vote in H. rewrite Hl in H. cbn [negb] in H.
  destruct (createVote voterId candidateId (clock_vote env) s) as [[r|e] s1] eqn:E.
  - simpl. f_equal. apply (createVote_returns voterId candidateId (clock_vote env) s).
    rewrite E. reflexivity.
  - injection H as <- <-. discriminate Hs.
Qed.

(** What the vote route has done when it answers 201. *)
Lemma post_vote_accepted_facts fuel env voterId candidateId s response s' :
  reachable s -> isLoaded s = true ->
  post_vote fuel env voterId candidateId s = Some (response, s') ->
  Response.status response = 201 ->
  reachable s' /\ isLoaded s' = true /\
  sealed_transactions s'
  = sealed_transactions s ++ pending s ++ [Vote voterId candidateId (clock_vote env)] /\
  pending s' = pending s ++ [Vote voterId candidateId (clock_vote env)] /\
  candidates s' = candidates s /\ known_candidate s candidateId.
Proof.
  intros Hr Hl H Hs.
  pose proof (post_vote_reachable _ _ _ _ _ _ _ Hr H) as Hr'.
  pose proof (post_vote_accepted _ _ _ _ _ _ _ Hl H Hs) as Hok.
  pose proof (reachable_invariant s Hr) as Hinv.
  pose proof (proj1 (createVote_accepts _ _ _ _) Hok) as (_ & _ & _ & Hk & _).
  pose proof (createVote_accepted_state _ _ _ _ Hok) as Hs1.
  unfold post_vote in H. rewrite Hl in H. cbn [negb] in H.
  assert (Hinv1 : invariant (snd (createVote voterId candidateId (clock_vote env) s)))
    by (apply invariant_createVote; exact Hinv).
  destruct (createVote voterId candidateId (clock_vote env) s) as [r s1].
  simpl in Hok, Hs1, Hinv1. subst r.
  assert (Hpending : pending s1 = pending s ++ [Vote voterId candidateId (clock_vote env)]).
  { rewrite Hs1. unfold pending. read_fields. apply elements_at_push. }
  assert (Hsealed : sealed_transactions s1 = sealed_transactions s).
  { apply (sealed_transactions_same s s1 Hinv); [rewrite Hs1; reflexivity|].
    intros a _ Ha. rewrite Hs1. read_fields. apply lookup_push_ne. exact Ha. }
  assert (Hne : pending s1 <> []) by (rewrite Hpending; destruct (pending s); discriminate).
  assert (Hlen : (0 <? List.length (pending s1))%nat = true).
  { apply Nat.ltb_lt. destruct (pending s1); [contradiction|simpl; lia]. }
  rewrite Hlen in H.
  destruct (minePendingTransactions_to_await fuel (clock_block env) s1) as [s2|] eqn:E;
    [|discriminate H].
  injection H as <- <-.
  destruct (minePendingTransactions_to_await_facts _ _ _ _ Hne (inv_chain s1 Hinv1) E)
    as (nb & _ & _ & _ & _ & _ & F3 & _ & _ & _ & F7 & F8).
  rewrite (minePendingTransactions_to_await_spec fuel None (clock_block env) "" s1) in E.
  destruct (minePendingTransactions fuel None (clock_block env) false "" s1)
    as [[r' s2']|] eqn:E'; [|discriminate E].
  simpl in E. injection E as ->.
  destruct (mining_seals_pool _ _ _ _ _ _ _ _ Hinv1 E') as [Hseal _].
  split; [exact Hr'|]. split; [rewrite F8, Hs1; exact Hl|].
  split; [rewrite Hseal, Hsealed, Hpending; reflexivity|].
  split; [rewrite F3; exact Hpending|].
  split; [rewrite F7, Hs1; reflexivity|exact Hk].
Qed.

(** X22: a vote that arrives while a block is being saved seals the
    votes of that block again.  When the vote route answers 201 to a request
    and then, before the run of [minePendingTransactions] of the first has
    gone on after its wait, 201 to a second one, the chain has gained two
    blocks; the second holds the pool of the first and the second vote, so
    the first vote is in the chain twice and the entry of its candidate in
    [getElectionResults] has grown by two at least, and stays so when the
    two runs go on after their waits. *)
Theorem votes_in_flight_are_sealed_twice
    fuel env1 env2 voter1 candidate1 voter2 candidate2 s response1 s1 response2 s2 :
  reachable s -> isLoaded s = true ->
  post_vote fuel env1 voter1 candidate1 s = Some (response1, s1) ->
  Response.status response1 = 201 ->
  post_vote fuel env2 voter2 candidate2 s1 = Some (response2, s2) ->
  Response.status response2 = 201 ->
  sealed_transactions s2
  = sealed_transactions s
    ++ (pending s ++ [Vote voter1 candidate1 (clock_vote env1)])
    ++ (pending s ++ [Vote voter1 candidate1 (clock_vote env1);
                      Vote voter2 candidate2 (clock_vote env2)]) /\
  (exists entry entry',
     getElectionResults s !! candidate1 = Some entry /\
     getElectionResults s2 !! candidate1 = Some entry' /\
     Result.votes entry + 2 <= Result.votes entry') /\
  (forall miner1 now1 block1 miner2 now2 block2,
     getElectionResults
       (after_save miner2 now2 block2 (after_save miner1 now1 block1 s2))
     = getElectionResults s2).
Proof.
  intros Hr Hl H1 Hs1 H2 Hs2.
  destruct (post_vote_accepted_facts _ _ _ _ _ _ _ Hr Hl H1 Hs1)
    as (Hr1 & Hl1 & Hseal1 & Hp1 & Hc1 & Hk).
  destruct (post_vote_accepted_facts _ _ _ _ _ _ _ Hr1 Hl1 H2 Hs2)
    as (Hr2 & _ & Hseal2 & _ & Hc2 & _).
  assert (Hseal : sealed_transactions s2
                  = sealed_transactions s
                    ++ (pending s ++ [Vote voter1 candidate1 (clock_vote env1)])
                    ++ (pending s ++ [Vote voter1 candidate1 (clock_vote env1);
                                      Vote voter2 candidate2 (clock_vote env2)])).
  { rewrite Hseal2, Hseal1, Hp1, <- !app_assoc. reflexivity. }
  split; [exact Hseal|]. split.
  2: { intros m1 t1 b1 m2 t2 b2. pose proof (reachable_invariant s2 Hr2) as Hinv.
       rewrite after_save_keeps_tally by (apply invariant_after_save; exact Hinv).
       apply after_save_keeps_tally. exact Hinv. }
  apply initial_results_known in Hk. destruct Hk as [entry0 He0].
  exists (Result.mk (Result.name entry0)
            (Result.votes entry0 + count (votes_for candidate1) (sealed_transactions s))),
         (Result.mk (Result.name entry0)
            (Result.votes entry0 + count (votes_for candidate1) (sealed_transactions s2))).
  split; [|split].
  - rewrite getElectionResults_fold, lookup_count_transactions, He0. reflexivity.
  - rewrite getElectionResults_fold, lookup_count_transactions, Hc2, Hc1, He0. reflexivity.
  - cbn [Result.votes]. rewrite Hseal, !count_app, !count_cons. cbn [votes_for].
    rewrite String.eqb_refl. destruct (String.eqb candidate2 candidate1); lia.
Qed.

(** X22 on the sample run: ["v1"] votes for ["candidateA"], ["v2"] for
    ["candidateB"] while the first block is being saved, and
    ["candidateA"] has two votes. *)
Lemma votes_in_flight_are_sealed_twice_sample :
  exists entry,
    getElectionResults sample_in_flight_twice !! "candidateA" = Some entry /\
    2 <= Result.votes entry.
Proof.
  assert (H1 : post_vote 10 sample_first_request "v1" "candidateA" sample_two_voters
               = Some (Response.mk 201
                         (Message "Vote accepted. Mining in progress to record it permanently."),
                       sample_in_flight)) by (vm_compute; reflexivity).
  assert (H2 : post_vote 10 sample_second_request "v2" "candidateB" sample_in_flight
               = Some (Response.mk 201
                         (Message "Vote accepted. Mining in progress to record it permanently."),
                       sample_in_flight_twice)) by (vm_compute; reflexivity).
  assert (Hr : reachable sample_two_voters).
  { apply (reachable_step sample_open); [|exact (step_registerVoter _ _)].
    apply (reachable_step sample_registered); [|exact (step_setElectionStatus _ _)].
    apply (reachable_step sample_genesis); [|exact (step_registerVoter _ _)].
    apply reachable_genesis. }
  assert (Hl : isLoaded sample_two_voters = true) by (vm_compute; reflexivity).
  destruct (votes_in_flight_are_sealed_twice 10 sample_first_request sample_second_request
              "v1" "candidateA" "v2" "candidateB" sample_two_voters _ sample_in_flight _
              sample_in_flight_twice Hr Hl H1 eq_refl H2 eq_refl)
    as (_ & (entry & entry' & _ & He' & Hle) & _).
  exists entry'. split; [exact He'|lia].
Defined.

(** ** The registration route and the mining route *)

(** X23: the answers of the registration route to an id that is a
    string.  On a loaded engine the empty string is answered with 400 and a
    string that is registered with 409, the state staying as it is; any
    other string is answered with 200 and added to [registeredVoters], and
    [createVote] then admits a vote of this voter for a candidate of the
    roster when the election is open and the voter has not voted. *)
Theorem post_admin_register_voter_answers voterId s :
  isLoaded s = true ->
  (voterId = "" ->
   post_admin_register_voter voterId s
   = (Response.mk 400 (Message "Voter ID cannot be empty."), s)) /\
  (voterId <> "" -> voterId ∈ registeredVoters s ->
   post_admin_register_voter voterId s
   = (Response.mk 409 (Message ("Voter '" +:+ voterId +:+ "' is already registered.")), s)) /\
  (voterId <> "" -> voterId ∉ registeredVoters s ->
   exists s',
     post_admin_register_voter voterId s
     = (Response.mk 200 (Message ("Voter '" +:+ voterId +:+ "' registered successfully.")), s') /\
     registeredVoters s' = {[voterId]} ∪ registeredVoters s /\
     forall candidateId now,
       isElectionOpen s = true -> candidateId <> "" -> known_candidate s candidateId ->
       voterId ∉ votedUsers s ->
       fst (createVote voterId candidateId now s') = Return true).
Proof.
  intros Hl. unfold post_admin_register_voter, registerVoter. rewrite Hl. cbn [negb].
  split; [|split].
  - intros ->. reflexivity.
  - intros Hv Hin. rewrite (proj2 (truthy_Some voterId) Hv). cbn [negb].
    rewrite (bool_decide_eq_true_2 _ Hin). reflexivity.
  - intros Hv Hnot. rewrite (proj2 (truthy_Some voterId) Hv). cbn [negb].
    rewrite (bool_decide_eq_false_2 _ Hnot). eexists. split; [reflexivity|].
    split; [reflexivity|].
    intros c now Ho Hc Hk Hnv. apply createVote_accepts. read_fields.
    repeat split; auto. apply elem_of_union. left. apply elem_of_singleton. reflexivity.
Qed.

(** X23 on the sample run: ["v2"] is registered by the route and then
    admitted. *)
Lemma post_admin_register_voter_answers_sample :
  exists s',
    post_admin_register_voter "v2" sample_open
    = (Response.mk 200 (Message "Voter 'v2' registered successfully."), s') /\
    fst (createVote "v2" "candidateB" "1700000000500" s') = Return true.
Proof.
  destruct (post_admin_register_voter_answers "v2" sample_open eq_refl) as (_ & _ & H).
  destruct H as (s' & H1 & _ & H3).
  - discriminate.
  - apply (bool_decide_eq_false_1 ("v2" ∈ registeredVoters sample_open)).
    vm_compute. reflexivity.
  - exists s'. split; [exact H1|]. apply H3.
    + vm_compute. reflexivity.
    + discriminate.
    + exists (Candidate.mk "candidateB" "Bob Johnson"). split; [|reflexivity].
      apply list_elem_of_further, list_elem_of_here.
    + apply (bool_decide_eq_false_1 ("v2" ∈ votedUsers sample_open)).
      vm_compute. reflexivity.
Defined.

(** X24: the answers of the mining route.  On a loaded engine whose chain
    is not empty, an empty pool is answered with 200 and the message that
    there is nothing to mine, the state staying as it is.  On a pool that
    is not empty the chain gains one block whatever the answer: 200 with
    the block when its write succeeds, 500 when it is rejected, and then
    the pool is the one the run found, so that the next run seals its
    transactions again. *)
Theorem post_mine_answers fuel env minerAddress s :
  isLoaded s = true -> chain s <> [] ->
  (pending s = [] ->
   post_mine fuel env minerAddress s
   = Some (ok (MiningOutcome "No pending transactions to mine." None), s)) /\
  (pending s <> [] ->
   forall response s',
     post_mine fuel env minerAddress s = Some (response, s') ->
     exists newBlock,
       chain s' = chain s ++ [newBlock] /\
       transactions_of (heap s') newBlock = pending s /\
       (block_saved env = true ->
        response = ok (MiningOutcome "Block successfully mined!"
                         (Some (block_document (heap s') newBlock)))) /\
       (block_saved env = false ->
        response = Response.mk 500 (MiningFailure "Error during mining."
                                     "Failed to save block to database.") /\
        pending s' = pending s)).
Proof.
  intros Hl Hc. unfold post_mine. rewrite Hl. cbn [negb]. split.
  - intros Hp. unfold minePendingTransactions. rewrite Hp. reflexivity.
  - intros Hp response s' H.
    destruct (minePendingTransactions fuel minerAddress (clock_block env) (block_saved env)
                (clock_reward env) s) as [[r s1]|] eqn:E; [|discriminate H].
    destruct (minePendingTransactions_cases _ _ _ _ _ _ _ _ E)
      as [(Hp' & _)|[(_ & Hc' & _)|(_ & latest & nb & _ & _ & Hd & Hend)]];
      [contradiction|contradiction|].
    exists nb. destruct Hend as [(Hs & -> & ->)|(Hs & -> & ->)]; injection H as <- <-.
    + split; [reflexivity|]. split.
      { unfold transactions_of, elements_at, after_push. read_fields.
        rewrite Hd, heap_with_copy_copy. reflexivity. }
      split; [intros Ht; congruence|]. intros _. split; [reflexivity|].
      unfold pending at 1, elements_at, after_push. read_fields.
      rewrite heap_with_copy_old by (apply pending_dom; exact Hp). reflexivity.
    + destruct (after_mining_facts minerAddress (clock_reward env) s nb Hp Hd)
        as (F1 & _ & _ & _ & F5 & _).
      split; [exact F1|]. split; [exact F5|].
      split; [intros _; reflexivity|intros Hf; congruence].
Qed.

(** X24 on the sample run: the write of the block is rejected, the route
    answers 500 and the block is on the chain. *)
Lemma post_mine_answers_sample :
  exists response,
    post_mine 10 (mkEnvironment "1700000000000" "1700000001008" "1700000001500" false)
      (Some "election-authority-miner") sample_voted
    = Some (response, sample_unsaved) /\
    Response.status response = 500 /\
    chain sample_unsaved = [createGenesisBlock; sample_first_block].
Proof.
  assert (H : post_mine 10
                (mkEnvironment "1700000000000" "1700000001008" "1700000001500" false)
                (Some "election-authority-miner") sample_voted
              = Some (Response.mk 500 (MiningFailure "Error during mining."
                                        "Failed to save block to database."),
                      sample_unsaved)) by (vm_compute; reflexivity).
  assert (Hl : isLoaded sample_voted = true) by (vm_compute; reflexivity).
  assert (Hc : chain sample_voted <> []) by (vm_compute; discriminate).
  destruct (post_mine_answers 10
              (mkEnvironment "1700000000000" "1700000001008" "1700000001500" false)
              (Some "election-authority-miner") sample_voted Hl Hc) as [_ Hrun].
  destruct (Hrun ltac:(rewrite sample_voted_pending; discriminate) _ _ H)
    as (nb & Hchain & _ & _ & Hfail).
  destruct (Hfail eq_refl) as [Hresp _].
  eexists. split; [exact H|]. split; [reflexivity|]. vm_compute. reflexivity.
Defined.

(** ** The vote form and the engine *)

Lemma includes_Array_from set id : includes (Array_from set) id = bool_decide (id ∈ set).
Proof. unfold includes, Array_from. apply bool_decide_ext. apply elem_of_elements. Qed.

(** The flags of the form after it has taken up the answers of a loaded
    engine. *)
Lemma form_after_refresh s form :
  isLoaded s = true ->
  let form' :=
    checkVoterStatus
      (fst (get (fun s => VoterIds (Array_from (registeredVoters s))) s))
      (fst (get (fun s => VoterIds (Array_from (votedUsers s))) s))
      (fetchElectionStatus (fst (get (fun s => ElectionStatus (isElectionOpen s)) s)) form) in
  VoteForm.voterId form' = VoteForm.voterId form /\
  VoteForm.selectedCandidateId form' = VoteForm.selectedCandidateId form /\
  VoteForm.currentElectionStatus form' = isElectionOpen s /\
  (VoteForm.voterId form <> "" ->
   VoteForm.isVoterRegistered form' = bool_decide (VoteForm.voterId form ∈ registeredVoters s) /\
   (VoteForm.voterId form ∈ registeredVoters s ->
    VoteForm.hasVotedAlready form' = bool_decide (VoteForm.voterId form ∈ votedUsers s))).
Proof.
  intros Hl form'. subst form'. unfold get. rewrite Hl. cbn [negb fst].
  unfold fetchElectionStatus, checkVoterStatus, ok, succeeded.
  cbn [Response.status Response.body]. cbv beta iota.
  change ((200 <=? 200) && (200 <? 300)) with true. cbv iota.
  cbn [VoteForm.voterId]. rewrite !includes_Array_from. unfold truthy.
  destruct (String.eqb_spec (VoteForm.voterId form) "") as [E|E]; cbn [negb]; cbv iota.
  - unfold with_voter_status.
    cbn [VoteForm.voterId VoteForm.selectedCandidateId VoteForm.currentElectionStatus
         VoteForm.isVoterRegistered VoteForm.hasVotedAlready].
    split; [reflexivity|]. split; [reflexivity|]. split; [reflexivity|].
    intros H. contradiction.
  - destruct (bool_decide (VoteForm.voterId form ∈ registeredVoters s)) eqn:Er;
      unfold with_voter_status;
      cbn [VoteForm.voterId VoteForm.selectedCandidateId VoteForm.currentElectionStatus
           VoteForm.isVoterRegistered VoteForm.hasVotedAlready];
      (split; [reflexivity|]); (split; [reflexivity|]); (split; [reflexivity|]);
      intros _; (split; [reflexivity|]); intros Hin; [reflexivity|].
    apply bool_decide_eq_false_1 in Er. contradiction.
Qed.

(** X25: the form sends what the engine admits.  Once the form has taken
    up the answers of a loaded engine on the election status, the
    registered voters and the voted users, [submitVote] sends a request only
    if [createVote] admits the vote, the candidate being one of the roster;
    and when it sends none, [createVote] would have refused the vote. *)
Theorem form_sends_what_the_engine_admits
    fuel env s form status_answer registered_answer voted_answer s1 s2 s3 :
  isLoaded s = true ->
  handle fuel env GET_admin_election_status s = Some (status_answer, s1) ->
  handle fuel env GET_admin_registered_voters s1 = Some (registered_answer, s2) ->
  handle fuel env GET_voted_users s2 = Some (voted_answer, s3) ->
  let form' :=
    checkVoterStatus registered_answer voted_answer
      (fetchElectionStatus status_answer form) in
  s3 = s /\
  (forall request,
     snd (submitVote form') = Some request ->
     request = POST_vote (VoteForm.voterId form) (VoteForm.selectedCandidateId form) /\
     forall now,
       known_candidate s (VoteForm.selectedCandidateId form) ->
       fst (createVote (VoteForm.voterId form) (VoteForm.selectedCandidateId form) now s)
       = Return true) /\
  (snd (submitVote form') = None ->
   forall now,
     fst (createVote (VoteForm.voterId form) (VoteForm.selectedCandidateId form) now s)
     <> Return true).
Proof.
  intros Hl H1 H2 H3.
  assert (E1 : s1 = s /\ status_answer = fst (get (fun s => ElectionStatus (isElectionOpen s)) s)).
  { unfold handle, get in H1. rewrite Hl in H1. cbn [negb] in H1. injection H1 as <- <-.
    unfold get. rewrite Hl. auto. }
  destruct E1 as [-> ->].
  assert (E2 : s2 = s /\
               registered_answer
               = fst (get (fun s => VoterIds (Array_from (registeredVoters s))) s)).
  { unfold handle, get in H2. rewrite Hl in H2. cbn [negb] in H2. injection H2 as <- <-.
    unfold get. rewrite Hl. auto. }
  destruct E2 as [-> ->].
  assert (E3 : s3 = s /\
               voted_answer = fst (get (fun s => VoterIds (Array_from (votedUsers s))) s)).
  { unfold handle, get in H3. rewrite Hl in H3. cbn [negb] in H3. injection H3 as <- <-.
    unfold get. rewrite Hl. auto. }
  destruct E3 as [-> ->].
  intros form'. destruct (form_after_refresh s form Hl) as (Fv & Fc & Fo & Fr).
  fold form' in Fv, Fc, Fo, Fr. clearbody form'.
  split; [reflexivity|].
  unfold submitVote. rewrite Fv, Fc, Fo.
  destruct (String.eqb_spec (VoteForm.voterId form) "") as [Ev|Ev].
  { rewrite Ev. simpl. split; [intros request H; discriminate H|].
    intros _ now H. apply createVote_accepts in H. tauto. }
  rewrite (proj2 (truthy_Some _) Ev). cbn [negb orb].
  destruct (String.eqb_spec (VoteForm.selectedCandidateId form) "") as [Ec|Ec].
  { rewrite Ec. simpl. split; [intros request H; discriminate H|].
    intros _ now H. apply createVote_accepts in H. tauto. }
  rewrite (proj2 (truthy_Some _) Ec). cbn [negb].
  destruct (Fr Ev) as [Freg Fvoted]. rewrite Freg.
  destruct (isElectionOpen s) eqn:Eo; cbn [negb].
  2: { split; [intros request H; discriminate H|].
       intros _ now H. apply createVote_accepts in H. destruct H as (H & _).
       rewrite Eo in H. discriminate H. }
  destruct (bool_decide (VoteForm.voterId form ∈ registeredVoters s)) eqn:Er; cbn [negb].
  2: { split; [intros request H; discriminate H|].
       intros _ now H. apply createVote_accepts in H.
       apply bool_decide_eq_false_1 in Er. tauto. }
  apply bool_decide_eq_true_1 in Er. rewrite (Fvoted Er).
  destruct (bool_decide (VoteForm.voterId form ∈ votedUsers s)) eqn:Evd.
  { split; [intros request H; discriminate H|].
    intros _ now H. apply createVote_accepts in H.
    apply bool_decide_eq_true_1 in Evd. tauto. }
  apply bool_decide_eq_false_1 in Evd. cbn [snd]. split.
  - intros request H. injection H as <-. split; [reflexivity|].
    intros now Hk. apply createVote_accepts. repeat split; auto.
  - intros H. discriminate H.
Qed.

(** X25 on the sample run: the form of ["v1"] takes up the answers of the
    open election and sends the vote, which [createVote] admits. *)
Lemma form_sends_what_the_engine_admits_sample :
  snd (submitVote
         (checkVoterStatus (ok (VoterIds (Array_from (registeredVoters sample_open))))
            (ok (VoterIds (Array_from (votedUsers sample_open))))
            (fetchElectionStatus (ok (ElectionStatus (isElectionOpen sample_open)))
               (VoteForm.mk "v1" "candidateA" "" false false false false))))
  = Some (POST_vote "v1" "candidateA") /\
  fst (createVote "v1" "candidateA" "1700000000000" sample_open) = Return true.
Proof.
  assert (Hs : snd (submitVote
                      (checkVoterStatus
                         (ok (VoterIds (Array_from (registeredVoters sample_open))))
                         (ok (VoterIds (Array_from (votedUsers sample_open))))
                         (fetchElectionStatus
                            (ok (ElectionStatus (isElectionOpen sample_open)))
                            (VoteForm.mk "v1" "candidateA" "" false false false false))))
                = Some (POST_vote "v1" "candidateA")) by (vm_compute; reflexivity).
  split; [exact Hs|].
  destruct (form_sends_what_the_engine_admits 10 sample_first_request sample_open
              (VoteForm.mk "v1" "candidateA" "" false false false false)
              (ok (ElectionStatus (isElectionOpen sample_open)))
              (ok (VoterIds (Array_from (registeredVoters sample_open))))
              (ok (VoterIds (Array_from (votedUsers sample_open))))
              sample_open sample_open sample_open
              eq_refl eq_refl eq_refl eq_refl) as (_ & Hsend & _).
  destruct (Hsend _ Hs) as [_ Hadmit]. apply Hadmit.
  exists (Candidate.mk "candidateA" "Alice Smith"). split; [|reflexivity].
  apply list_elem_of_here.
Defined.

Lemma createVote_error_message voterId candidateId now s e :
  fst (createVote voterId candidateId now s) = Throw e ->
  truthy (Some (message e)) = true.
Proof.
  createVote_cases voterId candidateId s; intros H; try discriminate H;
    injection H as <-; reflexivity.
Qed.

(** X26: the form reports the answer of the engine.  When the vote route
    of a loaded engine has answered the request of the form, the form shows
    success and the message of the route and clears the candidate exactly
    when [createVote] admitted the vote; when [createVote] refused it, the
    form shows the message of the error after ["Error casting vote: "] and
    keeps the candidate. *)
Theorem form_reports_the_answer fuel env http_failure form s response s' :
  isLoaded s = true ->
  post_vote fuel env (VoteForm.voterId form) (VoteForm.selectedCandidateId form) s
  = Some (response, s') ->
  let form' := vote_answered http_failure response form in
  (fst (createVote (VoteForm.voterId form) (VoteForm.selectedCandidateId form)
          (clock_vote env) s) = Return true ->
   VoteForm.isSuccess form' = true /\
   VoteForm.message form' = "Vote accepted. Mining in progress to record it permanently." /\
   VoteForm.selectedCandidateId form' = "") /\
  (forall e,
     fst (createVote (VoteForm.voterId form) (VoteForm.selectedCandidateId form)
            (clock_vote env) s) = Throw e ->
     VoteForm.isSuccess form' = false /\
     VoteForm.message form' = "Error casting vote: " +:+ message e /\
     VoteForm.selectedCandidateId form' = VoteForm.selectedCandidateId form /\
     s' = s).
Proof.
  intros Hl H form'. unfold post_vote in H. rewrite Hl in H. cbn [negb] in H.
  split.
  - intros Hok.
    destruct (createVote (VoteForm.voterId form) (VoteForm.selectedCandidateId form)
                (clock_vote env) s) as [r s1].
    simpl in Hok. subst r.
    assert (Hr : response
                 = Response.mk 201
                     (Message "Vote accepted. Mining in progress to record it permanently.")).
    { destruct (0 <? List.length (pending s1))%nat;
        [destruct (minePendingTransactions_to_await fuel (clock_block env) s1)|];
        try discriminate H; injection H as <- <-; reflexivity. }
    subst form'. rewrite Hr. repeat split.
  - intros e He.
    pose proof (createVote_error_message _ _ _ _ _ He) as Hm.
    pose proof (createVote_throws _ _ _ _ _ He) as Hs.
    destruct (createVote (VoteForm.voterId form) (VoteForm.selectedCandidateId form)
                (clock_vote env) s) as [r s1].
    simpl in He, Hs. subst r s1. injection H as <- <-.
    subst form'. unfold vote_answered, succeeded.
    cbn [Response.status Response.body body_message].
    change ((200 <=? 400) && (400 <? 300)) with false. cbv iota.
    rewrite Hm. repeat split.
Qed.

(** X26 on the sample run: the second vote of ["v1"] is refused and the
    form shows the message of the engine. *)
Lemma form_reports_the_answer_sample :
  VoteForm.message
    (vote_answered "Http failure response"
       (Response.mk 400 (Message "Voter 'v1' has already cast a vote."))
       (VoteForm.mk "v1" "candidateB" "" false true true false))
  = "Error casting vote: Voter 'v1' has already cast a vote.".
Proof.
  assert (H : post_vote 10 sample_second_request "v1" "candidateB" sample_mined
              = Some (Response.mk 400 (Message "Voter 'v1' has already cast a vote."),
                      sample_mined)) by (vm_compute; reflexivity).
  destruct (form_reports_the_answer 10 sample_second_request "Http failure response"
              (VoteForm.mk "v1" "candidateB" "" false true true false)
              sample_mined _ _ eq_refl H) as [_ Hrefused].
  destruct (Hrefused (DuplicateVote "v1")) as (_ & Hm & _).
  - vm_compute. reflexivity.
  - rewrite Hm. reflexivity.
Defined.

(** ** The reward and the next run *)

(** X27: the reward keeps the pool filled.  After a run of
    [minePendingTransactions] for a miner address has saved its block, the
    pool holds the reward, so a run that follows it, whoever starts it, does
    not end on the nothing-to-mine result: it pushes a block on the chain,
    which holds the reward alone. *)
Theorem reward_keeps_the_pool_filled
    fuel address now_block now_reward s r s1
    fuel' minerAddress' now_block' saved' now_reward' r' s2 :
  pending s <> [] -> chain s <> [] -> address <> "" ->
  minePendingTransactions fuel (Some address) now_block true now_reward s = Some (r, s1) ->
  minePendingTransactions fuel' minerAddress' now_block' saved' now_reward' s1
  = Some (r', s2) ->
  pending s1 = [MiningReward address (miningReward s) now_reward] /\
  r' <> Return NothingToMine /\
  exists newBlock,
    chain s2 = chain s1 ++ [newBlock] /\
    transactions_of (heap s2) newBlock
    = [MiningReward address (miningReward s) now_reward].
Proof.
  intros Hp Hc Ha H1 H2.
  destruct (minePendingTransactions_cases _ _ _ _ _ _ _ _ H1)
    as [(Hp' & _)|[(_ & Hc' & _)|(_ & latest & nb & _ & _ & Hd & Hend)]];
    [contradiction|contradiction|].
  destruct Hend as [(Hs & _)|(_ & _ & ->)]; [discriminate Hs|].
  destruct (after_mining_facts (Some address) now_reward s nb Hp Hd)
    as (F1 & _ & _ & _ & _ & _ & _ & F8 & _).
  assert (Hpool : pending (after_mining (Some address) now_reward s nb)
                  = [MiningReward address (miningReward s) now_reward]).
  { rewrite F8. unfold reward_for. rewrite (proj2 (truthy_Some address) Ha). reflexivity. }
  split; [exact Hpool|].
  assert (Hp1 : pending (after_mining (Some address) now_reward s nb) <> [])
    by (rewrite Hpool; discriminate).
  assert (Hc1 : chain (after_mining (Some address) now_reward s nb) <> [])
    by (rewrite F1; destruct (chain s); discriminate).
  destruct (minePendingTransactions_cases _ _ _ _ _ _ _ _ H2)
    as [(Hp' & _)|[(_ & Hc' & _)|(_ & latest' & nb' & _ & _ & Hd' & Hend')]];
    [contradiction|contradiction|].
  destruct Hend' as [(_ & -> & ->)|(_ & -> & ->)].
  - split; [discriminate|]. exists nb'. split; [reflexivity|].
    unfold transactions_of, elements_at. rewrite Hd'.
    unfold after_push at 1. read_fields. rewrite heap_with_copy_copy. exact Hpool.
  - split; [discriminate|]. exists nb'.
    destruct (after_mining_facts minerAddress' now_reward' _ nb' Hp1 Hd')
      as (G1 & _ & _ & _ & G5 & _).
    split; [exact G1|]. rewrite G5. exact Hpool.
Qed.

(** X27 on the sample run: a second run right after the first seals a
    block that holds the reward of the first alone. *)
Lemma reward_keeps_the_pool_filled_sample :
  pending sample_mined = [MiningReward "election-authority-miner" 1 "1700000001500"] /\
  exists r s2,
    minePendingTransactions 10 None "1700000002753" true "1700000003000" sample_mined
    = Some (r, s2) /\
    r <> Return NothingToMine.
Proof.
  assert (H2 : exists r s2,
             minePendingTransactions 10 None "1700000002753" true "1700000003000" sample_mined
             = Some (r, s2)).
  { eexists _, _. vm_compute. reflexivity. }
  destruct H2 as (r & s2 & H2).
  destruct (reward_keeps_the_pool_filled 10 "election-authority-miner" "1700000001008"
              "1700000001500" sample_voted (Return (Mined sample_first_block)) sample_mined
              10 None "1700000002753" true "1700000003000" r s2) as (Hp & Hr & _).
  - rewrite sample_voted_pending. discriminate.
  - vm_compute. discriminate.
  - discriminate.
  - exact sample_mining_result.
  - exact H2.
  - split; [exact Hp|]. exists r, s2. split; [exact H2|exact Hr].
Defined.

(** ** A vote whose block is saved before the next request *)

(** The statements after the wait, run in the state of the wait, end the
    run as a run that was not interrupted ends. *)
Lemma after_save_after_push minerAddress now_reward s newBlock :
  data newBlock = Transactions (copied_array s) ->
  after_save minerAddress now_reward newBlock (after_push s newBlock)
  = after_mining minerAddress now_reward s newBlock.
Proof.
  intros Hd. rewrite after_save_unfold. cbv zeta.
  unfold after_push at 1 2 3 4. read_fields. fold (after_push s newBlock).
  fold (heap_after_mining minerAddress now_reward s). fold (new_pool s).
  rewrite Hd. simpl Array_isArray. cbv iota.
  unfold after_mining. read_fields. f_equal.
  unfold transactions_of. rewrite Hd. unfold elements_at.
  rewrite heap_after_mining_copy. reflexivity.
Qed.

Lemma count_no_votes k ts : count is_vote ts = 0 -> count (votes_for k) ts = 0.
Proof.
  induction ts as [|t ts IH]; [reflexivity|]. rewrite !count_cons.
  destruct t as [v c t|a n t]; simpl; intros H; [lia|]. apply IH. lia.
Qed.

(** X28: a vote whose block is saved before the next request counts
    once.  On a loaded engine in a reachable state whose pool holds no vote,
    when the vote route answers 201 and the run of
    [minePendingTransactions] it started goes on after its wait, the block
    saved, before another request comes, the entry of the vote's candidate in
    [getElectionResults] has grown by one and the other entries are as they
    were, the voter is in [votedUsers], and the pool holds the reward alone,
    so it holds no vote again. *)
Theorem saved_vote_counts_once fuel env voterId candidateId s response s1 :
  reachable s -> isLoaded s = true -> count is_vote (pending s) = 0 ->
  post_vote fuel env voterId candidateId s = Some (response, s1) ->
  Response.status response = 201 ->
  exists newBlock,
    chain s1 = chain s ++ [newBlock] /\
    let s2 := after_save (Some "election-authority-miner") (clock_reward env) newBlock s1 in
    (forall k,
       getElectionResults s2 !! k
       = (fun entry =>
            Result.mk (Result.name entry)
              (Result.votes entry + if String.eqb candidateId k then 1 else 0))
           <$> getElectionResults s !! k) /\
    voterId ∈ votedUsers s2 /\
    pending s2
    = [MiningReward "election-authority-miner" (miningReward s) (clock_reward env)] /\
    count is_vote (pending s2) = 0.
Proof.
  intros Hr Hl Hnv H Hs.
  pose proof (post_vote_accepted _ _ _ _ _ _ _ Hl H Hs) as Hok.
  pose proof (reachable_invariant s Hr) as Hinv.
  pose proof (proj1 (createVote_accepts _ _ _ _) Hok) as (_ & Hv & _).
  pose proof (createVote_accepted_state _ _ _ _ Hok) as Hs0.
  assert (Hinv0 : invariant (snd (createVote voterId candidateId (clock_vote env) s)))
    by (apply invariant_createVote; exact Hinv).
  unfold post_vote in H. rewrite Hl in H. cbn [negb] in H.
  destruct (createVote voterId candidateId (clock_vote env) s) as [r s0].
  simpl in Hok, Hs0, Hinv0. subst r.
  assert (Hpending : pending s0 = pending s ++ [Vote voterId candidateId (clock_vote env)]).
  { rewrite Hs0. unfold pending. read_fields. apply elements_at_push. }
  assert (Hsealed : sealed_transactions s0 = sealed_transactions s).
  { apply (sealed_transactions_same s s0 Hinv); [rewrite Hs0; reflexivity|].
    intros a _ Ha. rewrite Hs0. read_fields. apply lookup_push_ne. exact Ha. }
  assert (Hne : pending s0 <> []) by (rewrite Hpending; destruct (pending s); discriminate).
  assert (Hlen : (0 <? List.length (pending s0))%nat = true).
  { apply Nat.ltb_lt. destruct (pending s0); [contradiction|simpl; lia]. }
  rewrite Hlen in H.
  destruct (minePendingTransactions_to_await fuel (clock_block env) s0) as [s1'|] eqn:E;
    [|discriminate H].
  injection H as <- <-.
  destruct (minePendingTransactions_to_await_facts _ _ _ _ Hne (inv_chain s0 Hinv0) E)
    as (nb & -> & Hd & _ & F1 & _).
  exists nb. split; [rewrite F1, Hs0; reflexivity|].
  cbv zeta. rewrite (after_save_after_push _ _ _ _ Hd).
  destruct (after_mining_facts (Some "election-authority-miner") (clock_reward env) s0 nb
              Hne Hd) as (G1 & _ & _ & _ & G5 & _ & G7 & G8 & G9 & _ & G11 & _).
  assert (Hseal : sealed_transactions
                    (after_mining (Some "election-authority-miner") (clock_reward env) s0 nb)
                  = sealed_transactions s ++ pending s
                    ++ [Vote voterId candidateId (clock_vote env)]).
  { rewrite (sealed_transactions_snoc s0 _ nb G1).
    - rewrite G5, Hsealed, Hpending. reflexivity.
    - intros b Hb. apply (G7 b Hb). intros a Ha.
      destruct Hinv0 as [[_ Harr] _ _ _ _ _ _]. apply (Harr b a Hb Ha). }
  assert (Hpool : pending (after_mining (Some "election-authority-miner") (clock_reward env)
                             s0 nb)
                  = [MiningReward "election-authority-miner" (miningReward s)
                       (clock_reward env)]).
  { rewrite G8, Hs0. reflexivity. }
  split; [|split; [|split]].
  - intros k. rewrite !getElectionResults_fold, G11, Hseal, Hs0. read_fields.
    rewrite foldl_app, lookup_count_transactions.
    rewrite count_app, (count_no_votes k _ Hnv), count_cons. cbn [votes_for].
    destruct (foldl count_transaction (initial_results (candidates s))
                (sealed_transactions s) !! k) as [entry|]; [|reflexivity].
    simpl. do 2 f_equal. destruct (String.eqb candidateId k); unfold count; simpl; lia.
  - rewrite G9. apply elem_of_mark_voted. right. split; [exact Hv|].
    exists candidateId, (clock_vote env). rewrite Hpending. apply elem_of_app. right.
    apply list_elem_of_here.
  - exact Hpool.
  - rewrite Hpool. reflexivity.
Qed.

(** X28 on the sample run: the vote of ["v1"] gives ["candidateA"] one
    vote once its block is saved. *)
Lemma saved_vote_counts_once_sample :
  getElectionResults
    (after_save (Some "election-authority-miner") "1700000001500" sample_first_block
       sample_unsaved) !! "candidateA"
  = Some (Result.mk "Alice Smith" 1).
Proof.
  assert (H : post_vote 10 sample_first_request "v1" "candidateA" sample_open
              = Some (Response.mk 201
                        (Message "Vote accepted. Mining in progress to record it permanently."),
                      sample_unsaved)) by (vm_compute; reflexivity).
  assert (Hr : reachable sample_open).
  { apply (reachable_step sample_registered); [|exact (step_setElectionStatus _ _)].
    apply (reachable_step sample_genesis); [|exact (step_registerVoter _ _)].
    apply reachable_genesis. }
  assert (Hl : isLoaded sample_open = true) by reflexivity.
  assert (Hp : count is_vote (pending sample_open) = 0) by (vm_compute; reflexivity).
  destruct (saved_vote_counts_once 10 sample_first_request "v1" "candidateA" sample_open
              _ sample_unsaved Hr Hl Hp H eq_refl) as (nb & Hc & Ht & _).
  assert (Hchain : chain sample_unsaved = [createGenesisBlock; sample_first_block])
    by (vm_compute; reflexivity).
  assert (Hopen : chain sample_open = [createGenesisBlock]) by (vm_compute; reflexivity).
  rewrite Hchain, Hopen in Hc.
  assert (nb = sample_first_block) as ->
    by (change ([createGenesisBlock] ++ [nb]) with [createGenesisBlock; nb] in Hc; congruence).
  change (clock_reward sample_first_request) with "1700000001500" in Ht.
  rewrite (Ht "candidateA"). vm_compute. reflexivity.
Defined.
